(** * hed_rnn: assembling an encoder/decoder network

    A shallow embedding of [src/models/hed_rnn.py], the class
    [DeepEncoderDecoderNetwork].  The class builds a symbolic graph: the
    constructor picks one layer constructor per string tag, wires the output
    of a layer into the next one, builds the loss expression, and the
    [build_finetune_functions] / [parameter_prediction] methods hand that
    graph to the tensor framework.

    What is modelled as data here is what the Python code itself builds:
    the graph ([texpr]), the layer objects ([layer]), the list of shared
    parameters and the update dictionaries.  What the tensor framework does
    with a graph (evaluating it, differentiating it) is a parameter of the
    development; that [theano.function] refuses a graph with an input that
    is neither given nor shared ([MissingInputError]) is part of the model.
    Strings are ASCII. *)

From Stdlib Require Import ZArith Ascii String List Bool.
From stdpp Require Import gmap strings list fin_maps.

Local Open Scope string_scope.
Local Open Scope list_scope.

(** ** Python strings *)

Definition ascii_lower (c : ascii) : ascii :=
  let n := nat_of_ascii c in
  if (65 <=? n)%nat && (n <=? 90)%nat then ascii_of_nat (n + 32) else c.

Definition ascii_upper (c : ascii) : ascii :=
  let n := nat_of_ascii c in
  if (97 <=? n)%nat && (n <=? 122)%nat then ascii_of_nat (n - 32) else c.

(** [s.lower()] *)
Fixpoint lower (s : string) : string :=
  match s with
  | EmptyString => EmptyString
  | String c s' => String (ascii_lower c) (lower s')
  end.

(** [s.upper()] *)
Fixpoint upper (s : string) : string :=
  match s with
  | EmptyString => EmptyString
  | String c s' => String (ascii_upper c) (upper s')
  end.

(** [s[0:-1]] *)
Fixpoint drop_last (s : string) : string :=
  match s with
  | EmptyString => EmptyString
  | String c EmptyString => EmptyString
  | String c s' => String c (drop_last s')
  end.

(** [s in l] for a list of strings *)
Definition str_in (s : string) (l : list string) : bool :=
  existsb (String.eqb s) l.

(** ** Exceptions and results *)

Inductive exn : Type :=
| AssertionError
| IndexError
| AttributeError
| TypeError
| KeyError
| MissingInputError
| SystemExit (code : Z).

(** A call either returns, or stops with an exception; [critical] holds the
    messages given to [logger.critical] before it stopped. *)
Inductive result (A : Type) : Type :=
| Ok (a : A)
| Raise (critical : list string) (e : exn).

Arguments Ok {A} a.
Arguments Raise {A} critical e.

Global Instance result_ret : MRet result := fun A a => Ok a.

Global Instance result_bind : MBind result := fun A B k r =>
  match r with
  | Ok a => k a
  | Raise msgs e => Raise msgs e
  end.

(** [sys.exit(1)] after [logger.critical(msg)] *)
Definition critical_exit {A : Type} (msg : string) : result A :=
  Raise [msg] (SystemExit 1).

(** [l[i]] with Python's negative indices *)
Definition py_index {A : Type} (l : list A) (i : Z) : result A :=
  let n := Z.of_nat (length l) in
  let j := if (i <? 0)%Z then (i + n)%Z else i in
  if (j <? 0)%Z then Raise [] IndexError
  else match l !! Z.to_nat j with
       | Some a => Ok a
       | None => Raise [] IndexError
       end.

(** [for i in range(n)] over a state, stopping at the first exception *)
Fixpoint for_each {I S : Type} (body : I -> S -> result S) (idxs : list I) (st : S)
  : result S :=
  match idxs with
  | [] => Ok st
  | i :: rest => st' ← body i st; for_each body rest st'
  end.

(** ** The symbolic graph *)

Inductive layer_class : Type :=
| GeneralLayer
| LinearLayer
| RecurrentOutputLayer
| SigmoidLayer_LHUC
| VanillaLstm_LHUC
| SimplifiedLstm
| SimplifiedLstmDecoder
| SimplifiedGRU
| GatedRecurrentUnit
| VanillaLstm
| VanillaLstmDecoder
| BidirectionSLstm
| BidirectionLstm
| VanillaRNN
| VanillaRNNDecoder.

(** the [activation=] argument: a name, or the function [T.tanh] *)
Inductive activation : Type :=
| ActName (name : string)
| ActTanhFn.

(** Symbolic integers ([sexpr]), symbolic tensors ([texpr]) and layer
    objects; a layer holds the tensor it was given as input. *)
Inductive sexpr : Type :=
| SConst (z : Z)                       (* a Python int *)
| SSize (t : texpr)                    (* t.size *)
| SShape1 (t : texpr)                  (* t.shape[1] *)
| SFloorDiv (a b : sexpr)              (* a // b *)
| SAdd (a b : sexpr)                   (* a + b *)
| SSub (a b : sexpr)                   (* a - b *)
| SSum (t : texpr)                     (* T.sum(t) *)
with texpr : Type :=
| TX | TY | TD | TF                    (* self.x, self.y, self.d, self.f *)
| TConst (z : Z)
| TOutput (l : layer)                  (* l.output *)
| TEncoded (x d : texpr)               (* DistributedSequenceEncoder(rng, x, d).encoded_output *)
| TConcat1 (a b : texpr)               (* T.concatenate((a, b), axis=1) *)
| TSlice (t : texpr) (lo hi : sexpr)   (* t[lo:hi] *)
| TSlice2 (t : texpr) (rlo rhi : sexpr) (clo chi : Z)  (* t[rlo:rhi, clo:chi] *)
| TSub (a b : texpr)
| TAdd (a b : texpr)
| TPow (a : texpr) (k : Z)             (* a ** k *)
| TSumAxis1 (a : texpr)                (* T.sum(a, axis=1) *)
| TMaxAxis1 (a : texpr)                (* T.max(a, axis=1) *)
| TAnyAxis1 (a : texpr)                (* T.any(a, 1) *)
| TMean (a : texpr)                    (* T.mean(a), a.mean() *)
| TNonzero (a : texpr)                 (* a.nonzero() *)
| TIndex (a idx : texpr)               (* a[idx] *)
| TReshape (a : texpr) (dims : list sexpr)
| TToOneHot (a : texpr) (n : sexpr)    (* T.extra_ops.to_one_hot(a, n) *)
| TRelu (a : texpr)                    (* T.nnet.relu(a) *)
| TCategoricalCrossentropy (p t : texpr)
with layer : Type :=
| MkLayer (cls : layer_class)
          (input : texpr)              (* second positional argument *)
          (n_in : Z)                   (* third positional argument *)
          (n_h : Z)                    (* fourth positional argument *)
          (extra : option Z)           (* fifth positional argument, if any *)
          (act : option activation)    (* activation=, if given *)
          (dropout : bool)             (* p=self.dropout_rate, training=self.is_train given *)
          (rnn_batch : option bool).   (* rnn_batch_training=, if given *)

Definition layer_cls (l : layer) : layer_class :=
  match l with MkLayer c _ _ _ _ _ _ _ => c end.
Definition layer_input (l : layer) : texpr :=
  match l with MkLayer _ x _ _ _ _ _ _ => x end.
Definition layer_n_in (l : layer) : Z :=
  match l with MkLayer _ _ n _ _ _ _ _ => n end.
Definition layer_n_h (l : layer) : Z :=
  match l with MkLayer _ _ _ n _ _ _ _ => n end.
Definition layer_extra (l : layer) : option Z :=
  match l with MkLayer _ _ _ _ e _ _ _ => e end.
Definition layer_act (l : layer) : option activation :=
  match l with MkLayer _ _ _ _ _ a _ _ => a end.
Definition layer_dropout (l : layer) : bool :=
  match l with MkLayer _ _ _ _ _ _ d _ => d end.

(** ** Shared variables *)

(** A parameter is a shared variable made by a layer constructor.  Every
    layer object makes its own, so a parameter is known by the layer that
    made it ([p_owner]: the position of the layer among the layers built,
    the output layer coming last) and its position in that layer's
    [params] list; [p_name] is its [name] attribute. *)
Record param : Type := MkParam { p_owner : nat; p_slot : nat; p_name : string }.

(** The shared variables of a network: the parameters, and for each the
    accumulator made at lines 184-186 (named 'updates'). *)
Inductive shared : Type :=
| SParam (p : param)
| SVel (p : param).

Global Instance param_eq_dec : EqDecision param.
Proof. solve_decision. Defined.

Global Instance param_countable : Countable param.
Proof.
  refine (inj_countable' (fun p => (p_owner p, p_slot p, p_name p))
                         (fun t => MkParam t.1.1 t.1.2 t.2) _).
  by intros [].
Defined.

Global Instance shared_eq_dec : EqDecision shared.
Proof. solve_decision. Defined.

Global Instance shared_countable : Countable shared.
Proof.
  refine (inj_countable' (fun s => match s with SParam p => inl p | SVel p => inr p end)
                         (fun t => match t with inl p => SParam p | inr p => SVel p end) _).
  by intros [].
Defined.

(** ** The tag lists of the constructor (lines 61-65) *)

Definition list_of_activations : list string :=
  ["TANH"; "SIGMOID"; "SOFTMAX"; "RELU"; "RESU"].
Definition BLSTM_variants : list string :=
  ["BLSTM"; "BSLSTM"; "BLSTME"; "BSLSTME"].
Definition Encoder_variants : list string :=
  ["RNNE"; "LSTME"; "BLSTME"; "SLSTME"; "TANHE"].
Definition Decoder_variants : list string :=
  ["RNND"; "LSTMD"; "SLSTMD"].

(** ** Arguments of the constructor (line 30), with their defaults *)

Record init_args : Type := MkArgs {
  a_n_in : Z;
  a_hidden_layer_size : list Z;
  a_n_out : Z;
  a_hidden_layer_type : list string;
  a_output_type : string;
  a_network_type : string;
  a_ed_type : string;
  a_optimizer : string;
  a_MLU_div_lengths : list Z;
  a_loss_function : string;
  a_rnn_batch_training : bool
}.

Definition default_args (n_in : Z) (sizes : list Z) (n_out : Z) (types : list string)
  : init_args :=
  MkArgs n_in sizes n_out types "LINEAR" "S2S" "HED" "sgd" [] "MMSE" false.

(** ** The network object and the state of the layer loop *)

Record network : Type := MkNetwork {
  n_in : Z;
  n_out : Z;
  n_layers : nat;
  optimizer : string;
  loss_function : string;
  rnn_batch_training : bool;
  has_d_f : bool;                      (* self.d and self.f exist (line 74) *)
  rnn_layers : list layer;
  params : list param;
  final_layer : layer;
  updates : gmap param shared;         (* self.updates *)
  finetune_cost : option texpr;        (* None: the attribute was never set *)
  errors : option texpr
}.

(** the local variables that the loop of lines 90-161 carries over *)
Record loop_state : Type := MkLoop {
  ls_prev_seg_end : sexpr;
  ls_encoder_count : nat;
  ls_rnn_layers : list layer;
  ls_params : list param
}.

(** what the block of lines 104-123 leaves in [layer_input], [input_size],
    [prev_seg_end] and [encoder_count] *)
Record wiring : Type := MkWiring {
  w_input : texpr;
  w_size : Z;
  w_prev_seg_end : sexpr;
  w_encoder_count : nat
}.

Definition nl : string := String (ascii_of_nat 10) EmptyString.

Definition hidden_type_message (tag : string) : string :=
  "This hidden layer type: " +:+ tag +:+ " is not supported right now! " +:+ nl
  +:+ " Please use one of the following: SLSTM, BSLSTM, TANH, SIGMOID" +:+ nl.

Definition output_type_message (tag : string) : string :=
  "This output layer type: " +:+ tag +:+ " is not supported right now! " +:+ nl
  +:+ " Please use one of the following: LINEAR, BSLSTM" +:+ nl.

Definition optimizer_message (name : string) : string :=
  "This optimizer: " +:+ name +:+ " is not supported right now! " +:+ nl
  +:+ " Please use one of the following: sgd, adam, rprop" +:+ nl.

(** [self.d], [self.f]: set only when [network_type == "S2S"] (lines 74-76) *)
Definition self_d (a : init_args) : result texpr :=
  if String.eqb (a_network_type a) "S2S" then Ok TD else Raise [] AttributeError.
Definition self_f (a : init_args) : result texpr :=
  if String.eqb (a_network_type a) "S2S" then Ok TF else Raise [] AttributeError.

(** lines 91-96 *)
Definition base_input_size (a : init_args) (i : nat) : result Z :=
  if (i =? 0)%nat then Ok (a_n_in a)
  else
    sz ← py_index (a_hidden_layer_size a) (Z.of_nat i - 1);
    ty ← py_index (a_hidden_layer_type a) (Z.of_nat i - 1);
    if str_in ty BLSTM_variants then
      sz2 ← py_index (a_hidden_layer_size a) (Z.of_nat i - 1);
      Ok (sz2 * 2)%Z
    else Ok sz.

(** lines 98-101 *)
Definition base_layer_input (layers : list layer) (i : nat) : result texpr :=
  if (i =? 0)%nat then Ok TX
  else l ← py_index layers (Z.of_nat i - 1); Ok (TOutput l).

(** lines 104-123; line 121 reads the two entries of [MLU_div] that line 119
    has just read.  The entries of [MLU_div] are Python ints and are taken
    as they are: what the tensor framework does with a slice bound outside
    its integer range is not modelled. *)
Definition seq2seq_mapping (a : init_args) (i : nat) (layer_input : texpr)
    (input_size : Z) (prev_seg_end : sexpr) (encoder_count : nat) : result wiring :=
  let MLU_div := a_MLU_div_lengths a in
  prev ← py_index (a_hidden_layer_type a) (Z.of_nat i - 1);
  if str_in prev Encoder_variants then
    dur_input ← self_d a;
    frame_feat_input ← self_f a;
    if String.eqb (a_ed_type a) "VED" then
      Ok (MkWiring (TConcat1 (TEncoded layer_input dur_input) frame_feat_input)
                   (input_size + 4) prev_seg_end encoder_count)
    else if String.eqb (a_ed_type a) "HED" then
      let seg_len := SFloorDiv (SSize layer_input) (SConst input_size) in
      let seg_dur_input := TSlice dur_input prev_seg_end (SAdd prev_seg_end seg_len) in
      let num_of_segs := SSum seg_dur_input in
      let encoded_output := TEncoded layer_input seg_dur_input in
      lo ← py_index MLU_div (Z.of_nat encoder_count);
      hi ← py_index MLU_div (Z.of_nat encoder_count + 1);
      let addfeat_input := TSlice2 frame_feat_input (SConst 0) num_of_segs lo hi in
      Ok (MkWiring (TConcat1 encoded_output addfeat_input)
                   (input_size + (hi - lo))
                   (SAdd prev_seg_end seg_len)
                   (encoder_count + 1))
    else Ok (MkWiring layer_input input_size prev_seg_end encoder_count)
  else Ok (MkWiring layer_input input_size prev_seg_end encoder_count).

(** a call [Cls(rng, layer_input, input_size, hidden_layer_size[i], ...)] *)
Definition construct (cls : layer_class) (x : texpr) (size_in : Z)
    (sizes : list Z) (i : nat) (extra : Z -> option Z)
    (act : option activation) (rb : option bool) : result layer :=
  n_h ← py_index sizes (Z.of_nat i);
  Ok (MkLayer cls x size_in n_h (extra n_h) act true rb).

(** lines 126-158: the layer constructor picked from the tag *)
Definition make_hidden_layer (a : init_args) (i : nat) (x : texpr) (size_in : Z)
  : result layer :=
  let sizes := a_hidden_layer_size a in
  let rb := Some (a_rnn_batch_training a) in
  let none := fun _ : Z => @None Z in
  let twice := fun n_h : Z => Some n_h in
  let with_n_out := fun _ : Z => Some (a_n_out a) in
  tag ← py_index (a_hidden_layer_type a) (Z.of_nat i);
  if str_in tag list_of_activations then
    construct GeneralLayer x size_in sizes i none (Some (ActName (lower tag))) None
  else if String.eqb tag "TANHE" || String.eqb tag "SIGMOIDE" then
    construct GeneralLayer x size_in sizes i none
              (Some (ActName (lower (drop_last tag)))) None
  else if String.eqb tag "TANH_LHUC" then
    construct SigmoidLayer_LHUC x size_in sizes i none (Some ActTanhFn) None
  else if String.eqb tag "SLSTM" || String.eqb tag "SLSTME" then
    construct SimplifiedLstm x size_in sizes i none None rb
  else if String.eqb tag "SLSTMD" then
    construct SimplifiedLstmDecoder x size_in sizes i with_n_out None rb
  else if String.eqb tag "SGRU" then
    construct SimplifiedGRU x size_in sizes i none None rb
  else if String.eqb tag "GRU" then
    construct GatedRecurrentUnit x size_in sizes i none None rb
  else if String.eqb tag "LSTM" || String.eqb tag "LSTME" then
    construct VanillaLstm x size_in sizes i none None rb
  else if String.eqb tag "LSTMD" then
    construct VanillaLstmDecoder x size_in sizes i with_n_out None rb
  else if String.eqb tag "BSLSTM" || String.eqb tag "BSLSTME" then
    construct BidirectionSLstm x size_in sizes i twice None rb
  else if String.eqb tag "BLSTM" || String.eqb tag "BLSTME" then
    construct BidirectionLstm x size_in sizes i twice None rb
  else if String.eqb tag "RNN" || String.eqb tag "RNNE" then
    construct VanillaRNN x size_in sizes i none None rb
  else if String.eqb tag "RNND" then
    construct VanillaRNNDecoder x size_in sizes i with_n_out None rb
  else if String.eqb tag "LSTM_LHUC" then
    construct VanillaLstm_LHUC x size_in sizes i none None rb
  else critical_exit (hidden_type_message tag).

(** [multiclass_hinge_loss] (lines 213-223), given the ranks of its two
    arguments *)
Definition multiclass_hinge_loss (ndim : texpr -> Z) (predictions targets : texpr)
    (delta : Z) : result texpr :=
  let num_cls := SShape1 predictions in
  targets' ←
    (if (ndim targets =? ndim predictions - 1)%Z then Ok (TToOneHot targets num_cls)
     else if negb (ndim targets =? ndim predictions)%Z then Raise [] TypeError
     else Ok targets);
  let corrects := TIndex predictions (TNonzero targets') in
  let rest := TReshape (TIndex predictions (TNonzero (TSub (TConst 1) targets')))
                       [SConst (-1); SSub num_cls (SConst 1)] in
  let rest := TMaxAxis1 rest in
  Ok (TMean (TRelu (TAdd (TSub rest corrects) (TConst delta)))).

(** [categorical_crossentropy_loss] (lines 210-211) *)
Definition categorical_crossentropy_loss (predictions targets : texpr) : texpr :=
  TMean (TCategoricalCrossentropy predictions targets).

(** the expression of lines 204-205 and 207-208 *)
Definition mean_squared_error (output target : texpr) : texpr :=
  TMean (TSumAxis1 (TPow (TSub output target) 2)).

(** lines 188-208: [finetune_cost] and [errors], if they are set *)
Definition make_loss (ndim : texpr -> Z) (a : init_args) (output : texpr)
  : result (option (texpr * texpr)) :=
  if String.eqb (a_loss_function a) "CCE" then
    Ok (Some (categorical_crossentropy_loss output TY,
              categorical_crossentropy_loss output TY))
  else if String.eqb (a_loss_function a) "Hinge" then
    c ← multiclass_hinge_loss ndim output TY 1;
    e ← multiclass_hinge_loss ndim output TY 1;
    Ok (Some (c, e))
  else if String.eqb (a_loss_function a) "MMSE" then
    if a_rnn_batch_training a then
      let y_mod := TReshape TY [SConst (-1); SConst (a_n_out a)] in
      let final_layer_output := TReshape output [SConst (-1); SConst (a_n_out a)] in
      let nonzero_rows := TNonzero (TAnyAxis1 y_mod) in
      let y_mod := TIndex y_mod nonzero_rows in
      let final_layer_output := TIndex final_layer_output nonzero_rows in
      Ok (Some (mean_squared_error final_layer_output y_mod,
                mean_squared_error final_layer_output y_mod))
    else
      Ok (Some (mean_squared_error output TY, mean_squared_error output TY))
  else Ok None.

(** lines 183-186: one accumulator per parameter *)
Definition make_updates (ps : list param) : gmap param shared :=
  foldl (fun m p => <[p := SVel p]> m) ∅ ps.

(** ** Compiled functions: what the code hands to [theano.function] *)

(** update expressions, built from the inputs of the compiled function
    ([lr] is input 0, [mom] is input 1), shared variables and gradients *)
Inductive uexpr : Type :=
| UInput (k : nat)
| UShared (s : shared)
| UGrad (cost : texpr) (p : param)     (* an entry of T.grad(cost, params) *)
| UMul (a b : uexpr)
| USub (a b : uexpr)
| UAdd (a b : uexpr).

Definition lr : uexpr := UInput 0.
Definition mom : uexpr := UInput 1.

(** the [givens] of a compiled function *)
Record givens (Row : Type) : Type := MkGivens {
  g_x : option (list Row);
  g_y : option (list Row);
  g_d : option (list Z);
  g_f : option (list Row);
  g_is_train : option Z
}.

Arguments MkGivens {Row} g_x g_y g_d g_f g_is_train.
Arguments g_x {Row} g.
Arguments g_y {Row} g.
Arguments g_d {Row} g.
Arguments g_f {Row} g.
Arguments g_is_train {Row} g.

(** [theano.function(inputs, outputs, updates=..., givens=...)] *)
Record theano_function (Row : Type) : Type := MkFunction {
  f_outputs : texpr;
  f_updates : gmap shared uexpr;
  f_givens : givens Row
}.

Arguments MkFunction {Row} f_outputs f_updates f_givens.
Arguments f_outputs {Row} t.
Arguments f_updates {Row} t.
Arguments f_givens {Row} t.

(** update expressions of [build_finetune_functions_S2SPF], which also
    multiplies by a Python int (line 388) *)
Inductive pexpr : Type :=
| PU (e : uexpr)
| PConst (z : Z)
| PMul (a b : pexpr)
| PSub (a b : pexpr)
| PAdd (a b : pexpr).

Record pf_function (Row : Type) : Type := MkPF {
  pf_outputs : texpr;
  pf_updates : gmap shared pexpr;
  pf_givens : givens Row
}.

Arguments MkPF {Row} pf_outputs pf_updates pf_givens.
Arguments pf_outputs {Row} p.
Arguments pf_updates {Row} p.
Arguments pf_givens {Row} p.

(** a call that does what a [result] says, or stops with [NameError] for a
    name that was never bound *)
Inductive pf_result (A : Type) : Type :=
| PFDone (r : result A)
| PFNameError (name : string).

Arguments PFDone {A} r.
Arguments PFNameError {A} name.

(** ** The inputs a graph reads *)

(** the symbolic inputs of a network: [self.x], [self.y], [self.d],
    [self.f] and [self.is_train] *)
Inductive input_var : Type := InX | InY | InD | InF | InIsTrain.

Definition input_vars : list input_var := [InX; InY; InD; InF; InIsTrain].

(** Whether the graph of a tensor contains an input.  The output of a layer
    is computed from the tensor the layer was given; whether it also
    contains the [training] argument is up to the layer class
    ([uses_training]), for a layer that was given one. *)
Fixpoint t_reads (uses_training : layer -> bool) (v : input_var) (t : texpr) : bool :=
  match t with
  | TX => match v with InX => true | _ => false end
  | TY => match v with InY => true | _ => false end
  | TD => match v with InD => true | _ => false end
  | TF => match v with InF => true | _ => false end
  | TConst _ => false
  | TOutput l => l_reads uses_training v l
  | TEncoded x d => t_reads uses_training v x || t_reads uses_training v d
  | TConcat1 a b => t_reads uses_training v a || t_reads uses_training v b
  | TSlice t lo hi =>
      t_reads uses_training v t || s_reads uses_training v lo || s_reads uses_training v hi
  | TSlice2 t rlo rhi _ _ =>
      t_reads uses_training v t || s_reads uses_training v rlo
      || s_reads uses_training v rhi
  | TSub a b => t_reads uses_training v a || t_reads uses_training v b
  | TAdd a b => t_reads uses_training v a || t_reads uses_training v b
  | TPow a _ => t_reads uses_training v a
  | TSumAxis1 a => t_reads uses_training v a
  | TMaxAxis1 a => t_reads uses_training v a
  | TAnyAxis1 a => t_reads uses_training v a
  | TMean a => t_reads uses_training v a
  | TNonzero a => t_reads uses_training v a
  | TIndex a idx => t_reads uses_training v a || t_reads uses_training v idx
  | TReshape a dims => t_reads uses_training v a || existsb (s_reads uses_training v) dims
  | TToOneHot a n => t_reads uses_training v a || s_reads uses_training v n
  | TRelu a => t_reads uses_training v a
  | TCategoricalCrossentropy p t => t_reads uses_training v p || t_reads uses_training v t
  end
with s_reads (uses_training : layer -> bool) (v : input_var) (s : sexpr) : bool :=
  match s with
  | SConst _ => false
  | SSize t => t_reads uses_training v t
  | SShape1 t => t_reads uses_training v t
  | SFloorDiv a b => s_reads uses_training v a || s_reads uses_training v b
  | SAdd a b => s_reads uses_training v a || s_reads uses_training v b
  | SSub a b => s_reads uses_training v a || s_reads uses_training v b
  | SSum t => t_reads uses_training v t
  end
with l_reads (uses_training : layer -> bool) (v : input_var) (l : layer) : bool :=
  match l with
  | MkLayer _ x _ _ _ _ dropout _ =>
      t_reads uses_training v x
      || match v with
         | InIsTrain => dropout && uses_training l
         | _ => false
         end
  end.

(** the graphs an update expression is made of: the gradient of a cost is
    a graph over the inputs of the cost *)
Fixpoint u_graphs (e : uexpr) : list texpr :=
  match e with
  | UInput _ | UShared _ => []
  | UGrad cost _ => [cost]
  | UMul a b | USub a b | UAdd a b => u_graphs a ++ u_graphs b
  end.

Fixpoint p_graphs (e : pexpr) : list texpr :=
  match e with
  | PU e => u_graphs e
  | PConst _ => []
  | PMul a b | PSub a b | PAdd a b => p_graphs a ++ p_graphs b
  end.

Definition is_bound {A : Type} (o : option A) : bool :=
  match o with
  | Some _ => true
  | None => false
  end.

(** the input has an entry in the [givens] *)
Definition given {Row : Type} (g : givens Row) (v : input_var) : bool :=
  match v with
  | InX => is_bound (g_x g)
  | InY => is_bound (g_y g)
  | InD => is_bound (g_d g)
  | InF => is_bound (g_f g)
  | InIsTrain => is_bound (g_is_train g)
  end.

(** the same arguments with another [output_type] *)
Definition with_output_type (a : init_args) (output_type : string) : init_args :=
  MkArgs (a_n_in a) (a_hidden_layer_size a) (a_n_out a) (a_hidden_layer_type a)
         output_type (a_network_type a) (a_ed_type a) (a_optimizer a)
         (a_MLU_div_lengths a) (a_loss_function a) (a_rnn_batch_training a).

(** ** An instance of the framework, on which the model runs *)

(** names for the shared variables of the layer classes: weights and a
    bias, and the scaling parameter 'c' of the LHUC layers *)
Definition demo_param_names (l : layer) : list string :=
  match layer_cls l with
  | GeneralLayer | LinearLayer => ["W"; "b"]
  | SigmoidLayer_LHUC => ["W"; "b"; "c"]
  | VanillaLstm_LHUC => ["W_xi"; "W_hi"; "b_i"; "c"]
  | _ => ["W_xi"; "W_hi"; "b_i"]
  end.

(** every tensor a matrix *)
Definition demo_ndim (t : texpr) : Z := 2.

(** layer classes that put nothing of their [training] argument in the
    graph, and layer classes that all do *)
Definition demo_uses_training (l : layer) : bool := false.
Definition demo_training_in_graph (l : layer) : bool := true.

(** Integer tensors of a single entry.  The value of a graph tells which
    inputs it reads and what they were bound to: the number of rows of [x],
    10 for each entry of [d], 100 for each row of [f], 1000 times [is_train]
    and 10000 for each row of [y].  Every gradient is 1. *)
Definition demo_eval (g : givens (list Z)) (st : gmap shared Z) (t : texpr) : Z :=
  let reads := fun v => t_reads demo_uses_training v t in
  let rows := fun (A : Type) (o : option (list A)) => Z.of_nat (length (default [] o)) in
  ((if reads InX then rows _ (g_x g) else 0)
   + (if reads InD then 10 * rows _ (g_d g) else 0)
   + (if reads InF then 100 * rows _ (g_f g) else 0)
   + (if reads InIsTrain then 1000 * default 0 (g_is_train g) else 0)
   + (if reads InY then 10000 * rows _ (g_y g) else 0))%Z.
Definition demo_grad (g : givens (list Z)) (st : gmap shared Z) (cost : texpr)
    (p : param) : Z := 1.
Definition demo_zeros (shape : unit) : Z := 0.
Definition demo_shape (v : Z) : unit := tt.
Definition demo_init_value (p : param) : Z := 3.
Definition demo_adam (net : network) (gparams : list uexpr) (learning_rate : uexpr)
  : gmap shared uexpr := ∅.
Definition demo_rprop (net : network) (gparams : list uexpr) : gmap shared uexpr := ∅.

(** a recurrent layer, then a recurrent layer fed through the hierarchical
    encoder, and a linear output layer *)
Definition demo_args : init_args :=
  MkArgs 3 [5; 7]%Z 2 ["LSTME"; "LSTM"] "LINEAR" "S2S" "HED" "sgd" [0; 4]%Z "MMSE" false.

Definition demo_layer0 : layer :=
  MkLayer VanillaLstm TX 3 5 None None true (Some false).
Definition demo_seg_dur_input : texpr :=
  TSlice TD (SConst 0)
         (SAdd (SConst 0) (SFloorDiv (SSize (TOutput demo_layer0)) (SConst 5))).
Definition demo_layer1 : layer :=
  MkLayer VanillaLstm
          (TConcat1 (TEncoded (TOutput demo_layer0) demo_seg_dur_input)
                    (TSlice2 TF (SConst 0) (SSum demo_seg_dur_input) 0 4))
          9 7 None None true (Some false).
Definition demo_final_layer : layer :=
  MkLayer LinearLayer (TOutput demo_layer1) 7 2 None None false None.
Definition demo_params : list param :=
  [MkParam 0 0 "W_xi"; MkParam 0 1 "W_hi"; MkParam 0 2 "b_i";
   MkParam 1 0 "W_xi"; MkParam 1 1 "W_hi"; MkParam 1 2 "b_i";
   MkParam 2 0 "W"; MkParam 2 1 "b"].
Definition demo_net : network :=
  MkNetwork 3 2 2 "sgd" "MMSE" false true
            [demo_layer0; demo_layer1] demo_params demo_final_layer
            (make_updates demo_params)
            (Some (mean_squared_error (TOutput demo_final_layer) TY))
            (Some (mean_squared_error (TOutput demo_final_layer) TY)).

(** two feedforward layers, the second tag unknown; two feedforward layers
    and an unknown output type; lists of different lengths *)
Definition demo_args_bad_tag : init_args :=
  default_args 3 [5; 7]%Z 2 ["TANH"; "FOO"].
Definition demo_args_bad_output : init_args :=
  MkArgs 3 [5; 7]%Z 2 ["TANH"; "TANH"] "FOO" "S2S" "HED" "sgd" [] "MMSE" false.
Definition demo_args_bad_lengths : init_args :=
  default_args 3 [5]%Z 2 ["TANH"; "TANH"].

(** an encoder tag in the last place; the same with an [ed_type] that is
    neither 'VED' nor 'HED' *)
Definition demo_args_last_encoder : init_args :=
  MkArgs 3 [5; 7]%Z 2 ["TANH"; "LSTME"] "LINEAR" "S2S" "HED" "sgd" [0; 4]%Z "MMSE" false.
Definition demo_args_no_ed : init_args :=
  MkArgs 3 [5; 7]%Z 2 ["TANH"; "LSTME"] "LINEAR" "S2S" "NONE" "sgd" [0; 4]%Z "MMSE" false.

(** all arguments at their defaults, an encoder tag before an unknown one *)
Definition demo_args_defaults : init_args :=
  default_args 3 [5; 5]%Z 2 ["LSTME"; "FOO"].

(** two feedforward layers and an unknown optimizer *)
Definition demo_args_bad_optimizer : init_args :=
  MkArgs 3 [5; 7]%Z 2 ["TANH"; "TANH"] "LINEAR" "DNN" "HED" "FOO" [] "MMSE" false.

(** three recurrent layers, the last two fed through the hierarchical
    encoder; two LHUC layers *)
Definition demo_args_two_encoders : init_args :=
  MkArgs 3 [5; 7; 9]%Z 2 ["LSTME"; "LSTME"; "LSTM"] "LINEAR" "S2S" "HED" "sgd"
         [0; 4; 6]%Z "MMSE" false.
Definition demo_args_lhuc : init_args :=
  MkArgs 3 [5; 7]%Z 2 ["TANH_LHUC"; "TANH_LHUC"] "LINEAR" "DNN" "HED" "sgd" []
         "MMSE" false.

(** shared values: every accumulator 5, every parameter 3 *)
Definition demo_store (ps : list param) : gmap shared Z :=
  foldr (fun p st => <[SVel p := 5%Z]> (<[SParam p := 3%Z]> st)) ∅ ps.

(** no hidden layer; an encoder tag without [self.d]; a decoder in the
    last place with an unknown output type; an unknown loss; 'adam' *)
Definition demo_args_empty : init_args := default_args 3 [] 2 [].
Definition demo_args_no_d : init_args :=
  MkArgs 3 [5; 7]%Z 2 ["LSTME"; "LSTM"] "LINEAR" "DNN" "HED" "sgd" [0; 4]%Z "MMSE" false.
Definition demo_args_decoder : init_args :=
  MkArgs 3 [5; 7]%Z 2 ["TANH"; "LSTMD"] "FOO" "DNN" "HED" "sgd" [] "MMSE" false.
Definition demo_args_no_loss : init_args :=
  MkArgs 3 [5; 7]%Z 2 ["TANH"; "TANH"] "LINEAR" "DNN" "HED" "sgd" [] "L1" false.
Definition demo_args_adam : init_args :=
  MkArgs 3 [5; 7]%Z 2 ["LSTME"; "LSTM"] "LINEAR" "S2S" "HED" "adam" [0; 4]%Z "MMSE" false.
Definition demo_of_int (z : Z) : Z := z.

(** a feedforward and a recurrent layer, no encoder tag; a hidden tag
    that is not supported before an encoder tag *)
Definition demo_args_plain : init_args :=
  MkArgs 3 [5; 7]%Z 2 ["TANH"; "LSTM"] "LINEAR" "S2S" "HED" "sgd" [] "MMSE" false.
Definition demo_args_plain_adam : init_args :=
  MkArgs 3 [5; 7]%Z 2 ["TANH"; "LSTM"] "LINEAR" "S2S" "HED" "adam" [] "MMSE" false.
Definition demo_args_bad_first : init_args :=
  default_args 3 [5; 5; 5]%Z 2 ["FOO"; "LSTME"; "TANH"].

Section Network.

(** The layer classes live in [layers/*.py]: the [name]s of the shared
    variables in the [params] list of a layer object, in order. *)
Variable layer_param_names : layer -> list string.

(** the rank ([ndim]) the tensor framework gives a symbolic tensor *)
Variable ndim : texpr -> Z.

(** [hidden_layer.params] of the layer built as number [owner] *)
Definition layer_params (owner : nat) (l : layer) : list param :=
  imap (fun j name => MkParam owner j name) (layer_param_names l).

(** one iteration of the loop of lines 90-161 *)
Definition layer_iter (a : init_args) (i : nat) (st : loop_state) : result loop_state :=
  input_size ← base_input_size a i;
  layer_input ← base_layer_input (ls_rnn_layers st) i;
  w ← seq2seq_mapping a i layer_input input_size
        (ls_prev_seg_end st) (ls_encoder_count st);
  hidden_layer ← make_hidden_layer a i (w_input w) (w_size w);
  Ok (MkLoop (w_prev_seg_end w) (w_encoder_count w)
             (ls_rnn_layers st ++ [hidden_layer])%list
             (ls_params st ++ layer_params i hidden_layer)%list).

Definition initial_loop_state : loop_state := MkLoop (SConst 0) 0 [] [].

(** the loop of lines 90-161 run for [i] in [range(n)] *)
Definition build_hidden_layers (a : init_args) (n : nat) : result loop_state :=
  for_each (layer_iter a) (seq 0 n) initial_loop_state.

(** lines 163-181: the output layer and the final [self.params] *)
Definition make_final_layer (a : init_args) (st : loop_state)
  : result (layer * list param) :=
  let layers := ls_rnn_layers st in
  sz ← py_index (a_hidden_layer_size a) (-1);
  ty ← py_index (a_hidden_layer_type a) (-1);
  input_size ← (if str_in ty BLSTM_variants then
                   sz2 ← py_index (a_hidden_layer_size a) (-1); Ok (sz2 * 2)%Z
                 else Ok sz);
  ty' ← py_index (a_hidden_layer_type a) (-1);
  if str_in ty' Decoder_variants then
    last ← py_index layers (-1);
    Ok (last, ls_params st)
  else
    let output_activation := lower (a_output_type a) in
    let finish := fun fl : layer =>
      Ok (fl, (ls_params st ++ layer_params (length layers) fl)%list) in
    if String.eqb output_activation "linear" then
      last ← py_index layers (-1);
      finish (MkLayer LinearLayer (TOutput last) input_size (a_n_out a)
                      None None false None)
    else if String.eqb output_activation "recurrent" then
      last ← py_index layers (-1);
      finish (MkLayer RecurrentOutputLayer (TOutput last) input_size (a_n_out a)
                      None None false (Some (a_rnn_batch_training a)))
    else if str_in (upper (a_output_type a)) list_of_activations then
      last ← py_index layers (-1);
      finish (MkLayer GeneralLayer (TOutput last) input_size (a_n_out a)
                      None (Some (ActName output_activation)) false None)
    else critical_exit (output_type_message (a_output_type a)).

(** [DeepEncoderDecoderNetwork.__init__] (lines 30-208) *)
Definition init (a : init_args) : result network :=
  let n := length (a_hidden_layer_size a) in
  if negb (n =? length (a_hidden_layer_type a))%nat then Raise [] AssertionError
  else
    st ← build_hidden_layers a n;
    fp ← make_final_layer a st;
    loss ← make_loss ndim a (TOutput fp.1);
    Ok (MkNetwork (a_n_in a) (a_n_out a) n (a_optimizer a) (a_loss_function a)
                  (a_rnn_batch_training a)
                  (String.eqb (a_network_type a) "S2S")
                  (ls_rnn_layers st) fp.2 fp.1
                  (make_updates fp.2)
                  (fst <$> loss) (snd <$> loss)).

(** ** Compiled functions (lines 226-301, 421-479) *)

(** The values of tensors, and what the tensor framework computes. *)
Variable V : Type.                       (* values of tensors *)
Variable Shape : Type.
Variable Row : Type.                     (* one row of an input array *)
Variables t_add t_sub t_mul : V -> V -> V.
Variable np_zeros : Shape -> V.          (* np.zeros(shape) *)
Variable get_shape : V -> Shape.         (* value.shape *)
Variable init_value : param -> V.        (* the value a layer gives its parameter *)

(** the value of a graph, and of the gradient of a cost with respect to a
    parameter, at the given inputs and the current shared values *)
Variable graph_eval : givens Row -> gmap shared V -> texpr -> V.
Variable grad_eval : givens Row -> gmap shared V -> texpr -> param -> V.

(** the update rules of [training_schemes/adam_v2.py] and
    [training_schemes/rprop.py] *)
Variable compile_ADAM_train_function : network -> list uexpr -> uexpr -> gmap shared uexpr.
Variable compile_RPROP_train_function : network -> list uexpr -> gmap shared uexpr.

(** whether a layer object puts the [training] argument it was given in
    the graph of its output *)
Variable uses_training : layer -> bool.

(** the graph reads an input that the [givens] leave unbound *)
Definition missing_input (g : givens Row) (t : texpr) : bool :=
  existsb (fun v => t_reads uses_training v t && negb (given g v)) input_vars.

(** [theano.function(inputs, outputs, updates=updates, givens=givens)]:
    [MissingInputError] when the graph of the outputs or of an update
    reads an input without an entry in [givens] *)
Definition theano_compile (outputs : texpr) (upds : gmap shared uexpr)
    (g : givens Row) : result (theano_function Row) :=
  if missing_input g outputs
     || existsb (fun su => existsb (missing_input g) (u_graphs su.2)) (map_to_list upds)
  then Raise [] MissingInputError
  else Ok (MkFunction outputs upds g).

Definition pf_compile (outputs : texpr) (upds : gmap shared pexpr)
    (g : givens Row) : result (pf_function Row) :=
  if missing_input g outputs
     || existsb (fun su => existsb (missing_input g) (p_graphs su.2)) (map_to_list upds)
  then Raise [] MissingInputError
  else Ok (MkPF outputs upds g).

Fixpoint ueval (args : list V) (g : givens Row) (st : gmap shared V) (e : uexpr)
  : option V :=
  match e with
  | UInput k => args !! k
  | UShared s => st !! s
  | UGrad cost p => Some (grad_eval g st cost p)
  | UMul a b => x ← ueval args g st a; y ← ueval args g st b; Some (t_mul x y)
  | USub a b => x ← ueval args g st a; y ← ueval args g st b; Some (t_sub x y)
  | UAdd a b => x ← ueval args g st a; y ← ueval args g st b; Some (t_add x y)
  end.

(** One call of a compiled function: the output, and the shared values
    after it.  Every update expression is evaluated at the shared values
    the call started with. *)
Definition call (fn : theano_function Row) (args : list V) (st : gmap shared V)
  : V * gmap shared V :=
  (graph_eval (f_givens fn) st (f_outputs fn),
   omap (ueval args (f_givens fn) st) (f_updates fn) ∪ st).

(** the shared values when the constructor returns: the parameters as
    their layers made them, the accumulators as lines 184-186 make them *)
Definition allocate_params (ps : list param) : gmap shared V :=
  foldl (fun st p => <[SParam p := init_value p]> st) ∅ ps.

Definition allocate_updates (ps : list param) (st0 : gmap shared V) : gmap shared V :=
  foldl (fun st p => match st !! SParam p with
                     | Some v => <[SVel p := np_zeros (get_shape v)]> st
                     | None => st
                     end) st0 ps.

Definition initial_store (net : network) : gmap shared V :=
  allocate_updates (params net) (allocate_params (params net)).

(** reading an attribute that may never have been set *)
Definition attribute {A : Type} (o : option A) : result A :=
  match o with
  | Some a => Ok a
  | None => Raise [] AttributeError
  end.

(** lines 261-263 *)
Definition count_freeze_params (net : network) (layer_index : nat) : result nat :=
  for_each (fun layer freeze_params =>
              l ← py_index (rnn_layers net) (Z.of_nat layer);
              Ok (freeze_params + length (layer_params layer l))%nat)
           (seq 0 layer_index) 0%nat.

(** [mom * weight_update - lr * gparam] (line 272) *)
Definition sgd_upd (weight_update : shared) (gparam : uexpr) : uexpr :=
  USub (UMul mom (UShared weight_update)) (UMul lr gparam).

(** one iteration of the loop of lines 270-277 *)
Definition sgd_iter (net : network) (freeze_params : nat)
    (item : nat * (param * uexpr)) (upds : gmap shared uexpr)
  : result (gmap shared uexpr) :=
  let i := item.1 in
  let p := item.2.1 in
  let gparam := item.2.2 in
  weight_update ← match updates net !! p with
                   | Some w => Ok w
                   | None => Raise [] KeyError
                   end;
  let upd := sgd_upd weight_update gparam in
  let upds := <[weight_update := upd]> upds in
  Ok (if (freeze_params <=? i)%nat
      then <[SParam p := UAdd (UShared (SParam p)) upd]> upds
      else upds).

(** [enumerate(zip(params, gparams))] *)
Definition enumerate_zip (ps : list param) (gparams : list uexpr)
  : list (nat * (param * uexpr)) :=
  zip (seq 0 (length (zip ps gparams))) (zip ps gparams).

(** the parameters picked at lines 248-258 *)
Definition selected_params (net : network) (use_lhuc : bool) : list param :=
  if use_lhuc then filter (fun p => p_name p = "c") (params net) else params net.

(** [build_finetune_functions] (lines 226-301) *)
Definition build_finetune_functions (net : network)
    (train_shared_xy valid_shared_xy : list Row * list Row)
    (use_lhuc : bool) (layer_index : nat)
  : result (theano_function Row * theano_function Row) :=
  let train_set_x := train_shared_xy.1 in
  let train_set_y := train_shared_xy.2 in
  let valid_set_x := valid_shared_xy.1 in
  let valid_set_y := valid_shared_xy.2 in
  cost ← attribute (finetune_cost net);
  let ps := selected_params net use_lhuc in
  let gparams := map (UGrad cost) ps in
  freeze_params ← count_freeze_params net layer_index;
  upds ←
    (if String.eqb (optimizer net) "sgd" then
       for_each (sgd_iter net freeze_params) (enumerate_zip ps gparams) ∅
     else if String.eqb (optimizer net) "adam" then
       Ok (compile_ADAM_train_function net gparams lr)
     else if String.eqb (optimizer net) "rprop" then
       Ok (compile_RPROP_train_function net gparams)
     else critical_exit (optimizer_message (optimizer net)));
  errs ← attribute (errors net);
  train_model ←
    theano_compile errs upds
      (MkGivens (Some train_set_x) (Some train_set_y) None None (Some 1%Z));
  valid_model ←
    theano_compile errs ∅
      (MkGivens (Some valid_set_x) (Some valid_set_y) None None (Some 0%Z));
  Ok (train_model, valid_model).

(** [a[lo:hi]] for [0 <= lo], [0 <= hi] *)
Definition py_slice {A : Type} (l : list A) (lo hi : nat) : list A :=
  take (hi - lo) (drop lo l).

(** [self.d], [self.f] of a built network *)
Definition net_d_f (net : network) : result unit :=
  if has_d_f net then Ok tt else Raise [] AttributeError.

(** [parameter_prediction] (lines 421-438): the prediction and the shared
    values after the call *)
Definition parameter_prediction (net : network) (st : gmap shared V)
    (test_set_x : list Row) : result (V * gmap shared V) :=
  let n_test_set_x := length test_set_x in
  test_out ←
    theano_compile (TOutput (final_layer net)) ∅
      (MkGivens (Some (py_slice test_set_x 0 n_test_set_x)) None None None (Some 0%Z));
  Ok (call test_out [] st).

(** [parameter_prediction_S2S] (lines 440-458) *)
Definition parameter_prediction_S2S (net : network) (st : gmap shared V)
    (test_set_x : list Row) (test_set_d : list Z) : result (V * gmap shared V) :=
  let n_test_set_x := length test_set_x in
  _ ← net_d_f net;
  test_out ←
    theano_compile (TOutput (final_layer net)) ∅
      (MkGivens (Some (py_slice test_set_x 0 n_test_set_x))
                None
                (Some (py_slice test_set_d 0 n_test_set_x))
                None (Some 0%Z));
  Ok (call test_out [] st).

(** [parameter_prediction_S2SPF] (lines 460-479) *)
Definition parameter_prediction_S2SPF (net : network) (st : gmap shared V)
    (test_set_x : list Row) (test_set_d : list Z) (test_set_f : list Row)
  : result (V * gmap shared V) :=
  let n_test_set_x := length test_set_x in
  let num_of_frames := foldr Z.add 0%Z test_set_d in
  _ ← net_d_f net;
  test_out ←
    theano_compile (TOutput (final_layer net)) ∅
      (MkGivens (Some (py_slice test_set_x 0 n_test_set_x))
                None (Some test_set_d) (Some test_set_f) (Some 0%Z));
  Ok (call test_out [] st).

(** ** The other compiled functions (lines 303-419, 481-490, 526-542) *)

(** one iteration of the loop of lines 328-332 *)
Definition s2s_iter (net : network) (item : param * uexpr)
    (upds : gmap shared uexpr) : result (gmap shared uexpr) :=
  let p := item.1 in
  let gparam := item.2 in
  weight_update ← match updates net !! p with
                   | Some w => Ok w
                   | None => Raise [] KeyError
                   end;
  let upd := sgd_upd weight_update gparam in
  Ok (<[SParam p := UAdd (UShared (SParam p)) upd]> (<[weight_update := upd]> upds)).

(** [build_finetune_functions_S2S] (lines 303-350) *)
Definition build_finetune_functions_S2S (net : network)
    (train_shared_xyd valid_shared_xyd : list Row * list Row * list Z)
  : result (theano_function Row * theano_function Row) :=
  let train_set_x := train_shared_xyd.1.1 in
  let train_set_y := train_shared_xyd.1.2 in
  let train_set_d := train_shared_xyd.2 in
  let valid_set_x := valid_shared_xyd.1.1 in
  let valid_set_y := valid_shared_xyd.1.2 in
  let valid_set_d := valid_shared_xyd.2 in
  cost ← attribute (finetune_cost net);
  let gparams := map (UGrad cost) (params net) in
  upds ← for_each (s2s_iter net) (zip (params net) gparams) ∅;
  errs ← attribute (errors net);
  _ ← net_d_f net;
  train_model ←
    theano_compile errs upds
      (MkGivens (Some train_set_x) (Some train_set_y) (Some train_set_d)
                None (Some 1%Z));
  valid_model ←
    theano_compile errs ∅
      (MkGivens (Some valid_set_x) (Some valid_set_y) (Some valid_set_d)
                None (Some 0%Z));
  Ok (train_model, valid_model).

(** lines 385-388: the update of an accumulator, with the learning rate
    doubled before position [encoder_params] *)
Definition pf_upd (doubled : bool) (weight_update : shared) (gparam : uexpr) : pexpr :=
  PSub (PMul (PU mom) (PU (UShared weight_update)))
       (PMul (if doubled then PMul (PU lr) (PConst 2) else PU lr) (PU gparam)).

(** one iteration of the loop of lines 383-390 *)
Definition pf_iter (net : network) (encoder_params : nat)
    (item : nat * (param * uexpr)) (upds : gmap shared pexpr)
  : result (gmap shared pexpr) :=
  let i := item.1 in
  let p := item.2.1 in
  let gparam := item.2.2 in
  weight_update ← match updates net !! p with
                   | Some w => Ok w
                   | None => Raise [] KeyError
                   end;
  let upd := pf_upd (negb (encoder_params <=? i)%nat) weight_update gparam in
  Ok (<[SParam p := PAdd (PU (UShared (SParam p))) upd]> (<[weight_update := upd]> upds)).

(** [build_finetune_functions_S2SPF] (lines 352-419); no [logger] is bound
    in this method *)
Definition build_finetune_functions_S2SPF (net : network)
    (train_shared_xydf valid_shared_xydf : list Row * list Row * list Z * list Row)
    (layer_index : nat)
  : pf_result (pf_function Row * pf_function Row) :=
  let train_set_x := train_shared_xydf.1.1.1 in
  let train_set_y := train_shared_xydf.1.1.2 in
  let train_set_d := train_shared_xydf.1.2 in
  let train_set_f := train_shared_xydf.2 in
  let valid_set_x := valid_shared_xydf.1.1.1 in
  let valid_set_y := valid_shared_xydf.1.1.2 in
  let valid_set_d := valid_shared_xydf.1.2 in
  let valid_set_f := valid_shared_xydf.2 in
  let functions := fun upds : gmap shared pexpr =>
    errs ← attribute (errors net);
    _ ← net_d_f net;
    train_model ←
      pf_compile errs upds
        (MkGivens (Some train_set_x) (Some train_set_y) (Some train_set_d)
                  (Some train_set_f) (Some 1%Z));
    valid_model ←
      pf_compile errs ∅
        (MkGivens (Some valid_set_x) (Some valid_set_y) (Some valid_set_d)
                  (Some valid_set_f) (Some 0%Z));
    Ok (train_model, valid_model) in
  match (cost ← attribute (finetune_cost net);
         encoder_params ← count_freeze_params net layer_index;
         Ok (cost, encoder_params)) with
  | Raise msgs e => PFDone (Raise msgs e)
  | Ok ce =>
      let gparams := map (UGrad ce.1) (params net) in
      if String.eqb (optimizer net) "sgd" then
        PFDone (upds ← for_each (pf_iter net ce.2)
                                (enumerate_zip (params net) gparams) ∅;
                functions upds)
      else if String.eqb (optimizer net) "adam" then
        PFDone (functions (PU <$> compile_ADAM_train_function net gparams lr))
      else if String.eqb (optimizer net) "rprop" then
        PFDone (functions (PU <$> compile_RPROP_train_function net gparams))
      else PFNameError "logger"
  end.

(** [of_int] gives a Python int as a tensor value *)
Fixpoint peval (of_int : Z -> V) (args : list V) (g : givens Row)
    (st : gmap shared V) (e : pexpr) : option V :=
  match e with
  | PU e => ueval args g st e
  | PConst z => Some (of_int z)
  | PMul a b =>
      x ← peval of_int args g st a; y ← peval of_int args g st b; Some (t_mul x y)
  | PSub a b =>
      x ← peval of_int args g st a; y ← peval of_int args g st b; Some (t_sub x y)
  | PAdd a b =>
      x ← peval of_int args g st a; y ← peval of_int args g st b; Some (t_add x y)
  end.

(** one call of a function compiled by [build_finetune_functions_S2SPF] *)
Definition call_pf (of_int : Z -> V) (fn : pf_function Row) (args : list V)
    (st : gmap shared V) : V * gmap shared V :=
  (graph_eval (pf_givens fn) st (pf_outputs fn),
   omap (peval of_int args (pf_givens fn) st) (pf_updates fn) ∪ st).

(** [parameter_prediction_CTC] (lines 481-490): [is_train] is not bound *)
Definition parameter_prediction_CTC (net : network) (st : gmap shared V)
    (test_set_x : list Row) : result (V * gmap shared V) :=
  let n_test_set_x := length test_set_x in
  last_layer ← py_index (rnn_layers net) (-1);
  test_out ←
    theano_compile (TOutput last_layer) ∅
      (MkGivens (Some (py_slice test_set_x 0 n_test_set_x)) None None None None);
  Ok (call test_out [] st).

(** [generate_hidden_layer] (lines 526-542) *)
Definition generate_hidden_layer (net : network) (st : gmap shared V)
    (test_set_x : list Row) (bn_layer_index : Z) : result (V * gmap shared V) :=
  l ← py_index (rnn_layers net) bn_layer_index;
  test_out ←
    theano_compile (TOutput l) ∅
      (MkGivens (Some test_set_x) None None None (Some 0%Z));
  Ok (call test_out [] st).

(** ** What the claims are stated with *)

(** the tags the chain of tests of lines 126-155 accepts *)
Definition supported_tags : list string :=
  ["TANH"; "SIGMOID"; "SOFTMAX"; "RELU"; "RESU"; "TANHE"; "SIGMOIDE"; "TANH_LHUC";
   "SLSTM"; "SLSTME"; "SLSTMD"; "SGRU"; "GRU"; "LSTM"; "LSTME"; "LSTMD";
   "BSLSTM"; "BSLSTME"; "BLSTM"; "BLSTME"; "RNN"; "RNNE"; "RNND"; "LSTM_LHUC"].

(** The table of tags and layer classes, as the specification lists it. *)
Definition spec_tag_table : list (string * layer_class) :=
  [("TANH", GeneralLayer); ("SIGMOID", GeneralLayer); ("SOFTMAX", GeneralLayer);
   ("RELU", GeneralLayer); ("RESU", GeneralLayer);
   ("SLSTM", SimplifiedLstm); ("SLSTME", SimplifiedLstm);
   ("SLSTMD", SimplifiedLstmDecoder);
   ("SGRU", SimplifiedGRU);
   ("GRU", GatedRecurrentUnit);
   ("LSTM", VanillaLstm); ("LSTME", VanillaLstm);
   ("LSTMD", VanillaLstmDecoder);
   ("BSLSTM", BidirectionSLstm); ("BSLSTME", BidirectionSLstm);
   ("BLSTM", BidirectionLstm); ("BLSTME", BidirectionLstm);
   ("RNN", VanillaRNN); ("RNNE", VanillaRNN);
   ("RNND", VanillaRNNDecoder);
   ("TANH_LHUC", SigmoidLayer_LHUC);
   ("LSTM_LHUC", VanillaLstm_LHUC)].

Fixpoint assoc {B : Type} (k : string) (l : list (string * B)) : option B :=
  match l with
  | [] => None
  | (k', v) :: rest => if String.eqb k k' then Some v else assoc k rest
  end.

Definition spec_layer_class (tag : string) : option layer_class :=
  assoc tag spec_tag_table.

(** iteration [i] of the layer loop finds an encoder tag at line 104 *)
Definition reads_encoder (a : init_args) (i : nat) : bool :=
  match py_index (a_hidden_layer_type a) (Z.of_nat i - 1) with
  | Ok prev => str_in prev Encoder_variants
  | Raise _ _ => false
  end.

(** the number of iterations before iteration [k] that found one *)
Definition encoder_hits (a : init_args) (k : nat) : nat :=
  length (filter (fun i => reads_encoder a i = true) (seq 0 k)).

(** the block of lines 104-123 raises nothing in any iteration *)
Definition wiring_safe (a : init_args) : Prop :=
  let n := length (a_hidden_layer_type a) in
  encoder_hits a n = 0%nat \/
  (a_network_type a = "S2S" /\
   (a_ed_type a = "HED" -> (encoder_hits a n < length (a_MLU_div_lengths a))%nat)).

(** the block of lines 104-123 raises nothing in the first [k] iterations *)
Definition wiring_safe_upto (a : init_args) (k : nat) : Prop :=
  encoder_hits a k = 0%nat \/
  (a_network_type a = "S2S" /\
   (a_ed_type a = "HED" -> (encoder_hits a k < length (a_MLU_div_lengths a))%nat)).

(** one of the first [k] iterations wired an encoding of lines 109-123 in:
    its encoder test held and [ed_type] is 'VED' or 'HED' *)
Definition encoded_before (a : init_args) (k : nat) : bool :=
  (0 <? encoder_hits a k)%nat
  && (String.eqb (a_ed_type a) "VED" || String.eqb (a_ed_type a) "HED").

(** the same for the whole loop: the graph of the network then reads
    [self.d] and [self.f] *)
Definition encoded (a : init_args) : bool :=
  encoded_before a (length (a_hidden_layer_type a)).

(** what the output of the layer at position [i] reads *)
Definition output_reads (a : init_args) (layers : list layer) (i : nat) (t : texpr)
  : Prop :=
  t_reads uses_training InX t = true /\
  t_reads uses_training InY t = false /\
  t_reads uses_training InD t = encoded_before a i /\
  t_reads uses_training InF t = encoded_before a i /\
  t_reads uses_training InIsTrain t = existsb uses_training (take i layers).

(** every gradient in the update expressions is a gradient of [cost] *)
Definition gradients_of (cost : texpr) (m : gmap shared uexpr) : Prop :=
  forall s e t, m !! s = Some e -> t ∈ u_graphs e -> t = cost.

(** the output layer can be built: lines 167-176 *)
Definition output_supported (a : init_args) : Prop :=
  (exists tag, last (a_hidden_layer_type a) = Some tag /\
               str_in tag Decoder_variants = true) \/
  lower (a_output_type a) = "linear" \/
  lower (a_output_type a) = "recurrent" \/
  str_in (upper (a_output_type a)) list_of_activations = true.

(** [multiclass_hinge_loss] accepts the ranks of the output of the final
    layer and of [y] *)
Definition hinge_ranks_accepted (a : init_args) : Prop :=
  a_loss_function a = "Hinge" ->
  forall st fp,
    build_hidden_layers a (length (a_hidden_layer_type a)) = Ok st ->
    make_final_layer a st = Ok fp ->
    ndim TY = ndim (TOutput fp.1) \/ ndim TY = (ndim (TOutput fp.1) - 1)%Z.

(** the pieces of lines 115-120, named *)
Definition hed_seg_len (x : texpr) (size_in : Z) : sexpr :=
  SFloorDiv (SSize x) (SConst size_in).
Definition hed_dur_slice (x : texpr) (size_in : Z) (prev_seg_end : sexpr) : texpr :=
  TSlice TD prev_seg_end (SAdd prev_seg_end (hed_seg_len x size_in)).
Definition hed_input (x : texpr) (size_in : Z) (prev_seg_end : sexpr) (lo hi : Z)
  : texpr :=
  TConcat1 (TEncoded x (hed_dur_slice x size_in prev_seg_end))
           (TSlice2 TF (SConst 0) (SSum (hed_dur_slice x size_in prev_seg_end)) lo hi).
Definition ved_input (x : texpr) : texpr :=
  TConcat1 (TEncoded x TD) TF.

(** The declared input width of layer [i] as the specification words it:
    [hidden_layer_size[i-1]] for [i >= 1] ([n_in] for [i = 0]), doubled when
    layer [i-1] is a bidirectional variant. *)
Definition spec_input_width (a : init_args) (i : nat) : option Z :=
  match i with
  | O => Some (a_n_in a)
  | S j =>
      sz ← a_hidden_layer_size a !! j;
      ty ← a_hidden_layer_type a !! j;
      Some (if str_in ty BLSTM_variants then (sz * 2)%Z else sz)
  end.

(** The input of layer [i] before any encoding: the network input for
    layer 0, the output of layer [i-1] otherwise. *)
Definition spec_base_input (layers : list layer) (i : nat) : option texpr :=
  match i with
  | O => Some TX
  | S j => TOutput <$> layers !! j
  end.

(** arguments with which the constructor returns a network *)
Definition well_formed (a : init_args) : Prop :=
  length (a_hidden_layer_size a) = length (a_hidden_layer_type a) /\
  a_hidden_layer_type a <> [] /\
  (forall tag, tag ∈ a_hidden_layer_type a -> tag ∈ supported_tags) /\
  wiring_safe a /\
  output_supported a /\
  hinge_ranks_accepted a.

(** every way [r] can stop satisfies [P] *)
Definition raises_only {A : Type} (P : exn -> Prop) (r : result A) : Prop :=
  forall msgs e, r = Raise msgs e -> P e.

(** An encoder block of the 'HED' kind, read off the input of a layer: the
    bounds of the slice of [d] and the column range of [f]. *)
Record hed_block : Type := MkBlock {
  b_start : sexpr;
  b_end : sexpr;
  b_lo : Z;
  b_hi : Z
}.

Definition block_of (l : layer) : option hed_block :=
  match layer_input l with
  | TConcat1 (TEncoded _ (TSlice TD p q)) (TSlice2 TF _ _ lo hi) =>
      Some (MkBlock p q lo hi)
  | _ => None
  end.

(** the encoder blocks of a list of layers, in the order of the layers *)
Definition hed_blocks (layers : list layer) : list hed_block :=
  omap block_of layers.

(** where the slice after a block starts; 0 when there is no block before *)
Definition end_of (b : option hed_block) : sexpr :=
  match b with
  | Some b => b_end b
  | None => SConst 0
  end.

Definition block_before (bs : list hed_block) (k : nat) : option hed_block :=
  match k with
  | O => None
  | S k' => bs !! k'
  end.

(** the value of [freeze_params] after lines 261-263 *)
Definition freeze_count (net : network) (layer_index : nat) : nat :=
  length (concat (imap layer_params (take layer_index (rnn_layers net)))).

(** The mean multiclass hinge loss with margin [delta], as the
    specification words it: the mean over the rows of
    [relu(max of the scores of the other classes - score of the target class
    + delta)], for one-hot [targets]. *)
Definition spec_hinge_loss (predictions targets : texpr) (delta : Z) : texpr :=
  let target_score := TIndex predictions (TNonzero targets) in
  let other_scores :=
    TReshape (TIndex predictions (TNonzero (TSub (TConst 1) targets)))
             [SConst (-1); SSub (SShape1 predictions) (SConst 1)] in
  TMean (TRelu (TAdd (TSub (TMaxAxis1 other_scores) target_score) (TConst delta))).

(** the mean over frames of the sum over output dimensions of the squared
    difference, and the mean categorical cross-entropy *)
Definition spec_mmse (output target : texpr) : texpr :=
  TMean (TSumAxis1 (TPow (TSub output target) 2)).
Definition spec_cce (output target : texpr) : texpr :=
  TMean (TCategoricalCrossentropy output target).

(** the two update expressions that the loop of lines 270-277 makes for a
    parameter: the new accumulator, and the new value of the parameter *)
Definition velocity_update (cost : texpr) (p : param) : uexpr :=
  sgd_upd (SVel p) (UGrad cost p).
Definition weight_update (cost : texpr) (p : param) : uexpr :=
  UAdd (UShared (SParam p)) (velocity_update cost p).

(** [mom * v - lr * gradient] on values *)
Definition new_velocity (lr_v mom_v v gradient : V) : V :=
  t_sub (t_mul mom_v v) (t_mul lr_v gradient).

(** what a successful pick at lines 126-158 has built *)
Definition picked (tag : string) (x : texpr) (size_in n_h : Z) (l : layer) : Prop :=
  tag ∈ supported_tags /\
  layer_input l = x /\ layer_n_in l = size_in /\ layer_n_h l = n_h /\
  (spec_layer_class tag = Some (layer_cls l) \/
   (tag ∈ ["TANHE"; "SIGMOIDE"] /\ layer_cls l = GeneralLayer /\
    layer_act l = Some (ActName (lower (drop_last tag))))) /\
  (tag ∈ list_of_activations -> layer_act l = Some (ActName (lower tag))).

(** what the blocks built so far and the loop variables have to do with
    each other *)
Definition blocks_chained (a : init_args) (st : loop_state) : Prop :=
  let bs := hed_blocks (ls_rnn_layers st) in
  ls_prev_seg_end st = end_of (last bs) /\
  length bs = ls_encoder_count st /\
  forall k b, bs !! k = Some b ->
    a_MLU_div_lengths a !! k = Some (b_lo b) /\
    a_MLU_div_lengths a !! (k + 1)%nat = Some (b_hi b) /\
    b_start b = end_of (block_before bs k).

(** the exceptions that the code after the assertion can stop with *)
Definition after_assertion (e : exn) : Prop :=
  e = IndexError \/ e = AttributeError \/ e = TypeError \/ e = SystemExit 1.

(** a call logs a critical message exactly when it ends the process, with
    exit code 1 *)
Definition logs_only_at_exit {A : Type} (r : result A) : Prop :=
  forall msgs e, r = Raise msgs e ->
    (msgs = [] /\ forall code, e <> SystemExit code) \/
    (exists msg, msgs = [msg] /\ e = SystemExit 1).

(** ** Results, indices and loops *)

Lemma bind_Ok {A B : Type} (r : result A) (k : A -> result B) (b : B) :
  r ≫= k = Ok b <-> exists x, r = Ok x /\ k x = Ok b.
Proof.
  destruct r as [x|msgs e]; cbn; split.
  - intros H. exists x. auto.
  - intros (y & Hy & Hk). congruence.
  - discriminate.
  - intros (y & Hy & _). discriminate.
Qed.

Lemma bind_Raise {A B : Type} (r : result A) (k : A -> result B) msgs e :
  r = Raise msgs e -> r ≫= k = Raise msgs e.
Proof. intros ->. reflexivity. Qed.

Lemma bind_Ok_eq {A B : Type} (r : result A) (k : A -> result B) (x : A) :
  r = Ok x -> r ≫= k = k x.
Proof. intros ->. reflexivity. Qed.

Lemma str_in_elem_of (s : string) (l : list string) :
  str_in s l = true <-> s ∈ l.
Proof.
  unfold str_in. rewrite existsb_exists. split.
  - intros (x & Hx & Heq). apply String.eqb_eq in Heq. subst.
    by apply list_elem_of_In.
  - intros Hin. exists s. split; [by apply list_elem_of_In | apply String.eqb_refl].
Qed.

Lemma py_index_nat {A : Type} (l : list A) (i : nat) (x : A) :
  py_index l (Z.of_nat i) = Ok x <-> l !! i = Some x.
Proof.
  unfold py_index.
  destruct (Z.ltb_spec (Z.of_nat i) 0) as [Hlt|Hge]; [lia|].
  destruct (Z.ltb_spec (Z.of_nat i) 0); [lia|].
  rewrite Nat2Z.id. destruct (l !! i); split; intros ?; congruence.
Qed.

Lemma py_index_pred {A : Type} (l : list A) (i : nat) :
  py_index l (Z.of_nat (S i) - 1) = py_index l (Z.of_nat i).
Proof. f_equal. lia. Qed.

Lemma py_index_minus_one {A : Type} (l : list A) (x : A) :
  py_index l (-1) = Ok x <-> last l = Some x.
Proof.
  unfold py_index. cbn [Z.ltb Z.compare].
  rewrite last_lookup.
  destruct l as [|y l'].
  - cbn. split; discriminate.
  - destruct (Z.ltb_spec (-1 + Z.of_nat (length (y :: l'))) 0) as [Hlt|Hge].
    + cbn [length] in Hlt. lia.
    + replace (Z.to_nat (-1 + Z.of_nat (length (y :: l'))))
        with (pred (length (y :: l'))) by (cbn [length]; lia).
      destruct ((y :: l') !! pred (length (y :: l'))); split; congruence.
Qed.

Lemma for_each_app {I S : Type} (body : I -> S -> result S) (l1 l2 : list I) (st : S) :
  for_each body (l1 ++ l2) st = for_each body l1 st ≫= for_each body l2.
Proof.
  revert st. induction l1 as [|i l1 IH]; intros st; cbn; [reflexivity|].
  destruct (body i st) as [st'|msgs e]; cbn; [apply IH | reflexivity].
Qed.

Lemma build_hidden_layers_S (a : init_args) (k : nat) :
  build_hidden_layers a (S k) = build_hidden_layers a k ≫= layer_iter a k.
Proof.
  unfold build_hidden_layers. rewrite seq_S, for_each_app. cbn.
  destruct (for_each (layer_iter a) (seq 0 k) initial_loop_state) as [st|]; cbn;
    [|reflexivity].
  destruct (layer_iter a k st); reflexivity.
Qed.

(** ** One iteration of the layer loop *)

Lemma construct_Ok cls x size_in sizes i extra act rb (l : layer) :
  construct cls x size_in sizes i extra act rb = Ok l <->
  exists n_h, sizes !! i = Some n_h /\
              l = MkLayer cls x size_in n_h (extra n_h) act true rb.
Proof.
  unfold construct. rewrite bind_Ok. split.
  - intros (n_h & Hn & Hl). apply py_index_nat in Hn. exists n_h. split; congruence.
  - intros (n_h & Hn & ->). exists n_h. by rewrite py_index_nat.
Qed.

Ltac tag_facts :=
  repeat match goal with
    | H : str_in _ ?l = true |- _ => unfold l in H; cbn [str_in existsb] in H
    | H : (_ || _) = true |- _ => apply orb_prop in H; destruct H
    | H : String.eqb _ _ = true |- _ => apply String.eqb_eq in H; subst
    | H : false = true |- _ => discriminate H
    end.

Ltac split_test H :=
  match type of H with
  | (if ?c then _ else _) = _ => let E := fresh "E" in destruct c eqn:E
  end.

Lemma make_hidden_layer_Ok (a : init_args) i x size_in (l : layer) :
  make_hidden_layer a i x size_in = Ok l ->
  exists tag n_h,
    a_hidden_layer_type a !! i = Some tag /\
    a_hidden_layer_size a !! i = Some n_h /\
    picked tag x size_in n_h l.
Proof.
  unfold make_hidden_layer. intros H.
  apply bind_Ok in H as (tag & Htag & H). apply py_index_nat in Htag.
  exists tag.
  repeat (split_test H;
          [ apply construct_Ok in H as (n_h & Hn & ->); exists n_h;
            split; [exact Htag|]; split; [exact Hn|];
            clear Htag; tag_facts; unfold picked; cbn;
            (split; [by apply str_in_elem_of|]);
            (repeat (split; [reflexivity|]));
            (split;
             [ first [ by left
                     | right; split; [by apply str_in_elem_of | by split] ]
             | first [ reflexivity
                     | intros Hin; apply str_in_elem_of in Hin; discriminate Hin ] ])
          | ]).
  discriminate H.
Qed.

Lemma make_hidden_layer_supported (a : init_args) i x size_in tag n_h :
  a_hidden_layer_type a !! i = Some tag ->
  a_hidden_layer_size a !! i = Some n_h ->
  tag ∈ supported_tags ->
  exists l, make_hidden_layer a i x size_in = Ok l.
Proof.
  intros Htag Hn Hin. unfold make_hidden_layer.
  apply py_index_nat in Htag. rewrite (bind_Ok_eq _ _ _ Htag).
  assert (Hc : forall cls extra act rb,
             exists l, construct cls x size_in (a_hidden_layer_size a) i extra act rb
                       = Ok l).
  { intros. eexists. apply construct_Ok. eauto. }
  apply str_in_elem_of in Hin. tag_facts; apply Hc.
Qed.

Lemma make_hidden_layer_unsupported (a : init_args) i x size_in tag :
  a_hidden_layer_type a !! i = Some tag ->
  tag ∉ supported_tags ->
  make_hidden_layer a i x size_in = critical_exit (hidden_type_message tag).
Proof.
  intros Htag Hnot. unfold make_hidden_layer.
  apply py_index_nat in Htag. rewrite (bind_Ok_eq _ _ _ Htag).
  assert (Hne : forall t, t ∈ supported_tags -> String.eqb tag t = false).
  { intros t Ht. apply String.eqb_neq. intros ->. contradiction. }
  assert (Hact : str_in tag list_of_activations = false).
  { apply not_true_is_false. intros Hin. tag_facts; apply Hnot;
      by apply str_in_elem_of. }
  rewrite Hact.
  rewrite !Hne by (by apply str_in_elem_of).
  reflexivity.
Qed.

Lemma base_input_size_spec (a : init_args) (i : nat) (z : Z) :
  base_input_size a i = Ok z <-> spec_input_width a i = Some z.
Proof.
  unfold base_input_size. destruct i as [|j]; cbn [Nat.eqb spec_input_width].
  - split; intros H; congruence.
  - rewrite !py_index_pred.
    destruct (a_hidden_layer_size a !! j) as [sz|] eqn:Hsz; cbn [mbind option_bind].
    2:{ split; [|discriminate]. rewrite bind_Ok. intros (x & Hx & _).
        apply py_index_nat in Hx. congruence. }
    apply py_index_nat in Hsz. rewrite (bind_Ok_eq _ _ _ Hsz).
    destruct (a_hidden_layer_type a !! j) as [ty|] eqn:Hty; cbn [mbind option_bind].
    2:{ split; [|discriminate]. rewrite bind_Ok. intros (x & Hx & _).
        apply py_index_nat in Hx. congruence. }
    apply py_index_nat in Hty. rewrite (bind_Ok_eq _ _ _ Hty).
    destruct (str_in ty BLSTM_variants).
    + rewrite (bind_Ok_eq _ _ _ Hsz). split; intros H; congruence.
    + split; intros H; congruence.
Qed.

Lemma base_layer_input_spec (layers : list layer) (i : nat) (x : texpr) :
  base_layer_input layers i = Ok x <-> spec_base_input layers i = Some x.
Proof.
  unfold base_layer_input. destruct i as [|j]; cbn [Nat.eqb spec_base_input].
  - split; intros H; congruence.
  - rewrite py_index_pred, bind_Ok. split.
    + intros (l & Hl & Hx). apply py_index_nat in Hl. rewrite Hl. cbn. congruence.
    + destruct (layers !! j) as [l|] eqn:Hl; cbn; [|discriminate].
      intros Hx. exists l. rewrite py_index_nat. split; congruence.
Qed.

(** the four ways out of the block of lines 104-123 *)
Lemma seq2seq_mapping_Ok (a : init_args) i x size_in pse cnt (w : wiring) :
  seq2seq_mapping a i x size_in pse cnt = Ok w ->
  (reads_encoder a i = false /\ w = MkWiring x size_in pse cnt) \/
  (reads_encoder a i = true /\ a_network_type a = "S2S" /\
   ((a_ed_type a = "VED" /\
     w = MkWiring (ved_input x) (size_in + 4) pse cnt) \/
    (a_ed_type a = "HED" /\
     exists lo hi,
       a_MLU_div_lengths a !! cnt = Some lo /\
       a_MLU_div_lengths a !! (cnt + 1)%nat = Some hi /\
       w = MkWiring (hed_input x size_in pse lo hi) (size_in + (hi - lo))
                    (SAdd pse (hed_seg_len x size_in)) (cnt + 1)) \/
    (a_ed_type a <> "VED" /\ a_ed_type a <> "HED" /\
     w = MkWiring x size_in pse cnt))).
Proof.
  unfold seq2seq_mapping, reads_encoder. intros H.
  apply bind_Ok in H as (prev & Hprev & H). rewrite Hprev.
  destruct (str_in prev Encoder_variants); [right | left; split; congruence].
  split; [reflexivity|].
  apply bind_Ok in H as (d & Hd & H). apply bind_Ok in H as (f & Hf & H).
  unfold self_d in Hd. unfold self_f in Hf.
  destruct (String.eqb_spec (a_network_type a) "S2S") as [Hnet|]; [|discriminate].
  split; [exact Hnet|].
  injection Hd as <-. injection Hf as <-.
  destruct (String.eqb_spec (a_ed_type a) "VED") as [Hved|Hved].
  { left. split; [exact Hved|]. unfold ved_input. congruence. }
  right.
  destruct (String.eqb_spec (a_ed_type a) "HED") as [Hhed|Hhed].
  - left. split; [exact Hhed|].
    apply bind_Ok in H as (lo & Hlo & H). apply bind_Ok in H as (hi & Hhi & H).
    apply py_index_nat in Hlo.
    replace (Z.of_nat cnt + 1)%Z with (Z.of_nat (cnt + 1)) in Hhi by lia.
    apply py_index_nat in Hhi.
    exists lo, hi. unfold hed_input, hed_dur_slice, hed_seg_len.
    repeat split; [exact Hlo | exact Hhi | congruence].
  - right. repeat split; [exact Hved | exact Hhed | congruence].
Qed.

Lemma layer_iter_Ok (a : init_args) i (st st' : loop_state) :
  layer_iter a i st = Ok st' ->
  exists size_in x w l,
    spec_input_width a i = Some size_in /\
    spec_base_input (ls_rnn_layers st) i = Some x /\
    seq2seq_mapping a i x size_in (ls_prev_seg_end st) (ls_encoder_count st) = Ok w /\
    make_hidden_layer a i (w_input w) (w_size w) = Ok l /\
    st' = MkLoop (w_prev_seg_end w) (w_encoder_count w)
                 (ls_rnn_layers st ++ [l]) (ls_params st ++ layer_params i l).
Proof.
  unfold layer_iter. intros H.
  apply bind_Ok in H as (size_in & Hsize & H).
  apply bind_Ok in H as (x & Hx & H).
  apply bind_Ok in H as (w & Hw & H).
  apply bind_Ok in H as (l & Hl & H).
  exists size_in, x, w, l.
  apply base_input_size_spec in Hsize. apply base_layer_input_spec in Hx.
  repeat split; try assumption. congruence.
Qed.

(** ** The layer loop *)

Lemma encoder_hits_S (a : init_args) (k : nat) :
  encoder_hits a (S k) =
  (encoder_hits a k + (if reads_encoder a k then 1 else 0))%nat.
Proof.
  unfold encoder_hits. rewrite seq_S, filter_app, length_app. cbn [Nat.add].
  rewrite filter_cons, filter_nil.
  destruct (reads_encoder a k); case_decide; cbn; congruence.
Qed.

Lemma encoder_hits_mono (a : init_args) (k n : nat) :
  (k <= n)%nat -> (encoder_hits a k <= encoder_hits a n)%nat.
Proof.
  induction 1 as [|m Hle IH]; [lia|]. rewrite encoder_hits_S. lia.
Qed.

Lemma build_hidden_layers_S_Ok (a : init_args) (k : nat) (st' : loop_state) :
  build_hidden_layers a (S k) = Ok st' ->
  exists st, build_hidden_layers a k = Ok st /\ layer_iter a k st = Ok st'.
Proof. rewrite build_hidden_layers_S. apply bind_Ok. Qed.

(** what holds of the loop variables after [k] iterations *)
Lemma build_invariant (a : init_args) (k : nat) (st : loop_state) :
  build_hidden_layers a k = Ok st ->
  length (ls_rnn_layers st) = k /\
  ls_params st = concat (imap layer_params (ls_rnn_layers st)) /\
  (ls_encoder_count st <= encoder_hits a k)%nat /\
  (a_ed_type a = "HED" -> ls_encoder_count st = encoder_hits a k).
Proof.
  revert st. induction k as [|k IH]; intros st Hb.
  - injection Hb as <-. cbn. repeat split; auto.
  - apply build_hidden_layers_S_Ok in Hb as (st0 & Hb0 & Hit).
    destruct (IH _ Hb0) as (Hlen & Hps & Hle & Hcnt).
    apply layer_iter_Ok in Hit as (size_in & x & w & l & _ & _ & Hw & _ & ->).
    cbn [ls_rnn_layers ls_params ls_encoder_count].
    rewrite encoder_hits_S, length_app, imap_app, concat_app, <- Hps, Hlen.
    cbn [length imap concat compose]. rewrite Nat.add_0_r, app_nil_r.
    split; [lia|]. split; [reflexivity|].
    apply seq2seq_mapping_Ok in Hw
      as [[Hr ->] | (Hr & _ & [[Hved ->] | [(Hhed & lo & hi & _ & _ & ->)
                                          | (_ & Hnhed & ->)]])];
      rewrite Hr; cbn [w_encoder_count]; split; try lia; intros Hed;
      try (specialize (Hcnt Hed); lia).
    + rewrite Hved in Hed. discriminate Hed.
    + contradiction.
Qed.

Lemma build_prefix (a : init_args) (n k : nat) (stn : loop_state) :
  (k <= n)%nat ->
  build_hidden_layers a n = Ok stn ->
  exists stk more,
    build_hidden_layers a k = Ok stk /\
    ls_rnn_layers stn = ls_rnn_layers stk ++ more.
Proof.
  intros Hle. revert stn. induction Hle as [|m Hle IH]; intros stn Hb.
  - exists stn, []. by rewrite app_nil_r.
  - apply build_hidden_layers_S_Ok in Hb as (st0 & Hb0 & Hit).
    destruct (IH _ Hb0) as (stk & more & Hk & Hlayers).
    apply layer_iter_Ok in Hit as (? & ? & ? & l & _ & _ & _ & _ & ->).
    exists stk, (more ++ [l]). split; [exact Hk|].
    cbn [ls_rnn_layers]. rewrite Hlayers. by rewrite <- app_assoc.
Qed.

(** layer [i] of the finished list is the one iteration [i] appended *)
Lemma build_layer_at (a : init_args) (n i : nat) (stn : loop_state) (l : layer) :
  build_hidden_layers a n = Ok stn ->
  ls_rnn_layers stn !! i = Some l ->
  exists st st',
    build_hidden_layers a i = Ok st /\
    layer_iter a i st = Ok st' /\
    ls_rnn_layers st' = ls_rnn_layers st ++ [l] /\
    (forall j l', ls_rnn_layers st !! j = Some l' ->
                  ls_rnn_layers stn !! j = Some l').
Proof.
  intros Hb Hl.
  destruct (build_invariant _ _ _ Hb) as (Hlen & _).
  assert (Hi : (i < n)%nat) by (apply lookup_lt_Some in Hl; lia).
  destruct (build_prefix a n (S i) stn ltac:(lia) Hb) as (st' & more & Hb' & Hmore).
  destruct (build_invariant _ _ _ Hb') as (Hlen' & _).
  apply build_hidden_layers_S_Ok in Hb' as (st & Hbi & Hit).
  destruct (build_invariant _ _ _ Hbi) as (Hleni & _).
  exists st, st'. split; [exact Hbi|]. split; [exact Hit|].
  apply layer_iter_Ok in Hit as (? & ? & ? & l0 & _ & _ & _ & _ & Hst').
  assert (Hlayers : ls_rnn_layers st' = ls_rnn_layers st ++ [l0])
    by (rewrite Hst'; reflexivity).
  assert (l0 = l) as ->.
  { rewrite Hmore, Hlayers in Hl.
    rewrite lookup_app_l in Hl by (rewrite length_app; cbn; lia).
    rewrite lookup_app_r in Hl by lia.
    rewrite Hleni, Nat.sub_diag in Hl. cbn in Hl. congruence. }
  split; [exact Hlayers|].
  intros j l' Hj. rewrite Hmore, Hlayers, <- app_assoc.
  by apply lookup_app_l_Some.
Qed.

(** ** When the constructor returns *)

Lemma py_index_wrap_Ok {A : Type} (l : list A) (i : nat) :
  l <> [] -> (i <= length l)%nat -> exists x, py_index l (Z.of_nat i - 1) = Ok x.
Proof.
  intros Hne Hi. destruct i as [|j].
  - destruct (last l) as [x|] eqn:Hlast.
    + exists x. by apply py_index_minus_one.
    + apply last_None in Hlast. contradiction.
  - rewrite py_index_pred.
    destruct (lookup_lt_is_Some_2 l j ltac:(lia)) as [x Hx].
    exists x. by apply py_index_nat.
Qed.

Lemma seq2seq_mapping_total (a : init_args) i x size_in pse cnt :
  (exists prev, py_index (a_hidden_layer_type a) (Z.of_nat i - 1) = Ok prev) ->
  (reads_encoder a i = true ->
   a_network_type a = "S2S" /\
   (a_ed_type a = "HED" -> (cnt + 1 < length (a_MLU_div_lengths a))%nat)) ->
  exists w, seq2seq_mapping a i x size_in pse cnt = Ok w.
Proof.
  intros [prev Hprev] Hsafe. unfold seq2seq_mapping, reads_encoder in *.
  rewrite Hprev in Hsafe. rewrite (bind_Ok_eq _ _ _ Hprev).
  destruct (str_in prev Encoder_variants); [|eauto].
  destruct (Hsafe eq_refl) as [Hnet Hmlu].
  unfold self_d, self_f. rewrite Hnet. cbn.
  destruct (String.eqb_spec (a_ed_type a) "VED"); [eauto|].
  destruct (String.eqb_spec (a_ed_type a) "HED") as [Hhed|]; [|eauto].
  specialize (Hmlu Hhed).
  destruct (lookup_lt_is_Some_2 (a_MLU_div_lengths a) cnt ltac:(lia)) as [lo Hlo].
  destruct (lookup_lt_is_Some_2 (a_MLU_div_lengths a) (cnt + 1) ltac:(lia))
    as [hi Hhi].
  apply py_index_nat in Hlo, Hhi.
  replace (Z.of_nat (cnt + 1)) with (Z.of_nat cnt + 1)%Z in Hhi by lia.
  rewrite (bind_Ok_eq _ _ _ Hlo), (bind_Ok_eq _ _ _ Hhi). eauto.
Qed.

Lemma wiring_safe_at (a : init_args) (k : nat) (st : loop_state) :
  wiring_safe a ->
  (k < length (a_hidden_layer_type a))%nat ->
  build_hidden_layers a k = Ok st ->
  reads_encoder a k = true ->
  a_network_type a = "S2S" /\
  (a_ed_type a = "HED" ->
   (ls_encoder_count st + 1 < length (a_MLU_div_lengths a))%nat).
Proof.
  intros Hsafe Hk Hb Hr.
  pose proof (encoder_hits_mono a (S k) (length (a_hidden_layer_type a))
                ltac:(lia)) as Hmono.
  rewrite encoder_hits_S, Hr in Hmono.
  destruct Hsafe as [Hzero | [Hnet Hmlu]]; [lia|].
  split; [exact Hnet|]. intros Hhed.
  destruct (build_invariant _ _ _ Hb) as (_ & _ & Hle & _).
  specialize (Hmlu Hhed). lia.
Qed.

Lemma base_steps_total (a : init_args) (k : nat) (st : loop_state) :
  length (a_hidden_layer_size a) = length (a_hidden_layer_type a) ->
  wiring_safe a ->
  (k < length (a_hidden_layer_type a))%nat ->
  build_hidden_layers a k = Ok st ->
  exists z x w,
    base_input_size a k = Ok z /\
    base_layer_input (ls_rnn_layers st) k = Ok x /\
    seq2seq_mapping a k x z (ls_prev_seg_end st) (ls_encoder_count st) = Ok w.
Proof.
  intros Hlen Hsafe Hk Hb.
  destruct (build_invariant _ _ _ Hb) as (Hlayers & _).
  assert (Hne : a_hidden_layer_type a <> []).
  { intros Hnil. rewrite Hnil in Hk. cbn in Hk. lia. }
  assert (Hsize : exists z, base_input_size a k = Ok z).
  { destruct k as [|j]; [by eexists|].
    destruct (lookup_lt_is_Some_2 (a_hidden_layer_type a) j ltac:(lia)) as [ty Hty].
    destruct (lookup_lt_is_Some_2 (a_hidden_layer_size a) j ltac:(lia)) as [sz Hsz].
    eexists. apply base_input_size_spec. cbn. rewrite Hsz, Hty. reflexivity. }
  assert (Hin : exists x, base_layer_input (ls_rnn_layers st) k = Ok x).
  { destruct k as [|j]; [by eexists|].
    destruct (lookup_lt_is_Some_2 (ls_rnn_layers st) j ltac:(lia)) as [l Hl].
    eexists. apply base_layer_input_spec. cbn. rewrite Hl. reflexivity. }
  destruct Hsize as [z Hz]. destruct Hin as [x Hx].
  destruct (seq2seq_mapping_total a k x z (ls_prev_seg_end st) (ls_encoder_count st))
    as [w Hw].
  { apply py_index_wrap_Ok; [exact Hne | lia]. }
  { intros Hr. eapply wiring_safe_at; eauto. }
  eauto 10.
Qed.

Lemma build_succeeds (a : init_args) (m k : nat) :
  length (a_hidden_layer_size a) = length (a_hidden_layer_type a) ->
  (forall j tag, (j < m)%nat -> a_hidden_layer_type a !! j = Some tag ->
                 tag ∈ supported_tags) ->
  wiring_safe a ->
  (k <= m)%nat ->
  (k <= length (a_hidden_layer_type a))%nat ->
  exists st, build_hidden_layers a k = Ok st.
Proof.
  intros Hlen Hsup Hsafe. induction k as [|k IH]; intros Hkm Hk.
  - eexists. reflexivity.
  - destruct (IH ltac:(lia) ltac:(lia)) as [st Hb].
    rewrite build_hidden_layers_S, (bind_Ok_eq _ _ _ Hb).
    destruct (base_steps_total a k st Hlen Hsafe ltac:(lia) Hb)
      as (z & x & w & Hz & Hx & Hw).
    destruct (lookup_lt_is_Some_2 (a_hidden_layer_type a) k ltac:(lia)) as [tag Htag].
    destruct (lookup_lt_is_Some_2 (a_hidden_layer_size a) k ltac:(lia)) as [n_h Hn].
    destruct (make_hidden_layer_supported a k (w_input w) (w_size w) tag n_h)
      as [l Hl]; [exact Htag | exact Hn | |].
    { apply (Hsup k); [lia | exact Htag]. }
    unfold layer_iter.
    rewrite (bind_Ok_eq _ _ _ Hz), (bind_Ok_eq _ _ _ Hx), (bind_Ok_eq _ _ _ Hw),
      (bind_Ok_eq _ _ _ Hl).
    eexists. reflexivity.
Qed.

Lemma build_succeeds_all (a : init_args) :
  length (a_hidden_layer_size a) = length (a_hidden_layer_type a) ->
  (forall tag, tag ∈ a_hidden_layer_type a -> tag ∈ supported_tags) ->
  wiring_safe a ->
  exists st, build_hidden_layers a (length (a_hidden_layer_type a)) = Ok st.
Proof.
  intros Hlen Hsup Hsafe.
  apply (build_succeeds a (length (a_hidden_layer_type a))); auto.
  intros j tag _ Htag. apply Hsup. by eapply list_elem_of_lookup_2.
Qed.

Lemma base_input_size_total (a : init_args) (k : nat) :
  length (a_hidden_layer_size a) = length (a_hidden_layer_type a) ->
  (k <= length (a_hidden_layer_type a))%nat ->
  exists z, base_input_size a k = Ok z.
Proof.
  intros Hlen Hk. destruct k as [|j]; [by eexists|].
  destruct (lookup_lt_is_Some_2 (a_hidden_layer_type a) j ltac:(lia)) as [ty Hty].
  destruct (lookup_lt_is_Some_2 (a_hidden_layer_size a) j ltac:(lia)) as [sz Hsz].
  eexists. apply base_input_size_spec. cbn. rewrite Hsz, Hty. reflexivity.
Qed.

Lemma base_layer_input_total (layers : list layer) (k : nat) :
  length layers = k -> exists x, base_layer_input layers k = Ok x.
Proof.
  intros Hlen. destruct k as [|j]; [by eexists|].
  destruct (lookup_lt_is_Some_2 layers j ltac:(lia)) as [l Hl].
  eexists. apply base_layer_input_spec. cbn. rewrite Hl. reflexivity.
Qed.

(** the loop runs as long as the tags are supported and each encoder test
    that holds finds [self.d] and two more entries of [MLU_div] *)
Lemma build_succeeds_local (a : init_args) (k : nat) :
  length (a_hidden_layer_size a) = length (a_hidden_layer_type a) ->
  (k <= length (a_hidden_layer_type a))%nat ->
  (forall j tag, (j < k)%nat -> a_hidden_layer_type a !! j = Some tag ->
                 tag ∈ supported_tags) ->
  (forall j, (j < k)%nat -> reads_encoder a j = true ->
             a_network_type a = "S2S" /\
             (a_ed_type a = "HED" ->
              (encoder_hits a j + 1 < length (a_MLU_div_lengths a))%nat)) ->
  exists st, build_hidden_layers a k = Ok st.
Proof.
  intros Hlen. induction k as [|k IH]; intros Hk Hsup Hwire.
  - eexists. reflexivity.
  - destruct IH as [st Hb]; [lia | intros; apply (Hsup j); auto; lia
                             | intros; apply Hwire; auto; lia |].
    destruct (build_invariant _ _ _ Hb) as (Hlayers & _ & Hle & _).
    rewrite build_hidden_layers_S, (bind_Ok_eq _ _ _ Hb).
    destruct (base_input_size_total a k Hlen ltac:(lia)) as [z Hz].
    destruct (base_layer_input_total _ _ Hlayers) as [x Hx].
    destruct (seq2seq_mapping_total a k x z (ls_prev_seg_end st) (ls_encoder_count st))
      as [w Hw].
    { apply py_index_wrap_Ok; [|lia]. intros Hnil. rewrite Hnil in Hk. cbn in Hk. lia. }
    { intros Hr. destruct (Hwire k ltac:(lia) Hr) as [Hnet Hmlu].
      split; [exact Hnet|]. intros Hhed. specialize (Hmlu Hhed). lia. }
    destruct (lookup_lt_is_Some_2 (a_hidden_layer_type a) k ltac:(lia)) as [tag Htag].
    destruct (lookup_lt_is_Some_2 (a_hidden_layer_size a) k ltac:(lia)) as [n_h Hn].
    destruct (make_hidden_layer_supported a k (w_input w) (w_size w) tag n_h)
      as [l Hl]; [exact Htag | exact Hn | |].
    { apply (Hsup k); [lia | exact Htag]. }
    unfold layer_iter.
    rewrite (bind_Ok_eq _ _ _ Hz), (bind_Ok_eq _ _ _ Hx), (bind_Ok_eq _ _ _ Hw),
      (bind_Ok_eq _ _ _ Hl).
    eexists. reflexivity.
Qed.

Lemma wiring_safe_upto_at (a : init_args) (k j : nat) :
  wiring_safe_upto a k ->
  (j < k)%nat ->
  reads_encoder a j = true ->
  a_network_type a = "S2S" /\
  (a_ed_type a = "HED" ->
   (encoder_hits a j + 1 < length (a_MLU_div_lengths a))%nat).
Proof.
  intros Hsafe Hj Hr.
  pose proof (encoder_hits_mono a (S j) k ltac:(lia)) as Hmono.
  rewrite encoder_hits_S, Hr in Hmono.
  destruct Hsafe as [Hzero | [Hnet Hmlu]]; [lia|].
  split; [exact Hnet|]. intros Hhed. specialize (Hmlu Hhed). lia.
Qed.

Lemma make_final_layer_total (a : init_args) (st : loop_state) :
  length (a_hidden_layer_size a) = length (a_hidden_layer_type a) ->
  length (ls_rnn_layers st) = length (a_hidden_layer_type a) ->
  a_hidden_layer_type a <> [] ->
  output_supported a ->
  exists fp, make_final_layer a st = Ok fp.
Proof.
  intros Hlen Hlayers Hne Hout. unfold make_final_layer.
  assert (Hex : forall (A : Type) (l : list A),
             length l = length (a_hidden_layer_type a) ->
             exists x, py_index l (-1) = Ok x).
  { intros A l Hl. destruct (last l) as [x|] eqn:Hlast.
    - exists x. by apply py_index_minus_one.
    - apply last_None in Hlast. subst l. symmetry in Hl.
      apply length_zero_iff_nil in Hl. contradiction. }
  destruct (Hex _ _ Hlen) as [sz Hsz].
  destruct (Hex _ _ eq_refl) as [ty Hty].
  destruct (Hex _ _ Hlayers) as [l Hl].
  rewrite (bind_Ok_eq _ _ _ Hsz), (bind_Ok_eq _ _ _ Hty).
  assert (Hw : exists z, (if str_in ty BLSTM_variants
                          then sz2 ← py_index (a_hidden_layer_size a) (-1);
                               Ok (sz2 * 2)%Z
                          else Ok sz) = Ok z).
  { destruct (str_in ty BLSTM_variants); [|eauto].
    rewrite (bind_Ok_eq _ _ _ Hsz). eauto. }
  destruct Hw as [z Hz].
  rewrite (bind_Ok_eq _ _ _ Hz), (bind_Ok_eq _ _ _ Hty).
  destruct (str_in ty Decoder_variants) eqn:Hdec.
  { rewrite (bind_Ok_eq _ _ _ Hl). eauto. }
  destruct Hout as [(tag & Hlast & Htag) | [Hlin | [Hrec | Hact]]].
  - apply py_index_minus_one in Hty. congruence.
  - rewrite Hlin. cbn. rewrite (bind_Ok_eq _ _ _ Hl). eauto.
  - rewrite Hrec. cbn. rewrite (bind_Ok_eq _ _ _ Hl). eauto.
  - destruct (String.eqb _ "linear"); [rewrite (bind_Ok_eq _ _ _ Hl); eauto|].
    destruct (String.eqb _ "recurrent"); [rewrite (bind_Ok_eq _ _ _ Hl); eauto|].
    rewrite Hact, (bind_Ok_eq _ _ _ Hl). eauto.
Qed.

Lemma make_loss_total (a : init_args) (out : texpr) :
  (a_loss_function a = "Hinge" ->
   ndim TY = ndim out \/ ndim TY = (ndim out - 1)%Z) ->
  exists loss, make_loss ndim a out = Ok loss.
Proof.
  intros Hr. unfold make_loss.
  destruct (String.eqb (a_loss_function a) "CCE"); [eauto|].
  destruct (String.eqb_spec (a_loss_function a) "Hinge") as [Hh|].
  - unfold multiclass_hinge_loss.
    destruct (Hr Hh) as [Heq | Heq]; rewrite Heq.
    + destruct (Z.eqb_spec (ndim out) (ndim out - 1)); [eauto|].
      rewrite Z.eqb_refl. cbn. eauto.
    + rewrite Z.eqb_refl. cbn. eauto.
  - destruct (String.eqb (a_loss_function a) "MMSE"); [|eauto].
    destruct (a_rnn_batch_training a); eauto.
Qed.

Lemma init_succeeds (a : init_args) :
  well_formed a -> exists net, init a = Ok net.
Proof.
  intros (Hlen & Hne & Hsup & Hsafe & Hout & Hrank). unfold init.
  rewrite Hlen, Nat.eqb_refl. cbn [negb].
  destruct (build_succeeds_all a Hlen Hsup Hsafe) as [st Hb].
  destruct (build_invariant _ _ _ Hb) as (Hlayers & _).
  destruct (make_final_layer_total a st Hlen Hlayers Hne Hout) as [fp Hfp].
  destruct (make_loss_total a (TOutput fp.1)) as [loss Hloss].
  { intros Hh. by apply (Hrank Hh st fp). }
  rewrite (bind_Ok_eq _ _ _ Hb), (bind_Ok_eq _ _ _ Hfp), (bind_Ok_eq _ _ _ Hloss).
  eauto.
Qed.

(** the parts a returned network was put together from *)
Lemma init_Ok (a : init_args) (net : network) :
  init a = Ok net ->
  length (a_hidden_layer_size a) = length (a_hidden_layer_type a) /\
  exists st fp loss,
    build_hidden_layers a (length (a_hidden_layer_type a)) = Ok st /\
    make_final_layer a st = Ok fp /\
    make_loss ndim a (TOutput fp.1) = Ok loss /\
    rnn_layers net = ls_rnn_layers st /\
    params net = fp.2 /\ final_layer net = fp.1 /\
    updates net = make_updates fp.2 /\
    finetune_cost net = fst <$> loss /\ errors net = snd <$> loss /\
    optimizer net = a_optimizer a /\
    has_d_f net = String.eqb (a_network_type a) "S2S" /\
    n_layers net = length (a_hidden_layer_type a).
Proof.
  unfold init. intros H.
  destruct (Nat.eqb_spec (length (a_hidden_layer_size a))
                         (length (a_hidden_layer_type a))) as [Hlen|];
    [|discriminate]. cbn [negb] in H.
  split; [exact Hlen|].
  apply bind_Ok in H as (st & Hb & H). apply bind_Ok in H as (fp & Hfp & H).
  apply bind_Ok in H as (loss & Hloss & H).
  exists st, fp, loss. rewrite <- Hlen.
  injection H as <-. cbn. repeat split; auto.
Qed.

(** ** The exceptions of the constructor *)

Lemma raises_only_Ok {A : Type} (P : exn -> Prop) (x : A) : raises_only P (Ok x).
Proof. intros msgs e H. discriminate H. Qed.

Lemma raises_only_Raise {A : Type} (P : exn -> Prop) msgs e :
  P e -> raises_only P (@Raise A msgs e).
Proof. intros HP msgs' e' H. congruence. Qed.

Lemma raises_only_bind {A B : Type} (P : exn -> Prop) (r : result A)
    (k : A -> result B) :
  raises_only P r -> (forall x, raises_only P (k x)) -> raises_only P (r ≫= k).
Proof.
  intros Hr Hk msgs e. destruct r as [x|msgs' e']; cbn.
  - apply Hk.
  - intros H. injection H as -> ->. by apply (Hr msgs e).
Qed.

Lemma raises_only_if {A : Type} (P : exn -> Prop) (c : bool) (r1 r2 : result A) :
  raises_only P r1 -> raises_only P r2 -> raises_only P (if c then r1 else r2).
Proof. destruct c; auto. Qed.

Lemma raises_only_py_index {A : Type} (P : exn -> Prop) (l : list A) (i : Z) :
  P IndexError -> raises_only P (py_index l i).
Proof.
  intros HP. unfold py_index.
  apply raises_only_if; [by apply raises_only_Raise|].
  destruct (l !! _); [apply raises_only_Ok | by apply raises_only_Raise].
Qed.

Lemma raises_only_for_each {I S : Type} (P : exn -> Prop)
    (body : I -> S -> result S) (idxs : list I) (st : S) :
  (forall i st', raises_only P (body i st')) -> raises_only P (for_each body idxs st).
Proof.
  intros Hbody. revert st. induction idxs as [|i rest IH]; intros st; cbn.
  - apply raises_only_Ok.
  - apply raises_only_bind; [apply Hbody | apply IH].
Qed.

Ltac raises_only_tac :=
  repeat first
    [ apply raises_only_Ok
    | apply raises_only_Raise; unfold after_assertion; auto 8
    | apply raises_only_py_index; unfold after_assertion; auto 8
    | apply raises_only_if
    | apply raises_only_bind; [|intros ?] ].

Lemma layer_iter_raises (a : init_args) (i : nat) (st : loop_state) :
  raises_only after_assertion (layer_iter a i st).
Proof.
  unfold layer_iter, base_input_size, base_layer_input, seq2seq_mapping,
    make_hidden_layer, construct, self_d, self_f, critical_exit.
  raises_only_tac.
Qed.

Lemma init_raises_after_assertion (a : init_args) :
  length (a_hidden_layer_size a) = length (a_hidden_layer_type a) ->
  raises_only after_assertion (init a).
Proof.
  intros Hlen. unfold init. rewrite Hlen, Nat.eqb_refl. cbn [negb].
  apply raises_only_bind.
  { apply raises_only_for_each. intros. apply layer_iter_raises. }
  intros st. unfold make_final_layer, make_loss, multiclass_hinge_loss, critical_exit.
  raises_only_tac.
Qed.

(** how layer [i] of a returned network was built *)
Lemma layer_built_by (a : init_args) (net : network) (i : nat) (l : layer) :
  init a = Ok net ->
  rnn_layers net !! i = Some l ->
  exists st size_in x w,
    build_hidden_layers a i = Ok st /\
    spec_input_width a i = Some size_in /\
    spec_base_input (rnn_layers net) i = Some x /\
    seq2seq_mapping a i x size_in (ls_prev_seg_end st) (ls_encoder_count st) = Ok w /\
    make_hidden_layer a i (w_input w) (w_size w) = Ok l.
Proof.
  intros Hinit Hl.
  apply init_Ok in Hinit as (_ & stn & fp & loss & Hb & _ & _ & Hlayers & _).
  rewrite Hlayers in *.
  destruct (build_layer_at _ _ _ _ _ Hb Hl) as (st & st' & Hbi & Hit & Happ & Hpre).
  apply layer_iter_Ok in Hit as (size_in & x & w & l0 & Hsz & Hx & Hw & Hmk & ->).
  cbn [ls_rnn_layers] in Happ. apply app_inj_tail in Happ as [_ ->].
  exists st, size_in, x, w. repeat split; try assumption.
  destruct i as [|j]; [exact Hx|]. cbn in *.
  destruct (ls_rnn_layers st !! j) as [l'|] eqn:Hj; [|discriminate].
  by rewrite (Hpre _ _ Hj).
Qed.

(** ** The claims about the constructor *)

(** C1: for every index [i] of [hidden_layer_type] the constructor builds
    the layer object whose class the tag [hidden_layer_type[i]] stands for
    (the activation tags give a [GeneralLayer] with that activation, lower
    case) and appends it to [self.rnn_layers]; after construction
    [len(self.rnn_layers) == len(hidden_layer_type)].  The constructor does
    return for well-formed arguments. *)
Theorem C1_layer_for_each_tag (a : init_args) :
  (well_formed a -> exists net, init a = Ok net) /\
  (forall net, init a = Ok net ->
     length (rnn_layers net) = length (a_hidden_layer_type a) /\
     forall i tag, a_hidden_layer_type a !! i = Some tag ->
       exists l, rnn_layers net !! i = Some l /\
         (spec_layer_class tag = Some (layer_cls l) \/
          (tag ∈ ["TANHE"; "SIGMOIDE"] /\ layer_cls l = GeneralLayer /\
           layer_act l = Some (ActName (lower (drop_last tag))))) /\
         (tag ∈ list_of_activations -> layer_act l = Some (ActName (lower tag)))).
Proof.
  split; [apply init_succeeds|].
  intros net Hinit.
  assert (Hlen : length (rnn_layers net) = length (a_hidden_layer_type a)).
  { apply init_Ok in Hinit as (_ & st & ? & ? & Hb & _ & _ & -> & _).
    by destruct (build_invariant _ _ _ Hb) as (-> & _). }
  split; [exact Hlen|].
  intros i tag Htag.
  destruct (lookup_lt_is_Some_2 (rnn_layers net) i) as [l Hl].
  { rewrite Hlen. by eapply lookup_lt_Some. }
  exists l. split; [exact Hl|].
  destruct (layer_built_by _ _ _ _ Hinit Hl) as (? & ? & ? & w & _ & _ & _ & _ & Hmk).
  apply make_hidden_layer_Ok in Hmk as (tag' & n_h & Htag' & _ & Hp).
  assert (tag' = tag) as -> by congruence.
  destruct Hp as (_ & _ & _ & _ & Hcls & Hact). auto.
Qed.

(** C10: the constructor raises [AssertionError] whenever
    [len(hidden_layer_size) != len(hidden_layer_type)]; when the two lengths
    agree it never raises it, and the network it returns has exactly
    [len(hidden_layer_size)] hidden layers. *)
Theorem C10_length_assertion (a : init_args) :
  (length (a_hidden_layer_size a) <> length (a_hidden_layer_type a) ->
   init a = Raise [] AssertionError) /\
  (length (a_hidden_layer_size a) = length (a_hidden_layer_type a) ->
   (forall msgs, init a <> Raise msgs AssertionError) /\
   (forall net, init a = Ok net ->
      length (rnn_layers net) = length (a_hidden_layer_size a) /\
      n_layers net = length (a_hidden_layer_size a)) /\
   (well_formed a -> exists net, init a = Ok net)).
Proof.
  split.
  - intros Hne. unfold init.
    destruct (Nat.eqb_spec (length (a_hidden_layer_size a))
                           (length (a_hidden_layer_type a))); [contradiction|].
    reflexivity.
  - intros Hlen. split; [|split].
    + intros msgs H.
      destruct (init_raises_after_assertion a Hlen _ _ H) as [? | [? | [? | ?]]];
        discriminate.
    + intros net Hinit.
      apply init_Ok in Hinit as (_ & st & ? & ? & Hb & _ & _ & -> & Hrest).
      destruct (build_invariant _ _ _ Hb) as (-> & _).
      split; [congruence|].
      destruct Hrest as (_ & _ & _ & _ & _ & _ & _ & ->). congruence.
    + apply init_succeeds.
Qed.

Lemma build_raise_stays (a : init_args) (i n : nat) msgs e :
  (i <= n)%nat ->
  build_hidden_layers a i = Raise msgs e ->
  build_hidden_layers a n = Raise msgs e.
Proof.
  induction 1 as [|m Hle IH]; intros Hb; [exact Hb|].
  rewrite build_hidden_layers_S. apply bind_Raise. auto.
Qed.

(** the constructor stops at the first tag that no test accepts *)
Lemma init_unsupported_hidden (a : init_args) (i : nat) (tag : string) :
  length (a_hidden_layer_size a) = length (a_hidden_layer_type a) ->
  wiring_safe_upto a (S i) ->
  a_hidden_layer_type a !! i = Some tag ->
  tag ∉ supported_tags ->
  (forall j tag', (j < i)%nat -> a_hidden_layer_type a !! j = Some tag' ->
                  tag' ∈ supported_tags) ->
  init a = critical_exit (hidden_type_message tag).
Proof.
  intros Hlen Hsafe Htag Hnot Hbefore.
  pose proof (lookup_lt_Some _ _ _ Htag) as Hi.
  destruct (build_succeeds_local a i Hlen ltac:(lia) Hbefore) as [st Hb].
  { intros j Hj. apply (wiring_safe_upto_at a (S i)); [exact Hsafe | lia]. }
  destruct (build_invariant _ _ _ Hb) as (Hlayers & _ & Hle & _).
  destruct (base_input_size_total a i Hlen ltac:(lia)) as [z Hz].
  destruct (base_layer_input_total _ _ Hlayers) as [x Hx].
  destruct (seq2seq_mapping_total a i x z (ls_prev_seg_end st) (ls_encoder_count st))
    as [w Hw].
  { apply py_index_wrap_Ok; [|lia]. intros Hnil. rewrite Hnil in Hi. cbn in Hi. lia. }
  { intros Hr.
    destruct (wiring_safe_upto_at a (S i) i Hsafe ltac:(lia) Hr) as [Hnet Hmlu].
    split; [exact Hnet|]. intros Hhed. specialize (Hmlu Hhed). lia. }
  assert (Hstop : build_hidden_layers a (S i) = critical_exit (hidden_type_message tag)).
  { rewrite build_hidden_layers_S, (bind_Ok_eq _ _ _ Hb). unfold layer_iter.
    rewrite (bind_Ok_eq _ _ _ Hz), (bind_Ok_eq _ _ _ Hx), (bind_Ok_eq _ _ _ Hw).
    by rewrite (make_hidden_layer_unsupported a i _ _ tag Htag Hnot). }
  unfold init. rewrite Hlen, Nat.eqb_refl. cbn [negb].
  apply bind_Raise. rewrite <- Hlen.
  apply (build_raise_stays a (S i)); [lia | exact Hstop].
Qed.

Lemma init_unsupported_output (a : init_args) (tag : string) :
  length (a_hidden_layer_size a) = length (a_hidden_layer_type a) ->
  wiring_safe a ->
  (forall t, t ∈ a_hidden_layer_type a -> t ∈ supported_tags) ->
  last (a_hidden_layer_type a) = Some tag ->
  str_in tag Decoder_variants = false ->
  lower (a_output_type a) <> "linear" ->
  lower (a_output_type a) <> "recurrent" ->
  str_in (upper (a_output_type a)) list_of_activations = false ->
  init a = critical_exit (output_type_message (a_output_type a)).
Proof.
  intros Hlen Hsafe Hsup Hlast Hdec Hlin Hrec Hact.
  destruct (build_succeeds_all a Hlen Hsup Hsafe) as [st Hb].
  unfold init. rewrite Hlen, Nat.eqb_refl. cbn [negb].
  rewrite (bind_Ok_eq _ _ _ Hb).
  assert (Hfinal : make_final_layer a st
                   = critical_exit (output_type_message (a_output_type a))).
  { unfold make_final_layer.
    assert (Hsz : exists sz, py_index (a_hidden_layer_size a) (-1) = Ok sz).
    { destruct (last (a_hidden_layer_size a)) as [sz|] eqn:Hl.
      - exists sz. by apply py_index_minus_one.
      - apply last_None in Hl. rewrite Hl in Hlen. symmetry in Hlen.
        apply length_zero_iff_nil in Hlen. rewrite Hlen in Hlast. discriminate. }
    destruct Hsz as [sz Hsz]. apply py_index_minus_one in Hlast.
    rewrite (bind_Ok_eq _ _ _ Hsz), (bind_Ok_eq _ _ _ Hlast).
    assert (Hw : exists z, (if str_in tag BLSTM_variants
                            then sz2 ← py_index (a_hidden_layer_size a) (-1);
                                 Ok (sz2 * 2)%Z
                            else Ok sz) = Ok z).
    { destruct (str_in tag BLSTM_variants); [|eauto].
      rewrite (bind_Ok_eq _ _ _ Hsz). eauto. }
    destruct Hw as [z Hz].
    rewrite (bind_Ok_eq _ _ _ Hz), (bind_Ok_eq _ _ _ Hlast), Hdec.
    apply String.eqb_neq in Hlin, Hrec. by rewrite Hlin, Hrec, Hact. }
  by rewrite Hfinal.
Qed.

Lemma count_freeze_params_Ok (net : network) (layer_index : nat) :
  (layer_index <= length (rnn_layers net))%nat ->
  count_freeze_params net layer_index = Ok (freeze_count net layer_index).
Proof.
  unfold count_freeze_params, freeze_count.
  induction layer_index as [|k IH]; intros Hk; [reflexivity|].
  rewrite seq_S, for_each_app, (bind_Ok_eq _ _ _ (IH ltac:(lia))).
  destruct (lookup_lt_is_Some_2 (rnn_layers net) k ltac:(lia)) as [l Hl].
  cbn [for_each Nat.add].
  pose proof Hl as Hpy. apply py_index_nat in Hpy.
  rewrite (bind_Ok_eq _ _ _ Hpy). cbn.
  rewrite (take_S_r _ _ _ Hl), imap_app, concat_app, length_app.
  cbn [imap concat compose]. rewrite app_nil_r, length_take_le by lia.
  by rewrite Nat.add_0_r.
Qed.

Lemma build_finetune_unsupported_optimizer (net : network)
    (train_shared_xy valid_shared_xy : list Row * list Row)
    (use_lhuc : bool) (layer_index : nat) :
  is_Some (finetune_cost net) ->
  (layer_index <= length (rnn_layers net))%nat ->
  optimizer net ∉ ["sgd"; "adam"; "rprop"] ->
  build_finetune_functions net train_shared_xy valid_shared_xy use_lhuc layer_index
  = critical_exit (optimizer_message (optimizer net)).
Proof.
  intros [cost Hcost] Hli Hopt. unfold build_finetune_functions.
  rewrite Hcost. cbn [attribute].
  rewrite (bind_Ok_eq _ _ _ eq_refl), (bind_Ok_eq _ _ _ (count_freeze_params_Ok _ _ Hli)).
  assert (Hne : forall name, name ∈ ["sgd"; "adam"; "rprop"] ->
                             String.eqb (optimizer net) name = false).
  { intros name Hin. apply String.eqb_neq. intros Heq. apply Hopt. by rewrite Heq. }
  rewrite !Hne by (apply str_in_elem_of; reflexivity).
  reflexivity.
Qed.

(** C7 (as amended): when the lengths agree and the encoder wiring of
    lines 104-123 raises nothing in the iterations up to that of the first
    [hidden_layer_type[i]] that is not a supported tag, the constructor
    stops there by logging a critical message and calling [sys.exit(1)];
    with supported hidden tags and a wiring that raises nothing it does the
    same for an [output_type] that is not supported when the last hidden
    layer is not a decoder variant; and [build_finetune_functions] does the
    same for an optimizer that is not 'sgd', 'adam' or 'rprop', once the cost
    exists and [layer_index] is within the layers. *)
Theorem C7_unsupported_names_exit :
  (forall (a : init_args) (i : nat) (tag : string),
     length (a_hidden_layer_size a) = length (a_hidden_layer_type a) ->
     wiring_safe_upto a (S i) ->
     a_hidden_layer_type a !! i = Some tag ->
     tag ∉ supported_tags ->
     (forall j tag', (j < i)%nat -> a_hidden_layer_type a !! j = Some tag' ->
                     tag' ∈ supported_tags) ->
     init a = Raise [hidden_type_message tag] (SystemExit 1)) /\
  (forall (a : init_args) (tag : string),
     length (a_hidden_layer_size a) = length (a_hidden_layer_type a) ->
     wiring_safe a ->
     (forall t, t ∈ a_hidden_layer_type a -> t ∈ supported_tags) ->
     last (a_hidden_layer_type a) = Some tag ->
     tag ∉ Decoder_variants ->
     lower (a_output_type a) <> "linear" ->
     lower (a_output_type a) <> "recurrent" ->
     upper (a_output_type a) ∉ list_of_activations ->
     init a = Raise [output_type_message (a_output_type a)] (SystemExit 1)) /\
  (forall (net : network) (train_shared_xy valid_shared_xy : list Row * list Row)
          (use_lhuc : bool) (layer_index : nat),
     is_Some (finetune_cost net) ->
     (layer_index <= length (rnn_layers net))%nat ->
     optimizer net ∉ ["sgd"; "adam"; "rprop"] ->
     build_finetune_functions net train_shared_xy valid_shared_xy use_lhuc layer_index
     = Raise [optimizer_message (optimizer net)] (SystemExit 1)).
Proof.
  split; [|split].
  - intros. by apply init_unsupported_hidden with (i := i).
  - intros a tag Hlen Hsafe Hsup Hlast Hdec Hlin Hrec Hact.
    apply init_unsupported_output with (tag := tag); auto.
    + apply not_true_is_false. by rewrite str_in_elem_of.
    + apply not_true_is_false. by rewrite str_in_elem_of.
  - intros. by apply build_finetune_unsupported_optimizer.
Qed.

(** layer [i] of a returned network takes what the block of lines 104-123
    left in [layer_input] and [input_size] *)
Lemma layer_wired (a : init_args) (net : network) (i : nat) (l : layer) :
  init a = Ok net ->
  rnn_layers net !! i = Some l ->
  exists st x width w,
    build_hidden_layers a i = Ok st /\
    spec_base_input (rnn_layers net) i = Some x /\
    spec_input_width a i = Some width /\
    seq2seq_mapping a i x width (ls_prev_seg_end st) (ls_encoder_count st) = Ok w /\
    layer_input l = w_input w /\ layer_n_in l = w_size w.
Proof.
  intros Hinit Hl.
  destruct (layer_built_by _ _ _ _ Hinit Hl) as (st & width & x & w & Hb & Hwd & Hx & Hw & Hmk).
  apply make_hidden_layer_Ok in Hmk as (tag & n_h & _ & _ & _ & Hin & Hnin & _).
  exists st, x, width, w. auto 10.
Qed.

Lemma reads_encoder_S (a : init_args) (j : nat) (prev : string) :
  a_hidden_layer_type a !! j = Some prev ->
  reads_encoder a (S j) = str_in prev Encoder_variants.
Proof.
  intros Hprev. unfold reads_encoder. rewrite py_index_pred.
  apply py_index_nat in Hprev. by rewrite Hprev.
Qed.

Lemma reads_encoder_0 (a : init_args) :
  reads_encoder a 0 = match last (a_hidden_layer_type a) with
                      | Some tag => str_in tag Encoder_variants
                      | None => false
                      end.
Proof.
  unfold reads_encoder. change (Z.of_nat 0 - 1)%Z with (-1)%Z.
  destruct (last (a_hidden_layer_type a)) as [tag|] eqn:Hlast.
  - apply py_index_minus_one in Hlast. by rewrite Hlast.
  - destruct (py_index (a_hidden_layer_type a) (-1)) as [tag|] eqn:Hpy; [|reflexivity].
    apply py_index_minus_one in Hpy. congruence.
Qed.

Lemma final_layer_wired (a : init_args) (net : network) (tag : string) (sz : Z) :
  init a = Ok net ->
  last (a_hidden_layer_type a) = Some tag ->
  last (a_hidden_layer_size a) = Some sz ->
  (tag ∈ Decoder_variants -> last (rnn_layers net) = Some (final_layer net)) /\
  (tag ∉ Decoder_variants ->
   exists l, last (rnn_layers net) = Some l /\
             layer_input (final_layer net) = TOutput l /\
             layer_n_in (final_layer net)
             = (if str_in tag BLSTM_variants then sz * 2 else sz)%Z).
Proof.
  intros Hinit Hlast Hsz.
  apply init_Ok in Hinit as (_ & st & fp & loss & _ & Hfp & _ & -> & _ & -> & _).
  apply py_index_minus_one in Hlast, Hsz.
  unfold make_final_layer in Hfp.
  rewrite (bind_Ok_eq _ _ _ Hsz), (bind_Ok_eq _ _ _ Hlast) in Hfp.
  apply bind_Ok in Hfp as (z & Hz & Hfp).
  assert (z = if str_in tag BLSTM_variants then sz * 2 else sz)%Z as ->.
  { destruct (str_in tag BLSTM_variants); [|congruence].
    rewrite (bind_Ok_eq _ _ _ Hsz) in Hz. congruence. }
  rewrite (bind_Ok_eq _ _ _ Hlast) in Hfp.
  destruct (str_in tag Decoder_variants) eqn:Hdec.
  - apply bind_Ok in Hfp as (l & Hl & Hfp). injection Hfp as <-.
    apply py_index_minus_one in Hl. split; [auto|].
    intros Hnot. exfalso. apply Hnot. by apply str_in_elem_of.
  - split.
    { intros Hin. apply str_in_elem_of in Hin. congruence. }
    intros _.
    repeat (split_test Hfp;
            [ apply bind_Ok in Hfp as (l & Hl & Hfp); injection Hfp as <-;
              apply py_index_minus_one in Hl; exists l; by cbn | ]).
    discriminate Hfp.
Qed.


(** C8 (as amended): at the first iteration the test of line 104 reads
    [hidden_layer_type[-1]], the last entry of the list; so when the last
    tag is an encoder variant and [ed_type] is 'VED' or 'HED', layer 0 does
    not take the network input [x] but the concatenation of the encoding of
    [x] with frame features, with the first two entries of [MLU_div] when
    'HED'. *)
Theorem C8_first_layer_reads_last_tag (a : init_args) (net : network) (l0 : layer)
    (tag : string) :
  init a = Ok net ->
  rnn_layers net !! 0%nat = Some l0 ->
  last (a_hidden_layer_type a) = Some tag ->
  tag ∈ Encoder_variants ->
  py_index (a_hidden_layer_type a) (Z.of_nat 0 - 1) = Ok tag /\
  (a_ed_type a = "VED" ->
   layer_input l0 = ved_input TX /\ layer_n_in l0 = (a_n_in a + 4)%Z) /\
  (a_ed_type a = "HED" ->
   exists lo hi,
     a_MLU_div_lengths a !! 0%nat = Some lo /\
     a_MLU_div_lengths a !! 1%nat = Some hi /\
     layer_input l0 = hed_input TX (a_n_in a) (SConst 0) lo hi /\
     layer_n_in l0 = (a_n_in a + (hi - lo))%Z).
Proof.
  intros Hinit Hl Hlast Hin.
  split; [by apply py_index_minus_one|].
  destruct (layer_wired _ _ _ _ Hinit Hl)
    as (st & x & width & w & Hb & Hx & Hwd & Hw & -> & ->).
  injection Hb as <-. injection Hx as <-. injection Hwd as <-.
  cbn [ls_prev_seg_end ls_encoder_count initial_loop_state] in Hw.
  assert (Hr : reads_encoder a 0 = true).
  { rewrite reads_encoder_0, Hlast. by apply str_in_elem_of. }
  apply seq2seq_mapping_Ok in Hw
    as [[Hr' _] | (_ & _ & [[Hved ->] | [(Hhed & lo & hi & Hlo & Hhi & ->)
                                        | (Hnved & Hnhed & _)]])];
    [congruence | | |]; cbn [w_input w_size].
  - split; [auto|]. intros Hhed. rewrite Hved in Hhed. discriminate Hhed.
  - split.
    { intros Hved. rewrite Hhed in Hved. discriminate Hved. }
    intros _. exists lo, hi. auto.
  - split; intros; contradiction.
Qed.

(** ** The encoder blocks of the hierarchical encoder-decoder *)

Lemma build_take (a : init_args) (n i : nat) (stn st : loop_state) :
  (i <= n)%nat ->
  build_hidden_layers a n = Ok stn ->
  build_hidden_layers a i = Ok st ->
  ls_rnn_layers st = take i (ls_rnn_layers stn).
Proof.
  intros Hi Hn Hb.
  destruct (build_prefix a n i stn Hi Hn) as (stk & more & Hk & Hmore).
  assert (stk = st) as -> by congruence.
  destruct (build_invariant _ _ _ Hb) as (Hlen & _).
  rewrite Hmore, <- Hlen. by rewrite take_app_length.
Qed.

Lemma block_of_base_input (layers : list layer) (i : nat) (x : texpr) (l : layer) :
  spec_base_input layers i = Some x -> layer_input l = x -> block_of l = None.
Proof.
  intros Hx Hl. unfold block_of. rewrite Hl.
  destruct i as [|j]; cbn in Hx.
  - by injection Hx as <-.
  - destruct (layers !! j); cbn in Hx; [|discriminate]. by injection Hx as <-.
Qed.

Lemma block_of_hed_input (l : layer) x width pse lo hi :
  layer_input l = hed_input x width pse lo hi ->
  block_of l = Some (MkBlock pse (SAdd pse (hed_seg_len x width)) lo hi).
Proof. intros Hl. unfold block_of. by rewrite Hl. Qed.

Lemma hed_blocks_app (l1 l2 : list layer) :
  hed_blocks (l1 ++ l2) = hed_blocks l1 ++ hed_blocks l2.
Proof. apply omap_app. Qed.

Lemma hed_blocks_cons_Some (l : layer) (ls : list layer) (b : hed_block) :
  block_of l = Some b -> hed_blocks (l :: ls) = b :: hed_blocks ls.
Proof. intros Hb. unfold hed_blocks. simpl. by rewrite Hb. Qed.

Lemma hed_blocks_cons_None (l : layer) (ls : list layer) :
  block_of l = None -> hed_blocks (l :: ls) = hed_blocks ls.
Proof. intros Hb. unfold hed_blocks. simpl. by rewrite Hb. Qed.

Lemma blocks_chained_build (a : init_args) (k : nat) (st : loop_state) :
  a_ed_type a = "HED" ->
  build_hidden_layers a k = Ok st ->
  blocks_chained a st.
Proof.
  intros Hed. revert st. induction k as [|k IH]; intros st Hb.
  - injection Hb as <-. unfold blocks_chained. cbn.
    split; [reflexivity|]. split; [reflexivity|].
    intros j b Hj. by rewrite lookup_nil in Hj.
  - apply build_hidden_layers_S_Ok in Hb as (st0 & Hb0 & Hit).
    destruct (IH _ Hb0) as (Hpse & Hlen & Hall).
    apply layer_iter_Ok in Hit as (width & x & w & l & _ & Hx & Hw & Hmk & ->).
    apply make_hidden_layer_Ok in Hmk as (tag & n_h & _ & _ & _ & Hin & _).
    unfold blocks_chained. cbn [ls_rnn_layers ls_prev_seg_end ls_encoder_count].
    rewrite hed_blocks_app.
    apply seq2seq_mapping_Ok in Hw
      as [[Hr ->] | (Hr & _ & [[Hved _] | [(_ & lo & hi & Hlo & Hhi & ->)
                                          | (_ & Hnhed & _)]])];
      [ | congruence | | contradiction ]; cbn [w_input w_prev_seg_end w_encoder_count] in *.
    + rewrite (hed_blocks_cons_None _ _ (block_of_base_input _ _ _ _ Hx Hin)).
      cbn. rewrite app_nil_r. auto.
    + rewrite (hed_blocks_cons_Some _ _ _ (block_of_hed_input _ _ _ _ _ _ Hin)).
      change (hed_blocks []) with (@nil hed_block).
      set (bs := hed_blocks (ls_rnn_layers st0)) in *.
      set (b := MkBlock _ _ lo hi).
      split; [by rewrite last_snoc|].
      split; [rewrite length_app; cbn; lia|].
      intros j b' Hj.
      destruct (decide (j < length bs)%nat) as [Hlt|Hge].
      * rewrite lookup_app_l in Hj by exact Hlt.
        destruct (Hall _ _ Hj) as (Hjlo & Hjhi & Hst).
        split; [exact Hjlo|]. split; [exact Hjhi|].
        rewrite Hst. destruct j as [|j']; [reflexivity|]. cbn.
        by rewrite lookup_app_l by lia.
      * assert (j = length bs) as ->.
        { apply lookup_lt_Some in Hj. rewrite length_app in Hj. cbn in Hj. lia. }
        rewrite lookup_app_r, Nat.sub_diag in Hj by lia.
        injection Hj as <-. cbn [b_lo b_hi b_start b].
        rewrite <- Hlen in Hlo, Hhi. split; [exact Hlo|]. split; [exact Hhi|].
        rewrite Hpse, last_lookup.
        destruct (length bs) as [|m] eqn:Hm; cbn.
        -- apply length_zero_iff_nil in Hm. by rewrite Hm.
        -- rewrite lookup_app_l by lia. reflexivity.
Qed.

(** C3: with [ed_type == 'HED'], a layer built when line 104 finds an
    encoder variant takes [seg_len = layer_input.size // input_size], the
    slice [d[prev_seg_end : prev_seg_end + seg_len]], its encoding, and the
    block [f[0 : sum(slice), MLU_div[k] : MLU_div[k+1]]] for the [k]-th
    encoder met; its width grows by [MLU_div[k+1] - MLU_div[k]].  The blocks
    are chained: the first slice of [d] starts at 0, every next one starts
    where the one before ended and takes the next column range of [f], so
    neighbouring slices and column ranges share no index. *)
Theorem C3_hed_segments (a : init_args) (net : network) :
  init a = Ok net ->
  a_ed_type a = "HED" ->
  let bs := hed_blocks (rnn_layers net) in
  (forall i l, rnn_layers net !! i = Some l -> reads_encoder a i = true ->
     exists x width pse lo hi,
       let k := encoder_hits a i in
       let seg_len := SFloorDiv (SSize x) (SConst width) in
       let seg_dur_input := TSlice TD pse (SAdd pse seg_len) in
       spec_base_input (rnn_layers net) i = Some x /\
       spec_input_width a i = Some width /\
       a_MLU_div_lengths a !! k = Some lo /\
       a_MLU_div_lengths a !! (k + 1)%nat = Some hi /\
       layer_input l
       = TConcat1 (TEncoded x seg_dur_input)
                  (TSlice2 TF (SConst 0) (SSum seg_dur_input) lo hi) /\
       layer_n_in l = (width + (hi - lo))%Z /\
       bs !! k = Some (MkBlock pse (SAdd pse seg_len) lo hi)) /\
  length bs = encoder_hits a (length (a_hidden_layer_type a)) /\
  (forall b, bs !! 0%nat = Some b -> b_start b = SConst 0) /\
  (forall k b b', bs !! k = Some b -> bs !! S k = Some b' ->
     b_start b' = b_end b /\ b_lo b' = b_hi b /\
     (forall c : Z, ~ ((b_lo b <= c < b_hi b)%Z /\ (b_lo b' <= c < b_hi b')%Z)) /\
     (forall (sval : sexpr -> Z) (t : Z),
        ~ ((sval (b_start b) <= t < sval (b_end b))%Z /\
           (sval (b_start b') <= t < sval (b_end b'))%Z))).
Proof.
  intros Hinit Hed bs.
  pose proof Hinit as Hinit'.
  apply init_Ok in Hinit' as (_ & stn & fp & loss & Hbn & _ & _ & Hlayers & _).
  pose proof (blocks_chained_build _ _ _ Hed Hbn) as (_ & Hlen & Hall).
  destruct (build_invariant _ _ _ Hbn) as (Hnlen & _ & _ & Hcnt).
  rewrite <- Hlayers in Hlen, Hall. fold bs in Hlen, Hall.
  split; [|split; [|split]].
  - intros i l Hl Hr.
    destruct (layer_wired _ _ _ _ Hinit Hl)
      as (st & x & width & w & Hb & Hx & Hwd & Hw & Hin & Hnin).
    destruct (build_invariant _ _ _ Hb) as (Hilen & _ & _ & Hicnt).
    pose proof (blocks_chained_build _ _ _ Hed Hb) as (_ & Hblen & _).
    apply seq2seq_mapping_Ok in Hw
      as [[Hr' _] | (_ & _ & [[Hved _] | [(_ & lo & hi & Hlo & Hhi & ->)
                                         | (_ & Hnhed & _)]])];
      [congruence | congruence | | contradiction].
    cbn [w_input w_size] in *. rewrite (Hicnt Hed) in *.
    exists x, width, (ls_prev_seg_end st), lo, hi. cbn zeta.
    repeat (split; [assumption|]).
    assert (Hi : (i <= length (a_hidden_layer_type a))%nat).
    { apply lookup_lt_Some in Hl. rewrite Hlayers, Hnlen in Hl. lia. }
    pose proof (build_take _ _ _ _ _ Hi Hbn Hb) as Htake.
    rewrite <- Hlayers in Htake.
    unfold bs.
    rewrite <- (take_drop_middle _ _ _ Hl), hed_blocks_app, <- Htake.
    rewrite (hed_blocks_cons_Some _ _ _ (block_of_hed_input _ _ _ _ _ _ Hin)).
    rewrite lookup_app_r by lia. rewrite Hblen, Nat.sub_diag. reflexivity.
  - rewrite Hlen. by apply Hcnt.
  - intros b Hb0. by destruct (Hall _ _ Hb0) as (_ & _ & ->).
  - intros k b b' Hk Hk'.
    destruct (Hall _ _ Hk) as (_ & Hhi & _).
    destruct (Hall _ _ Hk') as (Hlo' & _ & Hst').
    cbn [block_before] in Hst'. rewrite Hk in Hst'. cbn [end_of] in Hst'.
    replace (k + 1)%nat with (S k) in Hhi by lia.
    assert (Hcol : b_lo b' = b_hi b) by congruence.
    split; [exact Hst'|]. split; [exact Hcol|]. split.
    + intros c. lia.
    + intros sval t. rewrite Hst'. lia.
Qed.

(** ** The loss *)

Lemma multiclass_hinge_loss_Ok (predictions targets : texpr) (delta : Z) (c : texpr) :
  multiclass_hinge_loss ndim predictions targets delta = Ok c ->
  exists targets',
    ((ndim targets = ndim predictions /\ targets' = targets) \/
     (ndim targets = (ndim predictions - 1)%Z /\
      targets' = TToOneHot targets (SShape1 predictions))) /\
    c = spec_hinge_loss predictions targets' delta.
Proof.
  unfold multiclass_hinge_loss. intros H.
  apply bind_Ok in H as (targets' & Ht & H). exists targets'. split.
  - destruct (Z.eqb_spec (ndim targets) (ndim predictions - 1)) as [Heq|_].
    + right. split; [exact Heq | congruence].
    + destruct (Z.eqb_spec (ndim targets) (ndim predictions)) as [Heq|_];
        cbn [negb] in Ht; [|discriminate].
      left. split; [exact Heq | congruence].
  - unfold spec_hinge_loss. congruence.
Qed.


(** ** Compiling a graph *)

Lemma missing_input_false (g : givens Row) (t : texpr) :
  (forall v, t_reads uses_training v t = true -> given g v = true) ->
  missing_input g t = false.
Proof.
  intros H. unfold missing_input.
  destruct (existsb _ input_vars) eqn:E; [|reflexivity].
  apply existsb_exists in E as (v & _ & Hv). apply andb_prop in Hv as [Hr Hg].
  rewrite (H v Hr) in Hg. discriminate Hg.
Qed.

Lemma theano_compile_no_updates (out : texpr) (g : givens Row) :
  theano_compile out ∅ g
  = if missing_input g out then Raise [] MissingInputError else Ok (MkFunction out ∅ g).
Proof.
  unfold theano_compile. rewrite map_to_list_empty. cbn [existsb].
  by rewrite orb_false_r.
Qed.

Lemma theano_compile_missing (out : texpr) (upds : gmap shared uexpr) (g : givens Row) :
  missing_input g out = true -> theano_compile out upds g = Raise [] MissingInputError.
Proof. intros H. unfold theano_compile. by rewrite H. Qed.

Lemma theano_compile_Ok (out : texpr) (upds : gmap shared uexpr) (g : givens Row) :
  missing_input g out = false ->
  (forall s e t, upds !! s = Some e -> t ∈ u_graphs e -> missing_input g t = false) ->
  theano_compile out upds g = Ok (MkFunction out upds g).
Proof.
  intros Hout Hupd. unfold theano_compile. rewrite Hout. cbn [orb].
  destruct (existsb _ (map_to_list upds)) eqn:E; [|reflexivity].
  apply existsb_exists in E as ([s e] & Hin & He).
  apply existsb_exists in He as (t & Ht & Hmiss).
  apply list_elem_of_In, elem_of_map_to_list in Hin. apply list_elem_of_In in Ht.
  rewrite (Hupd s e t Hin Ht) in Hmiss. discriminate Hmiss.
Qed.

Lemma pf_compile_all_given (out : texpr) (upds : gmap shared pexpr) (g : givens Row) :
  (forall v, given g v = true) -> pf_compile out upds g = Ok (MkPF out upds g).
Proof.
  intros Hg.
  assert (Hno : forall t, missing_input g t = false).
  { intros t. apply missing_input_false. auto. }
  unfold pf_compile. rewrite Hno. cbn [orb].
  destruct (existsb _ (map_to_list upds)) eqn:E; [|reflexivity].
  apply existsb_exists in E as ([s e] & _ & He).
  apply existsb_exists in He as (t & _ & Hmiss).
  rewrite Hno in Hmiss. discriminate Hmiss.
Qed.

(** ** The inputs the graph of a network reads *)

Lemma t_reads_output (v : input_var) (l : layer) :
  t_reads uses_training v (TOutput l)
  = t_reads uses_training v (layer_input l)
    || match v with
       | InIsTrain => layer_dropout l && uses_training l
       | _ => false
       end.
Proof. by destruct l. Qed.

Lemma make_hidden_layer_dropout (a : init_args) i x size_in (l : layer) :
  make_hidden_layer a i x size_in = Ok l -> layer_dropout l = true.
Proof.
  unfold make_hidden_layer. intros H.
  apply bind_Ok in H as (tag & _ & H).
  repeat (split_test H; [apply construct_Ok in H as (n_h & _ & ->); reflexivity|]).
  discriminate H.
Qed.

Lemma encoded_before_S (a : init_args) (k : nat) :
  encoded_before a (S k)
  = encoded_before a k
    || (reads_encoder a k
        && (String.eqb (a_ed_type a) "VED" || String.eqb (a_ed_type a) "HED")).
Proof.
  unfold encoded_before. rewrite encoder_hits_S.
  destruct (reads_encoder a k).
  - replace (0 <? encoder_hits a k + 1)%nat with true
      by (symmetry; apply Nat.ltb_lt; lia).
    cbn [andb]. by destruct (0 <? encoder_hits a k)%nat, (_ || _).
  - rewrite Nat.add_0_r. cbn [andb]. by rewrite orb_false_r.
Qed.

Lemma build_reads (a : init_args) (k : nat) (st : loop_state) :
  build_hidden_layers a k = Ok st ->
  s_reads uses_training InY (ls_prev_seg_end st) = false /\
  (s_reads uses_training InIsTrain (ls_prev_seg_end st) = true ->
   existsb uses_training (ls_rnn_layers st) = true) /\
  forall i l, ls_rnn_layers st !! i = Some l ->
              output_reads a (ls_rnn_layers st) (S i) (TOutput l).
Proof.
  revert st. induction k as [|k IH]; intros st Hb.
  - injection Hb as <-. cbn. split; [reflexivity|]. split; [discriminate|].
    intros i l Hl. by rewrite lookup_nil in Hl.
  - apply build_hidden_layers_S_Ok in Hb as (st0 & Hb0 & Hit).
    destruct (IH _ Hb0) as (Hy & Ht & Hlayers).
    destruct (build_invariant _ _ _ Hb0) as (Hlen & _).
    apply layer_iter_Ok in Hit as (size_in & x & w & l & _ & Hx & Hw & Hmk & ->).
    cbn [ls_rnn_layers ls_prev_seg_end].
    assert (Hbase : output_reads a (ls_rnn_layers st0) k x).
    { destruct k as [|j]; cbn in Hx.
      - injection Hx as <-. unfold output_reads. cbn. repeat split; reflexivity.
      - destruct (ls_rnn_layers st0 !! j) as [lj|] eqn:Hlj; [|discriminate].
        injection Hx as <-. by apply Hlayers. }
    pose proof (make_hidden_layer_dropout _ _ _ _ _ Hmk) as Hdrop.
    apply make_hidden_layer_Ok in Hmk as (tag & n_h & _ & _ & _ & Hin & _).
    destruct Hbase as (Hx1 & Hy1 & Hd1 & Hf1 & Ht1).
    rewrite take_ge in Ht1 by lia.
    assert (Hnew : output_reads a (ls_rnn_layers st0 ++ [l]) (S k) (TOutput l) /\
                   s_reads uses_training InY (w_prev_seg_end w) = false /\
                   (s_reads uses_training InIsTrain (w_prev_seg_end w) = true ->
                    existsb uses_training (ls_rnn_layers st0 ++ [l]) = true)).
    { unfold output_reads.
      rewrite take_ge by (rewrite length_app; cbn; lia).
      rewrite !t_reads_output, Hin, Hdrop, existsb_app, encoded_before_S.
      cbn [existsb andb].
      apply seq2seq_mapping_Ok in Hw
        as [[Hr ->] | (Hr & _ & [[Hved ->] | [(Hhed & lo & hi & _ & _ & ->)
                                            | (Hnved & Hnhed & ->)]])];
        cbn [w_input w_prev_seg_end]; rewrite Hr.
      all: unfold ved_input, hed_input, hed_dur_slice, hed_seg_len;
        cbn [t_reads s_reads];
        rewrite ?Hx1, ?Hy1, ?Hd1, ?Hf1, ?Ht1, ?Hy.
      all: try rewrite Hved; try rewrite Hhed;
        try (apply String.eqb_neq in Hnved, Hnhed; rewrite Hnved, Hnhed);
        cbn [String.eqb Ascii.eqb Bool.eqb andb orb].
      all: destruct (s_reads uses_training InIsTrain (ls_prev_seg_end st0)) eqn:Hp;
        [rewrite (Ht eq_refl) | clear Ht].
      all: repeat match goal with
             | |- context [s_reads uses_training ?v ?s] =>
                 destruct (s_reads uses_training v s)
             end.
      all: destruct (encoded_before a k), (existsb uses_training (ls_rnn_layers st0)),
             (uses_training l); cbn;
        repeat split;
        first [reflexivity | discriminate | (intros; reflexivity) | (intros; discriminate)]. }
    destruct Hnew as (Hl & Hy' & Ht'). split; [exact Hy'|]. split; [exact Ht'|].
    intros i l' Hi.
    destruct (decide (i < k)%nat) as [Hlt|Hge].
    + rewrite lookup_app_l in Hi by lia.
      destruct (Hlayers i l' Hi) as (H1 & H2 & H3 & H4 & H5).
      unfold output_reads. rewrite take_app_le by lia. repeat split; assumption.
    + pose proof (lookup_lt_Some _ _ _ Hi) as Hlt. rewrite length_app in Hlt.
      cbn in Hlt. assert (i = k) as -> by lia.
      rewrite lookup_app_r, Hlen, Nat.sub_diag in Hi by lia.
      injection Hi as <-. exact Hl.
Qed.

Lemma hidden_layer_reads (a : init_args) (net : network) (i : nat) (l : layer) :
  init a = Ok net ->
  rnn_layers net !! i = Some l ->
  output_reads a (rnn_layers net) (S i) (TOutput l).
Proof.
  intros Hinit Hl.
  apply init_Ok in Hinit as (_ & st & fp & loss & Hb & _ & _ & Hlayers & _).
  rewrite Hlayers in *. by apply (build_reads a _ st Hb).
Qed.

Lemma init_layers_length (a : init_args) (net : network) :
  init a = Ok net -> length (rnn_layers net) = length (a_hidden_layer_type a).
Proof.
  intros Hinit.
  apply init_Ok in Hinit as (_ & st & fp & loss & Hb & _ & _ & -> & _).
  by destruct (build_invariant _ _ _ Hb) as (-> & _).
Qed.

(** the output layer is the last hidden layer, or a layer of its own that
    takes the output of the last hidden layer and no [training] argument *)
Lemma make_final_layer_cases (a : init_args) (st : loop_state)
    (fp : layer * list param) :
  make_final_layer a st = Ok fp ->
  last (ls_rnn_layers st) = Some fp.1 \/
  exists l, last (ls_rnn_layers st) = Some l /\
            layer_input fp.1 = TOutput l /\ layer_dropout fp.1 = false.
Proof.
  unfold make_final_layer. intros H.
  apply bind_Ok in H as (sz & _ & H). apply bind_Ok in H as (ty & _ & H).
  apply bind_Ok in H as (z & _ & H). apply bind_Ok in H as (ty' & _ & H).
  split_test H.
  { apply bind_Ok in H as (l & Hl & H). injection H as <-.
    left. by apply py_index_minus_one. }
  right.
  repeat (split_test H;
          [ apply bind_Ok in H as (l & Hl & H); injection H as <-;
            apply py_index_minus_one in Hl; exists l; by cbn | ]).
  discriminate H.
Qed.

Lemma final_layer_reads (a : init_args) (net : network) :
  init a = Ok net ->
  output_reads a (rnn_layers net) (length (rnn_layers net)) (TOutput (final_layer net)).
Proof.
  intros Hinit. pose proof Hinit as Hparts.
  apply init_Ok in Hparts
    as (_ & st & fp & loss & _ & Hfp & _ & Hlayers & _ & Hfinal & _).
  assert (Hlast : forall l, last (rnn_layers net) = Some l ->
            output_reads a (rnn_layers net) (length (rnn_layers net)) (TOutput l)).
  { intros l Hl. rewrite last_lookup in Hl.
    pose proof (lookup_lt_Some _ _ _ Hl) as Hlt.
    pose proof (hidden_layer_reads _ _ _ _ Hinit Hl) as Hr.
    by replace (S (pred (length (rnn_layers net)))) with (length (rnn_layers net))
      in Hr by lia. }
  rewrite Hfinal.
  destruct (make_final_layer_cases _ _ _ Hfp) as [Hl | (l & Hl & Hin & Hdrop)].
  - rewrite <- Hlayers in Hl. by apply Hlast.
  - rewrite <- Hlayers in Hl. apply Hlast in Hl.
    unfold output_reads. rewrite !(t_reads_output _ fp.1), Hin, Hdrop.
    cbn [andb]. rewrite !orb_false_r. exact Hl.
Qed.

Lemma make_loss_reads (a : init_args) (out c e : texpr) (v : input_var) :
  make_loss ndim a out = Ok (Some (c, e)) ->
  v <> InY ->
  t_reads uses_training v c = t_reads uses_training v out /\
  t_reads uses_training v e = t_reads uses_training v out.
Proof.
  unfold make_loss. intros H Hv.
  split_test H.
  { injection H as <- <-. destruct v; try (by destruct Hv);
      cbn [categorical_crossentropy_loss t_reads]; by rewrite orb_false_r. }
  split_test H.
  { apply bind_Ok in H as (c' & Hc & H). apply bind_Ok in H as (e' & He & H).
    injection H as <- <-.
    apply multiclass_hinge_loss_Ok in Hc as (t1 & [[_ ->] | [_ ->]] & ->);
      apply multiclass_hinge_loss_Ok in He as (t2 & [[_ ->] | [_ ->]] & ->);
      unfold spec_hinge_loss; destruct v; try (by destruct Hv);
      cbn [t_reads s_reads existsb];
      destruct (t_reads uses_training _ out); split; reflexivity. }
  split_test H; [|discriminate H].
  destruct (a_rnn_batch_training a); injection H as <- <-;
    unfold mean_squared_error; destruct v; try (by destruct Hv);
    cbn [t_reads s_reads existsb];
    destruct (t_reads uses_training _ out); split; reflexivity.
Qed.

(** what the cost and the error of a returned network read of [d] and [f] *)
Lemma init_loss_reads (a : init_args) (net : network) (cost errs : texpr) :
  init a = Ok net ->
  finetune_cost net = Some cost ->
  errors net = Some errs ->
  t_reads uses_training InD cost = encoded a /\
  t_reads uses_training InF cost = encoded a /\
  t_reads uses_training InD errs = encoded a /\
  t_reads uses_training InF errs = encoded a.
Proof.
  intros Hinit Hcost Herrs.
  destruct (final_layer_reads _ _ Hinit) as (_ & _ & Hd & Hf & _).
  rewrite (init_layers_length _ _ Hinit) in Hd, Hf. fold (encoded a) in Hd, Hf.
  apply init_Ok in Hinit
    as (_ & st & fp & loss & _ & _ & Hloss & _ & _ & Hfinal & _ & Hc & He & _).
  rewrite Hfinal in Hd, Hf.
  destruct loss as [[c e]|]; rewrite Hc in Hcost; rewrite He in Herrs;
    [|discriminate Hcost].
  injection Hcost as <-. injection Herrs as <-.
  destruct (make_loss_reads _ _ _ _ InD Hloss ltac:(discriminate)) as [-> ->].
  destruct (make_loss_reads _ _ _ _ InF Hloss ltac:(discriminate)) as [-> ->].
  auto.
Qed.

(** what the output of a returned network reads *)
Lemma final_output_reads (a : init_args) (net : network) :
  init a = Ok net ->
  t_reads uses_training InY (TOutput (final_layer net)) = false /\
  t_reads uses_training InD (TOutput (final_layer net)) = encoded a /\
  t_reads uses_training InF (TOutput (final_layer net)) = encoded a /\
  t_reads uses_training InIsTrain (TOutput (final_layer net))
  = existsb uses_training (rnn_layers net).
Proof.
  intros Hinit.
  destruct (final_layer_reads _ _ Hinit) as (_ & Hy & Hd & Hf & Ht).
  rewrite take_ge in Ht by lia.
  rewrite (init_layers_length _ _ Hinit) in Hd, Hf. auto.
Qed.

Lemma init_net_d_f (a : init_args) (net : network) :
  init a = Ok net ->
  net_d_f net = if String.eqb (a_network_type a) "S2S" then Ok tt
                else Raise [] AttributeError.
Proof.
  intros Hinit.
  apply init_Ok in Hinit
    as (_ & ? & ? & ? & _ & _ & _ & _ & _ & _ & _ & _ & _ & _ & Hdf & _).
  unfold net_d_f. by rewrite Hdf.
Qed.

(** the inputs that the [givens] of the methods leave unbound *)
Lemma missing_input_xy (t : texpr) (x y : list Row) (z : Z) :
  missing_input (MkGivens (Some x) (Some y) None None (Some z)) t
  = t_reads uses_training InD t || t_reads uses_training InF t.
Proof.
  unfold missing_input. cbn.
  by rewrite !andb_false_r, !andb_true_r, !orb_false_r.
Qed.

Lemma missing_input_xyd (t : texpr) (x y : list Row) (d : list Z) (z : Z) :
  missing_input (MkGivens (Some x) (Some y) (Some d) None (Some z)) t
  = t_reads uses_training InF t.
Proof.
  unfold missing_input. cbn.
  by rewrite !andb_false_r, !andb_true_r, !orb_false_r.
Qed.

Lemma missing_input_x (t : texpr) (x : list Row) (z : Z) :
  missing_input (MkGivens (Some x) None None None (Some z)) t
  = t_reads uses_training InY t || t_reads uses_training InD t
    || t_reads uses_training InF t.
Proof.
  unfold missing_input. cbn.
  rewrite !andb_false_r, !andb_true_r, !orb_false_r. cbn [orb].
  by rewrite !orb_assoc.
Qed.

Lemma missing_input_xd (t : texpr) (x : list Row) (d : list Z) (z : Z) :
  missing_input (MkGivens (Some x) None (Some d) None (Some z)) t
  = t_reads uses_training InY t || t_reads uses_training InF t.
Proof.
  unfold missing_input. cbn.
  by rewrite !andb_false_r, !andb_true_r, !orb_false_r.
Qed.

Lemma missing_input_xdf (t : texpr) (x : list Row) (d : list Z) (f : list Row) (z : Z) :
  missing_input (MkGivens (Some x) None (Some d) (Some f) (Some z)) t
  = t_reads uses_training InY t.
Proof.
  unfold missing_input. cbn.
  by rewrite !andb_false_r, !andb_true_r, !orb_false_r.
Qed.

Lemma missing_input_only_x (t : texpr) (x : list Row) :
  missing_input (MkGivens (Some x) None None None None) t
  = t_reads uses_training InY t || t_reads uses_training InD t
    || t_reads uses_training InF t || t_reads uses_training InIsTrain t.
Proof.
  unfold missing_input. cbn.
  rewrite !andb_false_r, !andb_true_r, !orb_false_r. cbn [orb].
  by rewrite !orb_assoc.
Qed.

(** ** Prediction *)

Lemma py_slice_all {A : Type} (l : list A) : py_slice l 0 (length l) = l.
Proof. unfold py_slice. rewrite Nat.sub_0_r, drop_0. apply firstn_all. Qed.

Lemma py_slice_prefix {A : Type} (l : list A) (n : nat) : py_slice l 0 n = take n l.
Proof. unfold py_slice. by rewrite Nat.sub_0_r, drop_0. Qed.

Lemma call_no_updates (out : texpr) (g : givens Row) (args : list V) (st : gmap shared V) :
  call (MkFunction out ∅ g) args st = (graph_eval g st out, st).
Proof. unfold call. cbn. by rewrite omap_empty, (left_id_L ∅ (∪)). Qed.


(** ** Shared variables of a returned network *)

Lemma make_updates_lookup (ps : list param) (p : param) :
  p ∈ ps -> make_updates ps !! p = Some (SVel p).
Proof.
  unfold make_updates.
  assert (Hgen : forall m : gmap param shared,
             m !! p = Some (SVel p) \/ p ∈ ps ->
             foldl (fun m q => <[q := SVel q]> m) m ps !! p = Some (SVel p)).
  { induction ps as [|q ps IH]; intros m Hm; cbn.
    - destruct Hm as [Hm | Hin]; [exact Hm | by apply elem_of_nil in Hin].
    - apply IH. destruct (decide (q = p)) as [->|Hne].
      + left. apply lookup_insert_eq.
      + rewrite lookup_insert_ne by exact Hne.
        destruct Hm as [Hm | Hin]; [by left|].
        apply elem_of_cons in Hin as [-> | Hin]; [contradiction | by right]. }
  intros Hin. apply Hgen. by right.
Qed.

Lemma allocate_params_lookup (ps : list param) (p : param) :
  p ∈ ps -> allocate_params ps !! SParam p = Some (init_value p).
Proof.
  unfold allocate_params.
  assert (Hgen : forall m : gmap shared V,
             m !! SParam p = Some (init_value p) \/ p ∈ ps ->
             foldl (fun st q => <[SParam q := init_value q]> st) m ps !! SParam p
             = Some (init_value p)).
  { induction ps as [|q ps IH]; intros m Hm; cbn.
    - destruct Hm as [Hm | Hin]; [exact Hm | by apply elem_of_nil in Hin].
    - apply IH. destruct (decide (q = p)) as [->|Hne].
      + left. apply lookup_insert_eq.
      + rewrite lookup_insert_ne by congruence.
        destruct Hm as [Hm | Hin]; [by left|].
        apply elem_of_cons in Hin as [-> | Hin]; [contradiction | by right]. }
  intros Hin. apply Hgen. by right.
Qed.

Lemma allocate_updates_param (ps : list param) (st0 : gmap shared V) (p : param) :
  allocate_updates ps st0 !! SParam p = st0 !! SParam p.
Proof.
  unfold allocate_updates. revert st0.
  induction ps as [|q ps IH]; intros st0; cbn; [reflexivity|].
  rewrite IH. destruct (st0 !! SParam q); [|reflexivity].
  by rewrite lookup_insert_ne.
Qed.

Lemma allocate_updates_vel (ps : list param) (st0 : gmap shared V) (p : param) :
  (forall q, q ∈ ps -> st0 !! SParam q = Some (init_value q)) ->
  p ∈ ps ->
  allocate_updates ps st0 !! SVel p = Some (np_zeros (get_shape (init_value p))).
Proof.
  unfold allocate_updates.
  assert (Hgen : forall st : gmap shared V,
             (forall q, q ∈ ps -> st !! SParam q = Some (init_value q)) ->
             st !! SVel p = Some (np_zeros (get_shape (init_value p))) \/ p ∈ ps ->
             foldl (fun st q => match st !! SParam q with
                                | Some v => <[SVel q := np_zeros (get_shape v)]> st
                                | None => st
                                end) st ps !! SVel p
             = Some (np_zeros (get_shape (init_value p)))).
  { induction ps as [|q ps IH]; intros st Hst Hp; cbn.
    - destruct Hp as [Hp | Hin]; [exact Hp | by apply elem_of_nil in Hin].
    - rewrite (Hst q) by apply list_elem_of_here.
      apply IH.
      + intros r Hr. rewrite lookup_insert_ne by discriminate.
        apply Hst. by apply list_elem_of_further.
      + destruct (decide (q = p)) as [->|Hne].
        * left. apply lookup_insert_eq.
        * rewrite lookup_insert_ne by congruence.
          destruct Hp as [Hp | Hin]; [by left|].
          apply elem_of_cons in Hin as [-> | Hin]; [contradiction | by right]. }
  intros Hst Hin. apply Hgen; [exact Hst | by right].
Qed.

(** the shared values a returned network starts with *)
Lemma initial_store_lookup (net : network) (p : param) :
  p ∈ params net ->
  initial_store net !! SParam p = Some (init_value p) /\
  initial_store net !! SVel p = Some (np_zeros (get_shape (init_value p))).
Proof.
  intros Hin. unfold initial_store. split.
  - rewrite allocate_updates_param. by apply allocate_params_lookup.
  - apply allocate_updates_vel; [|exact Hin].
    intros q Hq. by apply allocate_params_lookup.
Qed.

(** ** The updates of plain momentum SGD *)

Lemma sgd_loop_spec (net : network) (cost : texpr) (fz : nat) (ps : list param) :
  (forall p, p ∈ ps -> updates net !! p = Some (SVel p)) ->
  forall (k : nat) (m : gmap shared uexpr),
  exists m',
    for_each (sgd_iter net fz)
             (zip (seq k (length ps)) (zip ps (map (UGrad cost) ps))) m = Ok m' /\
    (forall p, p ∈ ps -> m' !! SVel p = Some (velocity_update cost p)) /\
    (forall p, p ∉ ps -> m' !! SVel p = m !! SVel p) /\
    (forall j p, ps !! j = Some p -> (fz <= k + j)%nat ->
                 m' !! SParam p = Some (weight_update cost p)) /\
    (forall p, (forall j, ps !! j = Some p -> (k + j < fz)%nat) ->
               m' !! SParam p = m !! SParam p).
Proof.
  induction ps as [|q ps IH]; intros Hupd k m.
  - exists m. cbn. split; [reflexivity|]. split; [|split; [|split]].
    + intros p Hp. by apply elem_of_nil in Hp.
    + reflexivity.
    + intros j p Hj. by rewrite lookup_nil in Hj.
    + reflexivity.
  - cbn [length seq map zip zip_with for_each].
    set (m1 := if (fz <=? k)%nat
               then <[SParam q := weight_update cost q]>
                      (<[SVel q := velocity_update cost q]> m)
               else <[SVel q := velocity_update cost q]> m).
    assert (Hstep : sgd_iter net fz (k, (q, UGrad cost q)) m = Ok m1).
    { unfold sgd_iter. cbn [fst snd].
      rewrite (Hupd q) by apply list_elem_of_here. reflexivity. }
    rewrite (bind_Ok_eq _ _ _ Hstep).
    destruct (IH (fun p Hp => Hupd p (list_elem_of_further _ _ _ Hp)) (S k) m1)
      as (m' & Hrun & Hvel & Hvel' & Hpar & Hpar').
    exists m'. split; [exact Hrun|].
    assert (Hm1vel : m1 !! SVel q = Some (velocity_update cost q)).
    { unfold m1. destruct (fz <=? k)%nat.
      - rewrite lookup_insert_ne by discriminate. apply lookup_insert_eq.
      - apply lookup_insert_eq. }
    assert (Hm1vel' : forall p, p <> q -> m1 !! SVel p = m !! SVel p).
    { intros p Hne. unfold m1. destruct (fz <=? k)%nat.
      - rewrite lookup_insert_ne by discriminate.
        by rewrite lookup_insert_ne by congruence.
      - by rewrite lookup_insert_ne by congruence. }
    split; [|split; [|split]].
    + intros p Hp. destruct (decide (p ∈ ps)) as [Hin|Hnin]; [by apply Hvel|].
      apply elem_of_cons in Hp as [-> | Hp]; [|contradiction].
      by rewrite (Hvel' _ Hnin).
    + intros p Hp. rewrite (Hvel' p).
      * apply Hm1vel'. intros ->. apply Hp, list_elem_of_here.
      * intros Hin. by apply Hp, list_elem_of_further.
    + intros j p Hj Hfz. destruct j as [|j].
      * injection Hj as ->. rewrite Nat.add_0_r in Hfz.
        destruct (decide (p ∈ ps)) as [Hin|Hnin].
        -- apply list_elem_of_lookup in Hin as [j Hj].
           apply (Hpar j); [exact Hj | lia].
        -- rewrite Hpar'.
           ++ unfold m1. apply Nat.leb_le in Hfz. rewrite Hfz.
              apply lookup_insert_eq.
           ++ intros j Hj. exfalso. apply Hnin. by eapply list_elem_of_lookup_2.
      * apply (Hpar j); [exact Hj | lia].
    + intros p Hp. rewrite Hpar'.
      * pose proof (Hp 0%nat) as Hp0. cbn in Hp0. unfold m1.
        destruct (Nat.leb_spec fz k) as [Hle|Hlt].
        -- rewrite lookup_insert_ne.
           ++ by rewrite lookup_insert_ne by discriminate.
           ++ intros Heq. injection Heq as ->. specialize (Hp0 eq_refl). lia.
        -- by rewrite lookup_insert_ne by discriminate.
      * intros j Hj. specialize (Hp (S j) Hj). lia.
Qed.

Lemma call_store_lookup (fn : theano_function Row) (args : list V) (st : gmap shared V)
    (s : shared) :
  (call fn args st).2 !! s
  = match f_updates fn !! s ≫= ueval args (f_givens fn) st with
    | Some v => Some v
    | None => st !! s
    end.
Proof.
  unfold call. cbn [snd]. rewrite lookup_union, lookup_omap.
  destruct (f_updates fn !! s ≫= ueval args (f_givens fn) st);
    destruct (st !! s); reflexivity.
Qed.

Lemma ueval_velocity (lr_v mom_v : V) (g : givens Row) (st : gmap shared V)
    (cost : texpr) (p : param) (v : V) :
  st !! SVel p = Some v ->
  ueval [lr_v; mom_v] g st (velocity_update cost p)
  = Some (new_velocity lr_v mom_v v (grad_eval g st cost p)).
Proof. intros Hv. cbn. by rewrite Hv. Qed.

Lemma ueval_weight (lr_v mom_v : V) (g : givens Row) (st : gmap shared V)
    (cost : texpr) (p : param) (v w : V) :
  st !! SVel p = Some v ->
  st !! SParam p = Some w ->
  ueval [lr_v; mom_v] g st (weight_update cost p)
  = Some (t_add w (new_velocity lr_v mom_v v (grad_eval g st cost p))).
Proof. intros Hv Hw. cbn. by rewrite Hw, Hv. Qed.

Lemma selected_params_subseteq (net : network) (use_lhuc : bool) (p : param) :
  p ∈ selected_params net use_lhuc -> p ∈ params net.
Proof.
  unfold selected_params. destruct use_lhuc; [|auto].
  intros Hin. by apply list_elem_of_filter in Hin as [_ Hin].
Qed.

Lemma gradients_of_insert (cost : texpr) (m : gmap shared uexpr) (s : shared)
    (e : uexpr) :
  gradients_of cost m ->
  (forall t, t ∈ u_graphs e -> t = cost) ->
  gradients_of cost (<[s := e]> m).
Proof.
  intros Hm He s' e' t Hl Ht. destruct (decide (s = s')) as [<-|Hne].
  - rewrite lookup_insert_eq in Hl. injection Hl as <-. by apply He.
  - rewrite lookup_insert_ne in Hl by exact Hne. by apply (Hm s' e').
Qed.

Lemma sgd_upd_graphs (cost : texpr) (s : shared) (p : param) (t : texpr) :
  t ∈ u_graphs (sgd_upd s (UGrad cost p)) -> t = cost.
Proof. cbn. intros Ht. by apply list_elem_of_singleton in Ht. Qed.

Lemma sgd_loop_gradients (net : network) (cost : texpr) (fz : nat) (ps : list param) :
  forall (k : nat) (m m' : gmap shared uexpr),
    for_each (sgd_iter net fz)
             (zip (seq k (length ps)) (zip ps (map (UGrad cost) ps))) m = Ok m' ->
    gradients_of cost m -> gradients_of cost m'.
Proof.
  induction ps as [|q ps IH]; intros k m m' Hrun Hm.
  - cbn in Hrun. by injection Hrun as <-.
  - cbn [length seq map zip zip_with for_each] in Hrun.
    apply bind_Ok in Hrun as (m1 & Hstep & Hrun).
    apply (IH _ _ _ Hrun).
    unfold sgd_iter in Hstep. cbn [fst snd] in Hstep.
    apply bind_Ok in Hstep as (w & _ & Hstep). injection Hstep as <-.
    destruct (fz <=? k)%nat.
    + apply gradients_of_insert; [apply gradients_of_insert; [exact Hm|]|].
      * apply sgd_upd_graphs.
      * cbn. intros t Ht. by apply list_elem_of_singleton in Ht.
    + apply gradients_of_insert; [exact Hm | apply sgd_upd_graphs].
Qed.

Lemma theano_compile_gradients (cost errs : texpr) (upds : gmap shared uexpr)
    (g : givens Row) :
  missing_input g errs = false ->
  missing_input g cost = false ->
  gradients_of cost upds ->
  theano_compile errs upds g = Ok (MkFunction errs upds g).
Proof.
  intros Herrs Hcost Hupd. apply theano_compile_Ok; [exact Herrs|].
  intros s e t Hl Ht. by rewrite (Hupd s e t Hl Ht).
Qed.

(** [build_finetune_functions] with 'sgd': the two compiled functions *)
Lemma build_finetune_sgd (net : network)
    (train_shared_xy valid_shared_xy : list Row * list Row)
    (use_lhuc : bool) (layer_index : nat) (cost errs : texpr) :
  optimizer net = "sgd" ->
  finetune_cost net = Some cost ->
  errors net = Some errs ->
  (forall p, p ∈ params net -> updates net !! p = Some (SVel p)) ->
  (layer_index <= length (rnn_layers net))%nat ->
  t_reads uses_training InD cost = false ->
  t_reads uses_training InF cost = false ->
  t_reads uses_training InD errs = false ->
  t_reads uses_training InF errs = false ->
  let ps := selected_params net use_lhuc in
  let fz := freeze_count net layer_index in
  exists upds,
    build_finetune_functions net train_shared_xy valid_shared_xy use_lhuc layer_index
    = Ok (MkFunction errs upds
            (MkGivens (Some train_shared_xy.1) (Some train_shared_xy.2)
                      None None (Some 1%Z)),
          MkFunction errs ∅
            (MkGivens (Some valid_shared_xy.1) (Some valid_shared_xy.2)
                      None None (Some 0%Z))) /\
    (forall p, p ∈ ps -> upds !! SVel p = Some (velocity_update cost p)) /\
    (forall p, p ∉ ps -> upds !! SVel p = None) /\
    (forall j p, ps !! j = Some p -> (fz <= j)%nat ->
                 upds !! SParam p = Some (weight_update cost p)) /\
    (forall p, (forall j, ps !! j = Some p -> (j < fz)%nat) ->
               upds !! SParam p = None).
Proof.
  intros Hopt Hcost Herrs Hupd Hli Hcd Hcf Hed Hef ps fz.
  destruct (sgd_loop_spec net cost fz ps) with (k := 0%nat) (m := ∅ : gmap shared uexpr)
    as (upds & Hrun & Hvel & Hvel' & Hpar & Hpar').
  { intros p Hp. apply Hupd. by eapply selected_params_subseteq. }
  exists upds. split; [|split; [|split; [|split]]].
  - unfold build_finetune_functions. rewrite Hcost, Herrs, Hopt. cbn [attribute].
    rewrite (bind_Ok_eq _ _ _ eq_refl),
      (bind_Ok_eq _ _ _ (count_freeze_params_Ok _ _ Hli)).
    cbn [String.eqb Ascii.eqb Bool.eqb].
    unfold enumerate_zip. fold ps. fold fz.
    rewrite length_zip_with_l_eq by (by rewrite length_map).
    rewrite (bind_Ok_eq _ _ _ Hrun). cbn [mbind result_bind].
    rewrite (theano_compile_gradients cost errs upds).
    + rewrite theano_compile_no_updates, missing_input_xy, Hed, Hef. reflexivity.
    + by rewrite missing_input_xy, Hed, Hef.
    + by rewrite missing_input_xy, Hcd, Hcf.
    + apply (sgd_loop_gradients _ _ _ _ _ _ _ Hrun). intros s e t Hl.
      by rewrite lookup_empty in Hl.
  - exact Hvel.
  - intros p Hp. rewrite (Hvel' p Hp). apply lookup_empty.
  - intros j p Hj Hfz. apply (Hpar j); [exact Hj | lia].
  - intros p Hp. rewrite Hpar'; [apply lookup_empty|].
    intros j Hj. specialize (Hp j Hj). lia.
Qed.

Lemma make_loss_Some (a : init_args) (out : texpr) (loss : option (texpr * texpr)) :
  make_loss ndim a out = Ok loss ->
  a_loss_function a ∈ ["CCE"; "Hinge"; "MMSE"] ->
  is_Some loss.
Proof.
  unfold make_loss. intros H Hin. apply str_in_elem_of in Hin.
  cbn [str_in existsb] in Hin.
  destruct (String.eqb (a_loss_function a) "CCE"); [injection H as <-; eauto|].
  destruct (String.eqb (a_loss_function a) "Hinge").
  { apply bind_Ok in H as (? & _ & H). apply bind_Ok in H as (? & _ & H).
    injection H as <-. eauto. }
  destruct (String.eqb (a_loss_function a) "MMSE"); [|discriminate Hin].
  destruct (a_rnn_batch_training a); injection H as <-; eauto.
Qed.

(** a returned network is ready for [build_finetune_functions] *)
Lemma init_trainable (a : init_args) (net : network) :
  init a = Ok net ->
  a_loss_function a ∈ ["CCE"; "Hinge"; "MMSE"] ->
  (exists cost errs, finetune_cost net = Some cost /\ errors net = Some errs) /\
  (forall p, p ∈ params net -> updates net !! p = Some (SVel p)) /\
  optimizer net = a_optimizer a.
Proof.
  intros Hinit Hloss.
  apply init_Ok in Hinit
    as (_ & st & fp & loss & _ & _ & Hl & _ & Hps & _ & Hupd & Hcost & Herr & Hopt & _).
  destruct (make_loss_Some _ _ _ Hl Hloss) as [[c e] ->].
  split; [exists c, e; by rewrite Hcost, Herr|].
  split; [|exact Hopt].
  intros p Hp. rewrite Hupd, <- Hps. by apply make_updates_lookup.
Qed.

(** [build_finetune_functions] with 'sgd' on a returned network with no
    encoding wired in *)
Lemma build_finetune_sgd_init (a : init_args) (net : network)
    (train_shared_xy valid_shared_xy : list Row * list Row)
    (use_lhuc : bool) (layer_index : nat) :
  init a = Ok net ->
  a_optimizer a = "sgd" ->
  a_loss_function a ∈ ["CCE"; "Hinge"; "MMSE"] ->
  (layer_index <= length (rnn_layers net))%nat ->
  encoded a = false ->
  let ps := selected_params net use_lhuc in
  let fz := freeze_count net layer_index in
  exists cost errs upds,
    finetune_cost net = Some cost /\
    build_finetune_functions net train_shared_xy valid_shared_xy use_lhuc layer_index
    = Ok (MkFunction errs upds
            (MkGivens (Some train_shared_xy.1) (Some train_shared_xy.2)
                      None None (Some 1%Z)),
          MkFunction errs ∅
            (MkGivens (Some valid_shared_xy.1) (Some valid_shared_xy.2)
                      None None (Some 0%Z))) /\
    (forall p, p ∈ ps -> upds !! SVel p = Some (velocity_update cost p)) /\
    (forall p, p ∉ ps -> upds !! SVel p = None) /\
    (forall j p, ps !! j = Some p -> (fz <= j)%nat ->
                 upds !! SParam p = Some (weight_update cost p)) /\
    (forall p, (forall j, ps !! j = Some p -> (j < fz)%nat) ->
               upds !! SParam p = None).
Proof.
  intros Hinit Hsgd Hloss Hli Henc ps fz.
  destruct (init_trainable _ _ Hinit Hloss) as ((cost & errs & Hcost & Herrs) & Hupd & Hopt).
  rewrite Hsgd in Hopt.
  destruct (init_loss_reads _ _ _ _ Hinit Hcost Herrs) as (Hcd & Hcf & Hed & Hef).
  rewrite Henc in Hcd, Hcf, Hed, Hef.
  destruct (build_finetune_sgd net train_shared_xy valid_shared_xy use_lhuc layer_index
              cost errs Hopt Hcost Herrs Hupd Hli Hcd Hcf Hed Hef)
    as (upds & Hbuild & Hrest).
  exists cost, errs, upds. auto.
Qed.

(** [build_finetune_functions] with an error graph that reads [self.d]:
    the [givens] of lines 290-292 do not bind it *)
Lemma build_finetune_missing_input (net : network)
    (train_shared_xy valid_shared_xy : list Row * list Row)
    (use_lhuc : bool) (layer_index : nat) (cost errs : texpr) :
  finetune_cost net = Some cost ->
  errors net = Some errs ->
  (forall p, p ∈ params net -> updates net !! p = Some (SVel p)) ->
  (layer_index <= length (rnn_layers net))%nat ->
  optimizer net ∈ ["sgd"; "adam"; "rprop"] ->
  t_reads uses_training InD errs = true ->
  build_finetune_functions net train_shared_xy valid_shared_xy use_lhuc layer_index
  = Raise [] MissingInputError.
Proof.
  intros Hcost Herrs Hupd Hli Hopt Hed.
  unfold build_finetune_functions. rewrite Hcost, Herrs. cbn [attribute].
  rewrite (bind_Ok_eq _ _ _ eq_refl),
    (bind_Ok_eq _ _ _ (count_freeze_params_Ok _ _ Hli)).
  assert (Hupds : exists upds,
            (if String.eqb (optimizer net) "sgd" then
               for_each (sgd_iter net (freeze_count net layer_index))
                        (enumerate_zip (selected_params net use_lhuc)
                           (map (UGrad cost) (selected_params net use_lhuc))) ∅
             else if String.eqb (optimizer net) "adam" then
               Ok (compile_ADAM_train_function net
                     (map (UGrad cost) (selected_params net use_lhuc)) lr)
             else if String.eqb (optimizer net) "rprop" then
               Ok (compile_RPROP_train_function net
                     (map (UGrad cost) (selected_params net use_lhuc)))
             else critical_exit (optimizer_message (optimizer net))) = Ok upds).
  { apply str_in_elem_of in Hopt. cbn [str_in existsb] in Hopt.
    destruct (String.eqb (optimizer net) "sgd").
    - destruct (sgd_loop_spec net cost (freeze_count net layer_index)
                  (selected_params net use_lhuc)) with (k := 0%nat)
                  (m := ∅ : gmap shared uexpr) as (upds & Hrun & _).
      { intros p Hp. apply Hupd. by eapply selected_params_subseteq. }
      exists upds. unfold enumerate_zip.
      by rewrite length_zip_with_l_eq by (by rewrite length_map).
    - destruct (String.eqb (optimizer net) "adam"); [eauto|].
      destruct (String.eqb (optimizer net) "rprop"); [eauto | discriminate Hopt]. }
  destruct Hupds as [upds Hupds].
  rewrite (bind_Ok_eq _ _ _ Hupds). cbn [mbind result_bind].
  rewrite (theano_compile_missing errs upds); [reflexivity|].
  by rewrite missing_input_xy, Hed.
Qed.

(** on a returned network, [build_finetune_functions] returns only when
    no encoding is wired in *)
Lemma build_finetune_returned (a : init_args) (net : network)
    (train_shared_xy valid_shared_xy : list Row * list Row)
    (use_lhuc : bool) (layer_index : nat)
    (fns : theano_function Row * theano_function Row) :
  init a = Ok net ->
  build_finetune_functions net train_shared_xy valid_shared_xy use_lhuc layer_index
  = Ok fns ->
  encoded a = false.
Proof.
  intros Hinit Hret. destruct (encoded a) eqn:Henc; [|reflexivity]. exfalso.
  unfold build_finetune_functions in Hret.
  apply bind_Ok in Hret as (cost & Hcost & Hret).
  apply bind_Ok in Hret as (fz & _ & Hret).
  apply bind_Ok in Hret as (upds & _ & Hret).
  apply bind_Ok in Hret as (errs & Herrs & Hret).
  apply bind_Ok in Hret as (train & Htrain & _).
  assert (Hc : finetune_cost net = Some cost).
  { destruct (finetune_cost net); [cbn in Hcost; congruence | discriminate Hcost]. }
  assert (He : errors net = Some errs).
  { destruct (errors net); [cbn in Herrs; congruence | discriminate Herrs]. }
  destruct (init_loss_reads _ _ _ _ Hinit Hc He) as (_ & _ & Hed & _).
  rewrite Henc in Hed.
  rewrite (theano_compile_missing errs upds) in Htrain; [discriminate Htrain|].
  by rewrite missing_input_xy, Hed.
Qed.

(** C4: with 'sgd', one call of a training function that
    [build_finetune_functions] returns gives every trained parameter (one at
    a position from [freeze_params] on in the list of parameters picked) the
    new accumulator [v' = mom * v - lr * gradient] and the new value
    [p' = p + v'], where [v] is the accumulator kept for it in
    [self.updates]; the accumulator starts as zeros of the shape of the
    parameter; the validation function changes no shared value.  The
    functions are returned on every network with no encoding wired in. *)
Theorem C4_sgd_update (a : init_args) (net : network)
    (train_shared_xy valid_shared_xy : list Row * list Row)
    (use_lhuc : bool) (layer_index : nat) :
  init a = Ok net ->
  a_optimizer a = "sgd" ->
  a_loss_function a ∈ ["CCE"; "Hinge"; "MMSE"] ->
  (layer_index <= length (rnn_layers net))%nat ->
  (encoded a = false ->
   exists train valid,
     build_finetune_functions net train_shared_xy valid_shared_xy use_lhuc layer_index
     = Ok (train, valid)) /\
  (forall train valid,
     build_finetune_functions net train_shared_xy valid_shared_xy use_lhuc layer_index
     = Ok (train, valid) ->
     exists cost,
       finetune_cost net = Some cost /\
       (forall j p lr_v mom_v st v w,
          selected_params net use_lhuc !! j = Some p ->
          (freeze_count net layer_index <= j)%nat ->
          st !! SVel p = Some v ->
          st !! SParam p = Some w ->
          let st' := (call train [lr_v; mom_v] st).2 in
          let v' := new_velocity lr_v mom_v v (grad_eval (f_givens train) st cost p) in
          st' !! SVel p = Some v' /\ st' !! SParam p = Some (t_add w v')) /\
       (forall args st, (call valid args st).2 = st)) /\
  (forall p, p ∈ params net ->
     updates net !! p = Some (SVel p) /\
     initial_store net !! SParam p = Some (init_value p) /\
     initial_store net !! SVel p = Some (np_zeros (get_shape (init_value p)))).
Proof.
  intros Hinit Hsgd Hloss Hli.
  destruct (init_trainable _ _ Hinit Hloss) as (_ & Hupd & _).
  split; [|split].
  - intros Henc.
    destruct (build_finetune_sgd_init a net train_shared_xy valid_shared_xy use_lhuc
                layer_index Hinit Hsgd Hloss Hli Henc)
      as (cost & errs & upds & _ & Hbuild & _).
    eauto.
  - intros train valid Hret.
    pose proof (build_finetune_returned _ _ _ _ _ _ _ Hinit Hret) as Henc.
    destruct (build_finetune_sgd_init a net train_shared_xy valid_shared_xy use_lhuc
                layer_index Hinit Hsgd Hloss Hli Henc)
      as (cost & errs & upds & Hcost & Hbuild & Hvel & _ & Hpar & _).
    rewrite Hbuild in Hret. injection Hret as <- <-.
    exists cost. split; [exact Hcost|]. split.
    + intros j p lr_v mom_v st v w Hj Hfz Hv Hw. cbn zeta.
      rewrite !call_store_lookup. cbn [f_updates f_givens].
      rewrite (Hvel p) by (by eapply list_elem_of_lookup_2).
      rewrite (Hpar j p Hj Hfz). cbn [mbind option_bind].
      by rewrite (ueval_velocity _ _ _ _ _ _ _ Hv), (ueval_weight _ _ _ _ _ _ _ _ Hv Hw).
    + intros args st. by rewrite call_no_updates.
  - intros p Hp. split; [by apply Hupd|]. by apply initial_store_lookup.
Qed.

(** ** The parameters of the frozen layers *)

Lemma elem_of_concat {A : Type} (x : A) (ls : list (list A)) :
  x ∈ concat ls <-> exists l, l ∈ ls /\ x ∈ l.
Proof.
  induction ls as [|l0 ls IH]; cbn.
  - split; [intros H; by apply elem_of_nil in H|].
    intros (l & Hl & _). by apply elem_of_nil in Hl.
  - rewrite elem_of_app, IH. split.
    + intros [H | (l & Hl & Hx)].
      * exists l0. split; [apply list_elem_of_here | exact H].
      * exists l. split; [by apply list_elem_of_further | exact Hx].
    + intros (l & Hl & Hx). apply elem_of_cons in Hl as [-> | Hl]; [by left|].
      right. by exists l.
Qed.

Lemma layer_params_owner (owner : nat) (l : layer) (p : param) :
  p ∈ layer_params owner l -> p_owner p = owner.
Proof.
  unfold layer_params. intros Hin.
  apply elem_of_lookup_imap in Hin as (j & name & -> & _). reflexivity.
Qed.

Lemma owners_in_range (ls : list layer) (k : nat) (p : param) :
  p ∈ concat (imap (fun i l => layer_params (k + i) l) ls) ->
  (k <= p_owner p < k + length ls)%nat.
Proof.
  revert k. induction ls as [|l ls IH]; intros k Hin; cbn in Hin.
  - by apply elem_of_nil in Hin.
  - apply elem_of_app in Hin as [Hin | Hin].
    + apply layer_params_owner in Hin. cbn [length]. lia.
    + rewrite (imap_ext _ (fun i l => layer_params (S k + i) l)) in Hin.
      * apply IH in Hin. cbn [length]. lia.
      * intros i x _. cbn. f_equal. lia.
Qed.

Lemma make_final_layer_params (a : init_args) (st : loop_state)
    (fp : layer * list param) :
  make_final_layer a st = Ok fp ->
  exists fin, fp.2 = ls_params st ++ fin /\
              (fin = [] \/ fin = layer_params (length (ls_rnn_layers st)) fp.1).
Proof.
  unfold make_final_layer. intros H.
  apply bind_Ok in H as (sz & _ & H). apply bind_Ok in H as (ty & _ & H).
  apply bind_Ok in H as (z & _ & H). apply bind_Ok in H as (ty' & _ & H).
  split_test H.
  { apply bind_Ok in H as (l & _ & H). injection H as <-. exists [].
    cbn. rewrite app_nil_r. auto. }
  repeat (split_test H;
          [ apply bind_Ok in H as (l & _ & H); injection H as <-;
            eexists; split; [reflexivity | by right] | ]).
  discriminate H.
Qed.

(** [self.params]: the parameters of the hidden layers in the order of the
    layers, then those of an output layer of its own *)
Lemma init_params (a : init_args) (net : network) :
  init a = Ok net ->
  exists fin,
    params net = concat (imap layer_params (rnn_layers net)) ++ fin /\
    (fin = [] \/ fin = layer_params (length (rnn_layers net)) (final_layer net)).
Proof.
  intros Hinit.
  apply init_Ok in Hinit as (_ & st & fp & loss & Hb & Hfp & _ & -> & -> & -> & _).
  destruct (build_invariant _ _ _ Hb) as (_ & Hps & _).
  destruct (make_final_layer_params _ _ _ Hfp) as (fin & -> & Hfin).
  exists fin. by rewrite Hps.
Qed.

Lemma init_params_final_owner (net : network) (fin : list param) (p : param) :
  fin = [] \/ fin = layer_params (length (rnn_layers net)) (final_layer net) ->
  p ∈ fin ->
  p_owner p = length (rnn_layers net) /\
  p ∈ layer_params (length (rnn_layers net)) (final_layer net).
Proof.
  intros [-> | ->] Hp; [by apply elem_of_nil in Hp|].
  split; [by apply layer_params_owner in Hp | exact Hp].
Qed.

(** a parameter sits before position [freeze_params] exactly when a layer
    before [layer_index] made it *)
Lemma params_owner_index (a : init_args) (net : network) (layer_index j : nat)
    (p : param) :
  init a = Ok net ->
  (layer_index <= length (rnn_layers net))%nat ->
  params net !! j = Some p ->
  (j < freeze_count net layer_index)%nat <-> (p_owner p < layer_index)%nat.
Proof.
  intros Hinit Hli Hj.
  destruct (init_params _ _ Hinit) as (fin & Hps & Hfin).
  unfold freeze_count.
  rewrite <- (take_drop layer_index (rnn_layers net)) in Hps at 1.
  rewrite imap_app, concat_app, <- app_assoc, length_take_le in Hps by exact Hli.
  set (front := concat (imap layer_params (take layer_index (rnn_layers net)))) in *.
  rewrite Hps in Hj.
  destruct (decide (j < length front)%nat) as [Hlt|Hge].
  - rewrite lookup_app_l in Hj by exact Hlt.
    apply list_elem_of_lookup_2 in Hj.
    apply (owners_in_range _ 0) in Hj.
    rewrite length_take_le in Hj by exact Hli. split; intros; [lia | exact Hlt].
  - rewrite lookup_app_r in Hj by lia.
    apply list_elem_of_lookup_2, elem_of_app in Hj as [Hj | Hj].
    + apply owners_in_range in Hj. split; intros; lia.
    + apply (init_params_final_owner _ _ _ Hfin) in Hj as [Hj _].
      split; intros; lia.
Qed.


(** * Further properties of the code *)

(** ** When the constructor returns, and how it stops *)

(** an exception in iteration [i] is the exception of the constructor *)
Lemma init_stops_in_iteration (a : init_args) (i : nat) (st : loop_state) msgs e :
  length (a_hidden_layer_size a) = length (a_hidden_layer_type a) ->
  (i < length (a_hidden_layer_type a))%nat ->
  build_hidden_layers a i = Ok st ->
  layer_iter a i st = Raise msgs e ->
  init a = Raise msgs e.
Proof.
  intros Hlen Hi Hb Hit. unfold init. rewrite Hlen, Nat.eqb_refl. cbn [negb].
  apply bind_Raise. rewrite <- Hlen.
  apply (build_raise_stays a (S i)); [lia|].
  by rewrite build_hidden_layers_S, (bind_Ok_eq _ _ _ Hb).
Qed.

Lemma build_wiring_safe (a : init_args) (k : nat) (st : loop_state) :
  build_hidden_layers a k = Ok st ->
  encoder_hits a k = 0%nat \/
  (a_network_type a = "S2S" /\
   (a_ed_type a = "HED" -> (encoder_hits a k < length (a_MLU_div_lengths a))%nat)).
Proof.
  revert st. induction k as [|k IH]; intros st Hb; [by left|].
  apply build_hidden_layers_S_Ok in Hb as (st0 & Hb0 & Hit).
  destruct (build_invariant _ _ _ Hb0) as (_ & _ & _ & Hcnt).
  apply layer_iter_Ok in Hit as (? & ? & w & ? & _ & _ & Hw & _ & _).
  rewrite encoder_hits_S.
  apply seq2seq_mapping_Ok in Hw
    as [[Hr _] | (Hr & Hnet & [[Hved _] | [(Hhed & lo & hi & _ & Hhi & _)
                                         | (_ & Hnhed & _)]])];
    rewrite Hr.
  - rewrite Nat.add_0_r. eauto.
  - right. split; [exact Hnet|]. intros Hhed. rewrite Hved in Hhed. discriminate Hhed.
  - right. split; [exact Hnet|]. intros _. rewrite <- (Hcnt Hhed).
    by apply lookup_lt_Some in Hhi.
  - right. split; [exact Hnet|]. intros Hhed. contradiction.
Qed.

Lemma make_final_layer_Ok_output (a : init_args) (st : loop_state)
    (fp : layer * list param) :
  make_final_layer a st = Ok fp ->
  a_hidden_layer_type a <> [] /\ output_supported a.
Proof.
  unfold make_final_layer. intros H.
  apply bind_Ok in H as (sz & _ & H). apply bind_Ok in H as (ty & Hty & H).
  apply bind_Ok in H as (z & _ & H). apply bind_Ok in H as (ty' & Hty' & H).
  apply py_index_minus_one in Hty'.
  split.
  { intros Hnil. rewrite Hnil in Hty'. discriminate Hty'. }
  unfold output_supported.
  destruct (str_in ty' Decoder_variants) eqn:Hdec; [left; eauto|]. right.
  destruct (String.eqb_spec (lower (a_output_type a)) "linear"); [by left|]. right.
  destruct (String.eqb_spec (lower (a_output_type a)) "recurrent"); [by left|]. right.
  destruct (str_in (upper (a_output_type a)) list_of_activations); [reflexivity|].
  discriminate H.
Qed.

Lemma init_Ok_supported (a : init_args) (net : network) (tag : string) :
  init a = Ok net -> tag ∈ a_hidden_layer_type a -> tag ∈ supported_tags.
Proof.
  intros Hinit Hin. apply list_elem_of_lookup in Hin as [i Hi].
  assert (Hlen : length (rnn_layers net) = length (a_hidden_layer_type a)).
  { apply init_Ok in Hinit as (_ & st & ? & ? & Hb & _ & _ & -> & _).
    by destruct (build_invariant _ _ _ Hb) as (-> & _). }
  destruct (lookup_lt_is_Some_2 (rnn_layers net) i) as [l Hl].
  { rewrite Hlen. by eapply lookup_lt_Some. }
  destruct (layer_built_by _ _ _ _ Hinit Hl) as (? & ? & ? & w & _ & _ & _ & _ & Hmk).
  apply make_hidden_layer_Ok in Hmk as (tag' & n_h & Htag' & _ & Hp & _).
  congruence.
Qed.

(** X1: when the constructor returns a network, the two lists have the
    same length and are not empty, every hidden tag is supported, the
    encoder wiring found [self.d] and enough entries of [MLU_div_lengths],
    and the output layer could be picked. *)
Theorem X1_init_returns_only_if (a : init_args) (net : network) :
  init a = Ok net ->
  length (a_hidden_layer_size a) = length (a_hidden_layer_type a) /\
  a_hidden_layer_type a <> [] /\
  (forall tag, tag ∈ a_hidden_layer_type a -> tag ∈ supported_tags) /\
  wiring_safe a /\
  output_supported a.
Proof.
  intros Hinit.
  pose proof Hinit as Hparts.
  apply init_Ok in Hparts as (Hlen & st & fp & loss & Hb & Hfp & _).
  destruct (make_final_layer_Ok_output _ _ _ Hfp) as [Hne Hout].
  split; [exact Hlen|]. split; [exact Hne|].
  split; [intros tag; by apply (init_Ok_supported a net)|].
  split; [exact (build_wiring_safe _ _ _ Hb) | exact Hout].
Qed.

(** X2: with empty lists of hidden layers the constructor raises
    [IndexError] (at [hidden_layer_size[-1]], line 163), whatever the other
    arguments. *)
Theorem X2_init_no_hidden_layer (a : init_args) :
  a_hidden_layer_size a = [] ->
  a_hidden_layer_type a = [] ->
  init a = Raise [] IndexError.
Proof.
  intros Hsizes Htypes. unfold init, build_hidden_layers, make_final_layer.
  rewrite Hsizes, Htypes. reflexivity.
Qed.

(** X3: when [network_type] is not 'S2S', the first iteration whose encoder
    test holds raises [AttributeError] (line 105 reads [self.d]), whatever
    [ed_type] is. *)
Theorem X3_encoder_needs_S2S (a : init_args) (i : nat) :
  length (a_hidden_layer_size a) = length (a_hidden_layer_type a) ->
  (i < length (a_hidden_layer_type a))%nat ->
  (forall j tag, (j < i)%nat -> a_hidden_layer_type a !! j = Some tag ->
                 tag ∈ supported_tags) ->
  (forall j, (j < i)%nat -> reads_encoder a j = false) ->
  reads_encoder a i = true ->
  a_network_type a <> "S2S" ->
  init a = Raise [] AttributeError.
Proof.
  intros Hlen Hi Hsup Hnone Hr Hnet.
  destruct (build_succeeds_local a i Hlen ltac:(lia) Hsup) as [st Hb].
  { intros j Hj Hrj. rewrite (Hnone j Hj) in Hrj. discriminate Hrj. }
  apply (init_stops_in_iteration a i st); [exact Hlen | exact Hi | exact Hb |].
  destruct (build_invariant _ _ _ Hb) as (Hlayers & _).
  destruct (base_input_size_total a i Hlen ltac:(lia)) as [z Hz].
  destruct (base_layer_input_total _ _ Hlayers) as [x Hx].
  unfold layer_iter. rewrite (bind_Ok_eq _ _ _ Hz), (bind_Ok_eq _ _ _ Hx).
  apply bind_Raise. unfold seq2seq_mapping. unfold reads_encoder in Hr.
  destruct (py_index (a_hidden_layer_type a) (Z.of_nat i - 1)) as [prev|];
    [|discriminate Hr].
  cbn [mbind result_bind]. rewrite Hr. unfold self_d.
  apply String.eqb_neq in Hnet. rewrite Hnet. reflexivity.
Qed.

(** X4: with [network_type] 'S2S' and [ed_type] 'HED', the encoder test
    number [len(MLU_div_lengths)] that holds (the first one when the list
    is empty) raises [IndexError]: each such test reads one entry of
    [MLU_div_lengths] more than the tests before it. *)
Theorem X4_hed_needs_MLU_div (a : init_args) (i : nat) :
  length (a_hidden_layer_size a) = length (a_hidden_layer_type a) ->
  (i < length (a_hidden_layer_type a))%nat ->
  (forall j tag, (j < i)%nat -> a_hidden_layer_type a !! j = Some tag ->
                 tag ∈ supported_tags) ->
  a_network_type a = "S2S" ->
  a_ed_type a = "HED" ->
  reads_encoder a i = true ->
  encoder_hits a i = (length (a_MLU_div_lengths a) - 1)%nat ->
  init a = Raise [] IndexError.
Proof.
  intros Hlen Hi Hsup Hnet Hhed Hr Hhits.
  destruct (build_succeeds_local a i Hlen ltac:(lia) Hsup) as [st Hb].
  { intros j Hj Hrj. split; [exact Hnet|]. intros _.
    pose proof (encoder_hits_mono a (S j) i ltac:(lia)) as Hmono.
    rewrite encoder_hits_S, Hrj in Hmono. lia. }
  apply (init_stops_in_iteration a i st); [exact Hlen | exact Hi | exact Hb |].
  destruct (build_invariant _ _ _ Hb) as (Hlayers & _ & _ & Hcnt).
  specialize (Hcnt Hhed).
  destruct (base_input_size_total a i Hlen ltac:(lia)) as [z Hz].
  destruct (base_layer_input_total _ _ Hlayers) as [x Hx].
  unfold layer_iter. rewrite (bind_Ok_eq _ _ _ Hz), (bind_Ok_eq _ _ _ Hx).
  apply bind_Raise. unfold seq2seq_mapping. unfold reads_encoder in Hr.
  destruct (py_index (a_hidden_layer_type a) (Z.of_nat i - 1)) as [prev|];
    [|discriminate Hr].
  cbn [mbind result_bind]. rewrite Hr. unfold self_d, self_f.
  rewrite Hnet, Hhed. cbn [String.eqb Ascii.eqb Bool.eqb mbind result_bind].
  assert (Hout : forall (k : nat), (length (a_MLU_div_lengths a) <= k)%nat ->
                   py_index (a_MLU_div_lengths a) (Z.of_nat k) = Raise [] IndexError).
  { intros k Hk. unfold py_index.
    destruct (Z.ltb_spec (Z.of_nat k) 0); [lia|].
    destruct (Z.ltb_spec (Z.of_nat k) 0); [lia|].
    rewrite Nat2Z.id. by rewrite (lookup_ge_None_2 _ _ Hk). }
  destruct (a_MLU_div_lengths a !! ls_encoder_count st) as [lo|] eqn:Hlo.
  - apply py_index_nat in Hlo. rewrite (bind_Ok_eq _ _ _ Hlo).
    apply bind_Raise.
    replace (Z.of_nat (ls_encoder_count st) + 1)%Z
      with (Z.of_nat (ls_encoder_count st + 1)) by lia.
    apply Hout. apply py_index_nat, lookup_lt_Some in Hlo. lia.
  - apply bind_Raise. apply Hout. by apply lookup_ge_None_1.
Qed.

Lemma logs_Ok {A : Type} (x : A) : logs_only_at_exit (Ok x).
Proof. intros msgs e H. discriminate H. Qed.

Lemma logs_Raise {A : Type} (e : exn) :
  (forall code, e <> SystemExit code) -> logs_only_at_exit (@Raise A [] e).
Proof. intros He msgs e' H. injection H as <- <-. by left. Qed.

Lemma logs_critical_exit {A : Type} (msg : string) :
  logs_only_at_exit (@critical_exit A msg).
Proof. intros msgs e H. injection H as <- <-. right. eauto. Qed.

Lemma logs_bind {A B : Type} (r : result A) (k : A -> result B) :
  logs_only_at_exit r -> (forall x, logs_only_at_exit (k x)) ->
  logs_only_at_exit (r ≫= k).
Proof.
  intros Hr Hk msgs e. destruct r as [x|msgs' e']; cbn.
  - apply Hk.
  - intros H. injection H as -> ->. by apply (Hr msgs e).
Qed.

Lemma logs_if {A : Type} (c : bool) (r1 r2 : result A) :
  logs_only_at_exit r1 -> logs_only_at_exit r2 ->
  logs_only_at_exit (if c then r1 else r2).
Proof. destruct c; auto. Qed.

Lemma logs_py_index {A : Type} (l : list A) (i : Z) : logs_only_at_exit (py_index l i).
Proof.
  unfold py_index. apply logs_if; [by apply logs_Raise|].
  destruct (l !! _); [apply logs_Ok | by apply logs_Raise].
Qed.

Lemma logs_for_each {I S : Type} (body : I -> S -> result S) (idxs : list I) (st : S) :
  (forall i st', logs_only_at_exit (body i st')) ->
  logs_only_at_exit (for_each body idxs st).
Proof.
  intros Hbody. revert st. induction idxs as [|i rest IH]; intros st; cbn.
  - apply logs_Ok.
  - apply logs_bind; [apply Hbody | apply IH].
Qed.

Lemma logs_attribute {A : Type} (o : option A) : logs_only_at_exit (attribute o).
Proof. destruct o; [apply logs_Ok | by apply logs_Raise]. Qed.

Ltac logs_tac :=
  repeat first
    [ apply logs_Ok
    | apply logs_critical_exit
    | apply logs_Raise; discriminate
    | apply logs_py_index
    | apply logs_attribute
    | apply logs_if
    | apply logs_bind; [|intros ?] ].

(** X5: the constructor and [build_finetune_functions] log a critical
    message exactly when they end the process, and then the exit code is 1:
    an exception is raised without a message, and [sys.exit] is never
    called without one. *)
Theorem X5_critical_message_iff_exit (a : init_args) (net : network)
    (train_shared_xy valid_shared_xy : list Row * list Row)
    (use_lhuc : bool) (layer_index : nat) :
  logs_only_at_exit (init a) /\
  logs_only_at_exit
    (build_finetune_functions net train_shared_xy valid_shared_xy use_lhuc layer_index).
Proof.
  split.
  - unfold init. apply logs_if; [by apply logs_Raise|].
    apply logs_bind.
    { apply logs_for_each. intros i st.
      unfold layer_iter, base_input_size, base_layer_input, seq2seq_mapping,
        make_hidden_layer, construct, self_d, self_f.
      logs_tac. }
    intros st. unfold make_final_layer, make_loss, multiclass_hinge_loss.
    logs_tac.
  - unfold build_finetune_functions, count_freeze_params.
    apply logs_bind; [apply logs_attribute|]. intros cost.
    apply logs_bind.
    { apply logs_for_each. intros i k. logs_tac. }
    intros fz. apply logs_bind; [|intros upds; logs_tac].
    apply logs_if; [|logs_tac].
    apply logs_for_each. intros item upds. unfold sgd_iter.
    apply logs_bind; [|intros ?; apply logs_Ok].
    destruct (updates net !! _); [apply logs_Ok | by apply logs_Raise].
Qed.

(** ** The output layer *)

Lemma build_with_output_type (a : init_args) (o : string) (n : nat) :
  build_hidden_layers (with_output_type a o) n = build_hidden_layers a n.
Proof.
  unfold build_hidden_layers. generalize initial_loop_state. generalize (seq 0 n).
  intros idxs. induction idxs as [|i rest IH]; intros st; cbn; [reflexivity|].
  change (layer_iter (with_output_type a o) i st) with (layer_iter a i st).
  destruct (layer_iter a i st); cbn; [apply IH | reflexivity].
Qed.

(** X6: when the last hidden layer is a decoder variant, [output_type] is
    never looked at: the constructor does the same for every [output_type],
    the final layer is the last hidden layer itself, and its parameters are
    in [self.params] once. *)
Theorem X6_decoder_ignores_output_type (a : init_args) (tag : string) :
  last (a_hidden_layer_type a) = Some tag ->
  tag ∈ Decoder_variants ->
  (forall o, init (with_output_type a o) = init a) /\
  (forall net, init a = Ok net ->
     last (rnn_layers net) = Some (final_layer net) /\
     params net = concat (imap layer_params (rnn_layers net))).
Proof.
  intros Hlast Hdec. apply str_in_elem_of in Hdec.
  pose proof Hlast as Hpy. apply py_index_minus_one in Hpy.
  assert (Hfinal : forall st o,
             make_final_layer (with_output_type a o) st = make_final_layer a st).
  { intros st o. unfold make_final_layer.
    change (a_hidden_layer_size (with_output_type a o)) with (a_hidden_layer_size a).
    change (a_hidden_layer_type (with_output_type a o)) with (a_hidden_layer_type a).
    destruct (py_index (a_hidden_layer_size a) (-1)); [|reflexivity].
    cbn [mbind result_bind]. rewrite Hpy. cbn [mbind result_bind].
    destruct (if str_in tag BLSTM_variants then _ else _); [|reflexivity].
    cbn [mbind result_bind]. by rewrite Hdec. }
  split.
  - intros o. unfold init.
    change (a_hidden_layer_size (with_output_type a o)) with (a_hidden_layer_size a).
    change (a_hidden_layer_type (with_output_type a o)) with (a_hidden_layer_type a).
    destruct (negb _); [reflexivity|].
    rewrite build_with_output_type.
    destruct (build_hidden_layers a _) as [st|]; [|reflexivity].
    cbn [mbind result_bind]. rewrite Hfinal. reflexivity.
  - intros net Hinit.
    apply init_Ok in Hinit as (_ & st & fp & loss & Hb & Hfp & _ & -> & -> & -> & _).
    destruct (build_invariant _ _ _ Hb) as (_ & Hps & _).
    unfold make_final_layer in Hfp.
    apply bind_Ok in Hfp as (sz & _ & Hfp). rewrite (bind_Ok_eq _ _ _ Hpy) in Hfp.
    apply bind_Ok in Hfp as (z & _ & Hfp).
    rewrite (bind_Ok_eq _ _ _ Hpy), Hdec in Hfp.
    apply bind_Ok in Hfp as (l & Hl & Hfp). injection Hfp as <-.
    apply py_index_minus_one in Hl. cbn. by rewrite Hps in *.
Qed.

Lemma ascii_upper_lower (c : ascii) : ascii_upper (ascii_lower c) = ascii_upper c.
Proof. destruct c as [[] [] [] [] [] [] [] []]; reflexivity. Qed.

Lemma upper_lower (s : string) : upper (lower s) = upper s.
Proof.
  induction s as [|c s IH]; cbn; [reflexivity|]. by rewrite ascii_upper_lower, IH.
Qed.

(** X7: [output_type] is matched without regard to case: two output types
    with the same lower-case form give the same network, or both none. *)
Theorem X7_output_type_case_insensitive (a : init_args) (o : string) (net : network) :
  lower o = lower (a_output_type a) ->
  init (with_output_type a o) = Ok net <-> init a = Ok net.
Proof.
  intros Hlow.
  assert (Hup : upper o = upper (a_output_type a)).
  { by rewrite <- (upper_lower o), Hlow, upper_lower. }
  assert (Hfinal : forall st fp,
             make_final_layer (with_output_type a o) st = Ok fp <->
             make_final_layer a st = Ok fp).
  { intros st fp. unfold make_final_layer.
    change (a_hidden_layer_size (with_output_type a o)) with (a_hidden_layer_size a).
    change (a_hidden_layer_type (with_output_type a o)) with (a_hidden_layer_type a).
    change (a_n_out (with_output_type a o)) with (a_n_out a).
    change (a_rnn_batch_training (with_output_type a o)) with (a_rnn_batch_training a).
    change (a_output_type (with_output_type a o)) with o.
    rewrite Hlow, Hup.
    destruct (py_index (a_hidden_layer_size a) (-1)); [|reflexivity].
    cbn [mbind result_bind].
    destruct (py_index (a_hidden_layer_type a) (-1)) as [ty|]; [|reflexivity].
    cbn [mbind result_bind].
    destruct (if str_in ty BLSTM_variants then _ else _); [|reflexivity].
    cbn [mbind result_bind].
    destruct (str_in ty Decoder_variants); [reflexivity|].
    destruct (String.eqb _ "linear"); [reflexivity|].
    destruct (String.eqb _ "recurrent"); [reflexivity|].
    destruct (str_in _ list_of_activations); [reflexivity|].
    split; discriminate. }
  unfold init.
  change (a_hidden_layer_size (with_output_type a o)) with (a_hidden_layer_size a).
  change (a_hidden_layer_type (with_output_type a o)) with (a_hidden_layer_type a).
  destruct (negb _); [reflexivity|].
  rewrite build_with_output_type.
  destruct (build_hidden_layers a _) as [st|]; [|reflexivity].
  cbn [mbind result_bind].
  destruct (make_final_layer (with_output_type a o) st) as [fp|msgs e] eqn:Hfp.
  - apply Hfinal in Hfp. rewrite Hfp. reflexivity.
  - destruct (make_final_layer a st) as [fp|msgs' e'] eqn:Hfp'.
    + apply Hfinal in Hfp'. congruence.
    + split; discriminate.
Qed.

(** ** The parameters of a returned network *)

Lemma NoDup_layer_params (owner : nat) (l : layer) : NoDup (layer_params owner l).
Proof.
  unfold layer_params. apply NoDup_alt. intros i j p Hi Hj.
  apply list_lookup_imap_Some in Hi as (x & _ & ->).
  apply list_lookup_imap_Some in Hj as (y & _ & Heq).
  by injection Heq.
Qed.

Lemma NoDup_hidden_params (ls : list layer) (k : nat) :
  NoDup (concat (imap (fun i l => layer_params (k + i) l) ls)).
Proof.
  revert k. induction ls as [|l ls IH]; intros k; cbn; [constructor|].
  apply NoDup_app. split; [apply NoDup_layer_params|]. split.
  - intros p Hp Hp'. apply layer_params_owner in Hp.
    rewrite (imap_ext _ (fun i l => layer_params (S k + i) l)) in Hp'
      by (intros; cbn; f_equal; lia).
    apply owners_in_range in Hp'. lia.
  - rewrite (imap_ext _ (fun i l => layer_params (S k + i) l))
      by (intros; cbn; f_equal; lia).
    apply IH.
Qed.

Lemma init_params_NoDup (a : init_args) (net : network) :
  init a = Ok net -> NoDup (params net).
Proof.
  intros Hinit. destruct (init_params _ _ Hinit) as (fin & Hps & Hfin).
  rewrite Hps. apply NoDup_app. split; [apply (NoDup_hidden_params _ 0)|]. split.
  - intros p Hp Hp'. apply (owners_in_range _ 0) in Hp.
    apply (init_params_final_owner _ _ _ Hfin) in Hp' as [Hp' _]. lia.
  - destruct Hfin as [-> | ->]; [constructor | apply NoDup_layer_params].
Qed.

(** ** Building the training functions *)

Lemma count_freeze_params_IndexError (net : network) (layer_index : nat) :
  (length (rnn_layers net) < layer_index)%nat ->
  count_freeze_params net layer_index = Raise [] IndexError.
Proof.
  intros Hli. unfold count_freeze_params.
  replace layer_index
    with (length (rnn_layers net) + S (layer_index - S (length (rnn_layers net))))%nat
    by lia.
  rewrite seq_app, for_each_app.
  pose proof (count_freeze_params_Ok net (length (rnn_layers net)) ltac:(lia)) as Hok.
  unfold count_freeze_params in Hok. rewrite (bind_Ok_eq _ _ _ Hok).
  cbn [seq for_each Nat.add]. apply bind_Raise. apply bind_Raise.
  unfold py_index.
  destruct (Z.ltb_spec (Z.of_nat (length (rnn_layers net))) 0); [lia|].
  destruct (Z.ltb_spec (Z.of_nat (length (rnn_layers net))) 0); [lia|].
  rewrite Nat2Z.id. by rewrite (lookup_ge_None_2 _ _ (Nat.le_refl _)).
Qed.

Lemma make_loss_None (a : init_args) (out : texpr) (loss : option (texpr * texpr)) :
  make_loss ndim a out = Ok loss ->
  a_loss_function a ∉ ["CCE"; "Hinge"; "MMSE"] ->
  loss = None.
Proof.
  unfold make_loss. intros H Hnot.
  assert (Hne : forall name, name ∈ ["CCE"; "Hinge"; "MMSE"] ->
                             String.eqb (a_loss_function a) name = false).
  { intros name Hin. apply String.eqb_neq. intros Heq. apply Hnot. by rewrite Heq. }
  rewrite !Hne in H by (apply str_in_elem_of; reflexivity). congruence.
Qed.

(** X9: with a [loss_function] other than 'CCE', 'Hinge' and 'MMSE' the
    constructor sets neither [finetune_cost] nor [errors], and every one of
    the three functions that build training functions then raises
    [AttributeError]. *)
Theorem X9_unknown_loss (a : init_args) (net : network)
    (train_xy valid_xy : list Row * list Row)
    (train_xyd valid_xyd : list Row * list Row * list Z)
    (train_xydf valid_xydf : list Row * list Row * list Z * list Row)
    (use_lhuc : bool) (layer_index : nat) :
  init a = Ok net ->
  a_loss_function a ∉ ["CCE"; "Hinge"; "MMSE"] ->
  finetune_cost net = None /\ errors net = None /\
  build_finetune_functions net train_xy valid_xy use_lhuc layer_index
  = Raise [] AttributeError /\
  build_finetune_functions_S2S net train_xyd valid_xyd = Raise [] AttributeError /\
  build_finetune_functions_S2SPF net train_xydf valid_xydf layer_index
  = PFDone (Raise [] AttributeError).
Proof.
  intros Hinit Hloss.
  apply init_Ok in Hinit
    as (_ & st & fp & loss & _ & _ & Hl & _ & _ & _ & _ & Hcost & Herr & _).
  rewrite (make_loss_None _ _ _ Hl Hloss) in Hcost, Herr. cbn in Hcost, Herr.
  split; [exact Hcost|]. split; [exact Herr|].
  unfold build_finetune_functions, build_finetune_functions_S2S,
    build_finetune_functions_S2SPF.
  rewrite Hcost. auto.
Qed.


(** X11: with 'sgd', a call of a training function that
    [build_finetune_functions] returns changes no shared variable of a
    parameter that was not picked: with [use_lhuc] on, every parameter not
    named 'c' keeps its value and its accumulator.  The function is returned
    on every network with no encoding wired in. *)
Theorem X11_sgd_leaves_other_parameters (a : init_args) (net : network)
    (train_shared_xy valid_shared_xy : list Row * list Row)
    (use_lhuc : bool) (layer_index : nat) :
  init a = Ok net ->
  a_optimizer a = "sgd" ->
  a_loss_function a ∈ ["CCE"; "Hinge"; "MMSE"] ->
  (layer_index <= length (rnn_layers net))%nat ->
  (encoded a = false ->
   exists train valid,
     build_finetune_functions net train_shared_xy valid_shared_xy use_lhuc layer_index
     = Ok (train, valid)) /\
  (forall train valid,
     build_finetune_functions net train_shared_xy valid_shared_xy use_lhuc layer_index
     = Ok (train, valid) ->
     forall p args st,
       p ∉ selected_params net use_lhuc ->
       (call train args st).2 !! SParam p = st !! SParam p /\
       (call train args st).2 !! SVel p = st !! SVel p) /\
  (use_lhuc = true ->
   forall p, p_name p <> "c" -> p ∉ selected_params net use_lhuc).
Proof.
  intros Hinit Hsgd Hloss Hli. split; [|split].
  - intros Henc.
    destruct (build_finetune_sgd_init a net train_shared_xy valid_shared_xy use_lhuc
                layer_index Hinit Hsgd Hloss Hli Henc)
      as (cost & errs & upds & _ & Hbuild & _).
    eauto.
  - intros train valid Hret.
    pose proof (build_finetune_returned _ _ _ _ _ _ _ Hinit Hret) as Henc.
    destruct (build_finetune_sgd_init a net train_shared_xy valid_shared_xy use_lhuc
                layer_index Hinit Hsgd Hloss Hli Henc)
      as (cost & errs & upds & _ & Hbuild & _ & Hvel & _ & Hpar).
    rewrite Hbuild in Hret. injection Hret as <- <-.
    intros p args st Hp. rewrite !call_store_lookup. cbn [f_updates].
    rewrite (Hvel p Hp), Hpar; [by cbn|].
    intros j Hj. exfalso. apply Hp. by eapply list_elem_of_lookup_2.
  - intros -> p Hname Hin. cbn [selected_params] in Hin.
    by apply list_elem_of_filter in Hin as [Hc _].
Qed.

(** X18: on a network with an encoding wired in,
    [build_finetune_functions] raises [MissingInputError] for each of the
    optimizers 'sgd', 'adam' and 'rprop': the graph of [self.errors] reads
    [self.d] and [self.f], and the [givens] of lines 290-292 and 297-299
    bind [x], [y] and [is_train] only. *)
Theorem X18_encoding_needs_d_and_f (a : init_args) (net : network)
    (train_shared_xy valid_shared_xy : list Row * list Row)
    (use_lhuc : bool) (layer_index : nat) :
  init a = Ok net ->
  encoded a = true ->
  a_loss_function a ∈ ["CCE"; "Hinge"; "MMSE"] ->
  (layer_index <= length (rnn_layers net))%nat ->
  a_optimizer a ∈ ["sgd"; "adam"; "rprop"] ->
  (exists errs, errors net = Some errs /\
                t_reads uses_training InD errs = true /\
                t_reads uses_training InF errs = true) /\
  build_finetune_functions net train_shared_xy valid_shared_xy use_lhuc layer_index
  = Raise [] MissingInputError.
Proof.
  intros Hinit Henc Hloss Hli Hoptimizer.
  destruct (init_trainable _ _ Hinit Hloss) as ((cost & errs & Hcost & Herrs) & Hupd & Hopt).
  destruct (init_loss_reads _ _ _ _ Hinit Hcost Herrs) as (_ & _ & Hed & Hef).
  rewrite Henc in Hed, Hef. split; [eauto|].
  apply (build_finetune_missing_input net _ _ _ _ cost errs); auto.
  by rewrite Hopt.
Qed.

(** ** Prediction on a built network *)


Lemma py_index_spec {A : Type} (l : list A) (i : Z) :
  let n := Z.of_nat (length l) in
  py_index l i =
  if ((- n <=? i) && (i <? n))%Z
  then match l !! Z.to_nat (if (i <? 0)%Z then i + n else i)%Z with
       | Some x => Ok x
       | None => Raise [] IndexError
       end
  else Raise [] IndexError.
Proof.
  cbn zeta. unfold py_index.
  destruct (Z.ltb_spec i 0) as [Hneg|Hpos].
  - destruct (Z.leb_spec (- Z.of_nat (length l)) i) as [Hin|Hout].
    + destruct (Z.ltb_spec i (Z.of_nat (length l))); [|lia].
      destruct (Z.ltb_spec (i + Z.of_nat (length l)) 0); [lia|]. reflexivity.
    + destruct (Z.ltb_spec (i + Z.of_nat (length l)) 0); [|lia]. reflexivity.
  - destruct (Z.ltb_spec i 0); [lia|].
    destruct (Z.leb_spec (- Z.of_nat (length l)) i); [|lia].
    destruct (Z.ltb_spec i (Z.of_nat (length l))) as [Hin|Hout]; [reflexivity|].
    cbn. by rewrite lookup_ge_None_2 by lia.
Qed.

Lemma py_index_at {A : Type} (l : list A) (i : nat) (x : A) :
  l !! i = Some x ->
  py_index l (Z.of_nat i) = Ok x /\
  py_index l (Z.of_nat i - Z.of_nat (length l)) = Ok x.
Proof.
  intros Hl. pose proof (lookup_lt_Some _ _ _ Hl) as Hi.
  rewrite !py_index_spec.
  destruct (Z.leb_spec (- Z.of_nat (length l)) (Z.of_nat i)); [|lia].
  destruct (Z.ltb_spec (Z.of_nat i) (Z.of_nat (length l))); [|lia].
  destruct (Z.ltb_spec (Z.of_nat i) 0); [lia|].
  destruct (Z.leb_spec (- Z.of_nat (length l)) (Z.of_nat i - Z.of_nat (length l)));
    [|lia].
  destruct (Z.ltb_spec (Z.of_nat i - Z.of_nat (length l)) (Z.of_nat (length l)));
    [|lia].
  destruct (Z.ltb_spec (Z.of_nat i - Z.of_nat (length l)) 0); [|lia].
  cbn [andb].
  replace (Z.to_nat (Z.of_nat i - Z.of_nat (length l) + Z.of_nat (length l)))
    with i by lia.
  by rewrite Nat2Z.id, Hl.
Qed.



(** ** The training functions of the sequence-to-sequence networks *)

Lemma s2s_loop_as_sgd (net : network) (cost : texpr) (ps : list param) (k : nat)
    (m : gmap shared uexpr) :
  for_each (s2s_iter net) (zip ps (map (UGrad cost) ps)) m
  = for_each (sgd_iter net 0)
             (zip (seq k (length ps)) (zip ps (map (UGrad cost) ps))) m.
Proof.
  revert k m. induction ps as [|q ps IH]; intros k m; [reflexivity|].
  cbn [length seq map zip zip_with for_each].
  change (sgd_iter net 0 (k, (q, UGrad cost q)) m)
    with (s2s_iter net (q, UGrad cost q) m).
  destruct (s2s_iter net (q, UGrad cost q) m); cbn; [apply IH | reflexivity].
Qed.



Lemma pf_loop_spec (net : network) (cost : texpr) (enc : nat) (ps : list param) :
  NoDup ps ->
  (forall p, p ∈ ps -> updates net !! p = Some (SVel p)) ->
  forall (k : nat) (m : gmap shared pexpr),
  exists m',
    for_each (pf_iter net enc)
             (zip (seq k (length ps)) (zip ps (map (UGrad cost) ps))) m = Ok m' /\
    (forall j p, ps !! j = Some p ->
       let upd := pf_upd (negb (enc <=? k + j)%nat) (SVel p) (UGrad cost p) in
       m' !! SVel p = Some upd /\
       m' !! SParam p = Some (PAdd (PU (UShared (SParam p))) upd)) /\
    (forall p, p ∉ ps -> m' !! SVel p = m !! SVel p /\ m' !! SParam p = m !! SParam p).
Proof.
  induction ps as [|q ps IH]; intros Hnd Hupd k m.
  - exists m. split; [reflexivity|]. split; [|auto].
    intros j p Hj. by rewrite lookup_nil in Hj.
  - apply NoDup_cons in Hnd as [Hq Hnd].
    cbn [length seq map zip zip_with for_each].
    set (upd := pf_upd (negb (enc <=? k)%nat) (SVel q) (UGrad cost q)).
    set (m1 := <[SParam q := PAdd (PU (UShared (SParam q))) upd]>
                 (<[SVel q := upd]> m)).
    assert (Hstep : pf_iter net enc (k, (q, UGrad cost q)) m = Ok m1).
    { unfold pf_iter. cbn [fst snd].
      rewrite (Hupd q) by apply list_elem_of_here. reflexivity. }
    rewrite (bind_Ok_eq _ _ _ Hstep).
    destruct (IH Hnd (fun p Hp => Hupd p (list_elem_of_further _ _ _ Hp)) (S k) m1)
      as (m' & Hrun & Hin & Hout).
    exists m'. split; [exact Hrun|]. split.
    + intros j p Hj. destruct j as [|j].
      * injection Hj as ->. cbn zeta. rewrite Nat.add_0_r.
        destruct (Hout p Hq) as [-> ->]. fold upd. unfold m1.
        rewrite lookup_insert_ne by discriminate.
        by rewrite !lookup_insert_eq.
      * replace (k + S j)%nat with (S k + j)%nat by lia. by apply Hin.
    + intros p Hp. apply not_elem_of_cons in Hp as [Hne Hp].
      destruct (Hout p Hp) as [-> ->]. unfold m1.
      rewrite lookup_insert_ne by discriminate.
      rewrite lookup_insert_ne by congruence.
      rewrite lookup_insert_ne by congruence.
      by rewrite lookup_insert_ne by discriminate.
Qed.

Lemma call_pf_store_lookup (of_int : Z -> V) (fn : pf_function Row) (args : list V)
    (st : gmap shared V) (s : shared) :
  (call_pf of_int fn args st).2 !! s
  = match pf_updates fn !! s ≫= peval of_int args (pf_givens fn) st with
    | Some v => Some v
    | None => st !! s
    end.
Proof.
  unfold call_pf. cbn [snd]. rewrite lookup_union, lookup_omap.
  destruct (pf_updates fn !! s ≫= peval of_int args (pf_givens fn) st);
    destruct (st !! s); reflexivity.
Qed.

(** X17: with 'sgd', the training function of
    [build_finetune_functions_S2SPF] freezes nothing: every parameter gets
    the accumulator [v' = mom * v - rate * gradient] and the value [p + v'],
    where [rate] is [lr * 2] for the parameters of the first [layer_index]
    layers and [lr] for the others. *)
Theorem X17_S2SPF_doubled_rate (a : init_args) (net : network)
    (train_shared_xydf valid_shared_xydf : list Row * list Row * list Z * list Row)
    (layer_index : nat) :
  init a = Ok net ->
  a_network_type a = "S2S" ->
  a_optimizer a = "sgd" ->
  a_loss_function a ∈ ["CCE"; "Hinge"; "MMSE"] ->
  (layer_index <= length (rnn_layers net))%nat ->
  exists train valid cost,
    build_finetune_functions_S2SPF net train_shared_xydf valid_shared_xydf layer_index
    = PFDone (Ok (train, valid)) /\
    finetune_cost net = Some cost /\
    (forall of_int p lr_v mom_v st v w,
       p ∈ params net ->
       st !! SVel p = Some v ->
       st !! SParam p = Some w ->
       let st' := (call_pf of_int train [lr_v; mom_v] st).2 in
       let rate := if (p_owner p <? layer_index)%nat
                   then t_mul lr_v (of_int 2%Z) else lr_v in
       let v' := t_sub (t_mul mom_v v)
                       (t_mul rate (grad_eval (pf_givens train) st cost p)) in
       st' !! SVel p = Some v' /\ st' !! SParam p = Some (t_add w v')).
Proof.
  intros Hinit Hnet Hsgd Hloss Hli.
  destruct (init_trainable _ _ Hinit Hloss) as ((cost & errs & Hcost & Herrs) & Hupd & Hopt).
  rewrite Hsgd in Hopt.
  pose proof (init_params_NoDup _ _ Hinit) as Hnd.
  pose proof Hinit as Hparts.
  apply init_Ok in Hparts
    as (_ & ? & ? & ? & _ & _ & _ & _ & _ & _ & _ & _ & _ & _ & Hdf & _).
  rewrite Hnet in Hdf.
  destruct (pf_loop_spec net cost (freeze_count net layer_index) (params net)
              Hnd Hupd 0%nat ∅) as (upds & Hrun & Hin & _).
  eexists _, _, cost. split; [|split; [exact Hcost|]].
  { unfold build_finetune_functions_S2SPF, net_d_f.
    rewrite Hcost, Herrs, Hdf, Hopt. cbn [attribute mbind result_bind].
    rewrite (count_freeze_params_Ok _ _ Hli).
    cbn [String.eqb Ascii.eqb Bool.eqb mbind result_bind fst snd].
    unfold enumerate_zip.
    rewrite length_zip_with_l_eq by (by rewrite length_map).
    rewrite Hrun. cbn [mbind result_bind].
    rewrite !pf_compile_all_given by (by intros []). reflexivity. }
  intros of_int p lr_v mom_v st v w Hp Hv Hw. cbn zeta.
  apply list_elem_of_lookup in Hp as [j Hj].
  destruct (Hin j p Hj) as [Hvel Hpar]. cbn zeta in Hvel, Hpar.
  rewrite !call_pf_store_lookup. cbn [pf_updates pf_givens].
  rewrite Hvel, Hpar. cbn [Nat.add].
  assert (Hd : negb (freeze_count net layer_index <=? j)%nat
               = (p_owner p <? layer_index)%nat).
  { pose proof (params_owner_index a net layer_index j p Hinit Hli Hj) as Hiff.
    destruct (Nat.leb_spec (freeze_count net layer_index) j);
      destruct (Nat.ltb_spec (p_owner p) layer_index); cbn; lia || reflexivity. }
  rewrite Hd. destruct (p_owner p <? layer_index)%nat; cbn; by rewrite Hv, Hw.
Qed.

End Network.
(** * The model on examples *)

Local Abbreviation init' := (init demo_param_names demo_ndim).
Local Abbreviation build' :=
  (build_finetune_functions demo_param_names (list Z) demo_adam demo_rprop
     demo_uses_training).
Local Abbreviation call' := (call Z (list Z) Z.add Z.sub Z.mul demo_eval demo_grad).
Local Abbreviation predict' :=
  (parameter_prediction Z (list Z) Z.add Z.sub Z.mul demo_eval demo_grad
     demo_uses_training).
Local Abbreviation predict_S2S' :=
  (parameter_prediction_S2S Z (list Z) Z.add Z.sub Z.mul demo_eval demo_grad
     demo_uses_training).
Local Abbreviation predict_S2SPF' :=
  (parameter_prediction_S2SPF Z (list Z) Z.add Z.sub Z.mul demo_eval demo_grad
     demo_uses_training).

Example demo_init : init' demo_args = Ok demo_net.
Proof. vm_compute. reflexivity. Qed.

Lemma demo_args_well_formed : well_formed demo_param_names demo_ndim demo_args.
Proof.
  unfold well_formed. split; [reflexivity|]. split; [discriminate|]. split.
  { intros tag Hin. apply str_in_elem_of.
    repeat (apply elem_of_cons in Hin as [-> | Hin]; [reflexivity|]).
    by apply elem_of_nil in Hin. }
  split.
  { right. split; [reflexivity|]. intros _. vm_compute. lia. }
  split.
  { right. left. reflexivity. }
  intros Hh. discriminate Hh.
Qed.

(** C1 at [demo_args]: the constructor returns, with two layers, the second
    a [VanillaLstm] for the tag 'LSTM'. *)
Lemma C1_witness :
  exists net, init' demo_args = Ok net /\
              length (rnn_layers net) = 2%nat /\
              exists l, rnn_layers net !! 1%nat = Some l /\ layer_cls l = VanillaLstm.
Proof.
  destruct (C1_layer_for_each_tag demo_param_names demo_ndim demo_args) as [Hret Hall].
  destruct (Hret demo_args_well_formed) as [net Hnet].
  exists net. split; [exact Hnet|].
  destruct (Hall net Hnet) as [Hlen Hlayers]. split; [exact Hlen|].
  destruct (Hlayers 1%nat "LSTM" eq_refl) as (l & Hl & [Hcls | (Hin & _)] & _).
  - exists l. split; [exact Hl|].
    change (spec_layer_class "LSTM") with (Some VanillaLstm) in Hcls. congruence.
  - exfalso. apply str_in_elem_of in Hin. vm_compute in Hin. discriminate Hin.
Defined.

(** C10 at lists of lengths 1 and 2, and at [demo_args]. *)
Lemma C10_witness :
  init' demo_args_bad_lengths = Raise [] AssertionError /\
  (forall msgs, init' demo_args <> Raise msgs AssertionError) /\
  length (rnn_layers demo_net) = 2%nat.
Proof.
  split.
  - apply (C10_length_assertion demo_param_names demo_ndim demo_args_bad_lengths).
    vm_compute. lia.
  - destruct (C10_length_assertion demo_param_names demo_ndim demo_args)
      as [_ Hsame].
    destruct (Hsame eq_refl) as (Hnever & Hlayers & _).
    split; [exact Hnever|].
    destruct (Hlayers demo_net ltac:(vm_compute; reflexivity)) as [Hlen _].
    exact Hlen.
Defined.



(** C3 at [demo_args_two_encoders]: two encoder blocks; the second slice of
    [d] starts where the first ended and the second column range of [f]
    starts where the first ended. *)
Lemma C3_witness :
  exists net b b',
    init' demo_args_two_encoders = Ok net /\
    hed_blocks (rnn_layers net) = [b; b'] /\
    b_start b = SConst 0 /\ b_start b' = b_end b /\ b_lo b' = b_hi b.
Proof.
  destruct (init' demo_args_two_encoders) as [net|msgs e] eqn:Hinit;
    [|vm_compute in Hinit; discriminate Hinit].
  pose proof (C3_hed_segments demo_param_names demo_ndim demo_args_two_encoders net
                Hinit eq_refl) as H.
  cbn zeta in H. destruct H as (_ & _ & Hfirst & Hchain).
  assert (Hbs : exists b b', hed_blocks (rnn_layers net) = [b; b']).
  { vm_compute in Hinit. injection Hinit as <-. eexists _, _. vm_compute. reflexivity. }
  destruct Hbs as (b & b' & Hbs). exists net, b, b'.
  split; [reflexivity|]. split; [exact Hbs|].
  rewrite Hbs in Hfirst, Hchain.
  split; [exact (Hfirst b eq_refl)|].
  destruct (Hchain 0%nat b b' eq_refl eq_refl) as (Hs & Hc & _). auto.
Defined.



(** C6 as stated fails at [demo_args]: layer 1 is fed through the encoder,
    so the output of the final layer reads [d] and [f];
    [parameter_prediction] binds neither and [parameter_prediction_S2S] binds
    no [f], and both raise [MissingInputError] instead of returning a
    value. *)
Lemma C6_counterexample :
  init' demo_args = Ok demo_net /\
  t_reads demo_uses_training InD (TOutput (final_layer demo_net)) = true /\
  t_reads demo_uses_training InF (TOutput (final_layer demo_net)) = true /\
  predict' demo_net (demo_store demo_params) [[1]; [2]]%Z
  = Raise [] MissingInputError /\
  predict_S2S' demo_net (demo_store demo_params) [[1]; [2]]%Z [3; 4; 5]%Z
  = Raise [] MissingInputError.
Proof.
  split; [vm_compute; reflexivity|].
  repeat (split; [vm_compute; reflexivity|]).
  vm_compute. reflexivity.
Qed.

(** C8 at [demo_args_last_encoder]: the last tag is 'LSTME', and layer 0
    takes the encoding of [x] with the columns 0 to 4 of [f]. *)
Lemma C8_witness :
  exists net l0 lo hi,
    init' demo_args_last_encoder = Ok net /\
    rnn_layers net !! 0%nat = Some l0 /\
    layer_input l0 = hed_input TX 3 (SConst 0) lo hi /\
    layer_n_in l0 = (3 + (hi - lo))%Z.
Proof.
  destruct (init' demo_args_last_encoder) as [net|msgs e] eqn:Hinit;
    [|vm_compute in Hinit; discriminate Hinit].
  assert (Hl0 : exists l0, rnn_layers net !! 0%nat = Some l0).
  { vm_compute in Hinit. injection Hinit as <-. eexists. reflexivity. }
  destruct Hl0 as [l0 Hl0].
  destruct (C8_first_layer_reads_last_tag demo_param_names demo_ndim
              demo_args_last_encoder net l0 "LSTME" Hinit Hl0 eq_refl)
    as (_ & _ & Hhed).
  { apply str_in_elem_of. reflexivity. }
  destruct (Hhed eq_refl) as (lo & hi & _ & _ & Hin & Hw).
  exists net, l0, lo, hi. auto.
Defined.

(** C8 as stated fails at [demo_args_no_ed]: the last tag is the encoder
    variant 'LSTME', yet with [ed_type = 'NONE'] layer 0 takes the network
    input [x] itself, with width [n_in]. *)
Lemma C8_counterexample :
  exists net l0,
    init' demo_args_no_ed = Ok net /\
    last (a_hidden_layer_type demo_args_no_ed) = Some "LSTME" /\
    "LSTME" ∈ Encoder_variants /\
    rnn_layers net !! 0%nat = Some l0 /\
    layer_input l0 = TX /\ layer_n_in l0 = 3%Z.
Proof.
  eexists _, _. split; [vm_compute; reflexivity|].
  split; [reflexivity|]. split; [apply str_in_elem_of; reflexivity|].
  split; [reflexivity|]. split; reflexivity.
Qed.

(** C7 at an unknown hidden tag, at an unknown hidden tag before an
    encoder tag with every optional argument at its default, at an unknown
    output type, and at an unknown optimizer. *)
Lemma C7_witness :
  init' demo_args_bad_tag = Raise [hidden_type_message "FOO"] (SystemExit 1) /\
  init' demo_args_bad_first = Raise [hidden_type_message "FOO"] (SystemExit 1) /\
  init' demo_args_bad_output = Raise [output_type_message "FOO"] (SystemExit 1) /\
  exists net,
    init' demo_args_bad_optimizer = Ok net /\
    build' net ([], []) ([], []) false 0 = Raise [optimizer_message "FOO"] (SystemExit 1).
Proof.
  destruct (C7_unsupported_names_exit demo_param_names demo_ndim (list Z)
              demo_adam demo_rprop demo_uses_training)
    as (Hhidden & Houtput & Hoptimizer).
  assert (Hnot : forall (l : list string), str_in "FOO" l = false -> "FOO" ∉ l).
  { intros l Hl Hin. apply str_in_elem_of in Hin. congruence. }
  assert (Htanh : forall t, t ∈ ["TANH"; "TANH"] -> t ∈ supported_tags).
  { intros t Hin. apply str_in_elem_of.
    repeat (apply elem_of_cons in Hin as [-> | Hin]; [reflexivity|]).
    by apply elem_of_nil in Hin. }
  split; [|split; [|split]].
  - apply (Hhidden demo_args_bad_tag 1%nat "FOO");
      [reflexivity | left; reflexivity | reflexivity | by apply Hnot |].
    intros j tag' Hj Hl. destruct j as [|j]; [|lia].
    injection Hl as <-. apply str_in_elem_of. reflexivity.
  - apply (Hhidden demo_args_bad_first 0%nat "FOO");
      [reflexivity | left; reflexivity | reflexivity | by apply Hnot |].
    intros j tag' Hj. lia.
  - apply (Houtput demo_args_bad_output "TANH");
      [reflexivity | left; reflexivity | exact Htanh | reflexivity | | | | ].
    + intros Hin. apply str_in_elem_of in Hin. vm_compute in Hin. discriminate Hin.
    + vm_compute. discriminate.
    + vm_compute. discriminate.
    + by apply Hnot.
  - destruct (init' demo_args_bad_optimizer) as [net|msgs e] eqn:Hinit;
      [|vm_compute in Hinit; discriminate Hinit].
    exists net. split; [reflexivity|].
    assert (Hnet : is_Some (finetune_cost net) /\ (0 <= length (rnn_layers net))%nat /\
                   optimizer net = "FOO").
    { vm_compute in Hinit. injection Hinit as <-. split; [eexists; reflexivity|].
      split; [lia | reflexivity]. }
    destruct Hnet as (Hcost & Hli & Hopt).
    rewrite <- Hopt.
    apply (Hoptimizer net ([], []) ([], []) false 0%nat Hcost Hli).
    rewrite Hopt. by apply Hnot.
Defined.

(** C7 as stated fails at [demo_args_defaults], where every optional
    argument has its default: the tag 'FOO' is not supported, yet the
    constructor raises [IndexError] (at [MLU_div[0]], line 119) and logs
    nothing. *)
Lemma C7_counterexample :
  length (a_hidden_layer_size demo_args_defaults)
  = length (a_hidden_layer_type demo_args_defaults) /\
  a_hidden_layer_type demo_args_defaults !! 1%nat = Some "FOO" /\
  str_in "FOO" supported_tags = false /\
  init' demo_args_defaults = Raise [] IndexError.
Proof.
  split; [reflexivity|]. split; [reflexivity|]. split; [reflexivity|].
  vm_compute. reflexivity.
Qed.

(** C4 at [demo_args_plain], nothing frozen: with [lr = 1], [mom = 2], an
    accumulator of 5, a parameter of 3 and a gradient of 1, the first
    parameter gets the accumulator [2 * 5 - 1 * 1 = 9] and the value
    [3 + 9 = 12]; its accumulator starts as zeros; validation changes
    nothing. *)
Lemma C4_witness :
  exists net train valid,
    init' demo_args_plain = Ok net /\
    build' net ([], []) ([], []) false 0 = Ok (train, valid) /\
    (call' train [1; 2]%Z (demo_store (params net))).2 !! SVel (MkParam 0 0 "W")
    = Some 9%Z /\
    (call' train [1; 2]%Z (demo_store (params net))).2 !! SParam (MkParam 0 0 "W")
    = Some 12%Z /\
    initial_store Z unit demo_zeros demo_shape demo_init_value net
      !! SVel (MkParam 0 0 "W") = Some 0%Z /\
    (call' valid [] (demo_store (params net))).2 = demo_store (params net).
Proof.
  destruct (init' demo_args_plain) as [net|msgs e] eqn:Hinit;
    [|vm_compute in Hinit; discriminate Hinit].
  assert (Hloss : a_loss_function demo_args_plain ∈ ["CCE"; "Hinge"; "MMSE"]).
  { apply str_in_elem_of. reflexivity. }
  assert (Hfacts : (0 <= length (rnn_layers net))%nat /\
                   MkParam 0 0 "W" ∈ params net /\
                   selected_params net false !! 0%nat = Some (MkParam 0 0 "W") /\
                   demo_store (params net) !! SVel (MkParam 0 0 "W") = Some 5%Z /\
                   demo_store (params net) !! SParam (MkParam 0 0 "W") = Some 3%Z).
  { pose proof Hinit as Hnet. vm_compute in Hnet. injection Hnet as <-.
    split; [lia|]. split; [apply list_elem_of_In; vm_compute; tauto|].
    split; [reflexivity|]. split; reflexivity. }
  destruct Hfacts as (Hli & Hp & Hsel & Hv & Hw).
  destruct (C4_sgd_update demo_param_names demo_ndim Z unit (list Z)
              Z.add Z.sub Z.mul demo_zeros demo_shape demo_init_value
              demo_eval demo_grad demo_adam demo_rprop demo_uses_training
              demo_args_plain net ([], []) ([], []) false 0%nat
              Hinit eq_refl Hloss Hli)
    as (Hreturns & Hrule & Hstart).
  destruct (Hreturns eq_refl) as (train & valid & Hbuild).
  destruct (Hrule train valid Hbuild) as (cost & _ & Hstep & Hvalid).
  exists net, train, valid. split; [reflexivity|]. split; [exact Hbuild|].
  destruct (Hstep 0%nat (MkParam 0 0 "W") 1%Z 2%Z (demo_store (params net)) 5%Z 3%Z)
    as [Hv' Hw']; [exact Hsel | vm_compute; lia | exact Hv | exact Hw |].
  split; [exact Hv'|]. split; [exact Hw'|].
  destruct (Hstart (MkParam 0 0 "W") Hp) as (_ & _ & Hzero).
  split; [exact Hzero | apply Hvalid].
Defined.



(** * The further properties on examples *)

Local Abbreviation build_S2S' := (build_finetune_functions_S2S (list Z) demo_uses_training).
Local Abbreviation build_S2SPF' :=
  (build_finetune_functions_S2SPF demo_param_names (list Z) demo_adam demo_rprop
     demo_uses_training).
Local Abbreviation call_pf' :=
  (call_pf Z (list Z) Z.add Z.sub Z.mul demo_eval demo_grad demo_of_int).
Local Abbreviation generate' :=
  (generate_hidden_layer Z (list Z) Z.add Z.sub Z.mul demo_eval demo_grad
     demo_uses_training).
Local Abbreviation predict_CTC' :=
  (parameter_prediction_CTC Z (list Z) Z.add Z.sub Z.mul demo_eval demo_grad
     demo_uses_training).

Ltac list_members Hin :=
  repeat (apply elem_of_cons in Hin as [-> | Hin]; [reflexivity|]);
  by apply elem_of_nil in Hin.

Lemma X1_witness :
  init' demo_args = Ok demo_net /\
  wiring_safe demo_args /\ output_supported demo_args.
Proof.
  assert (Hinit : init' demo_args = Ok demo_net) by (vm_compute; reflexivity).
  split; [exact Hinit|].
  destruct (X1_init_returns_only_if demo_param_names demo_ndim demo_args demo_net Hinit)
    as (_ & _ & _ & Hsafe & Hout).
  split; [exact Hsafe | exact Hout].
Defined.

Lemma X2_witness : init' demo_args_empty = Raise [] IndexError.
Proof.
  apply (X2_init_no_hidden_layer demo_param_names demo_ndim demo_args_empty);
    reflexivity.
Defined.

Lemma X3_witness : init' demo_args_no_d = Raise [] AttributeError.
Proof.
  apply (X3_encoder_needs_S2S demo_param_names demo_ndim demo_args_no_d 1%nat).
  - reflexivity.
  - vm_compute. lia.
  - intros j tag Hj Hl. destruct j as [|j]; [|lia].
    injection Hl as <-. apply str_in_elem_of. reflexivity.
  - intros j Hj. destruct j as [|j]; [reflexivity | lia].
  - reflexivity.
  - discriminate.
Defined.

Lemma X4_witness : init' demo_args_defaults = Raise [] IndexError.
Proof.
  apply (X4_hed_needs_MLU_div demo_param_names demo_ndim demo_args_defaults 1%nat).
  - reflexivity.
  - vm_compute. lia.
  - intros j tag Hj Hl. destruct j as [|j]; [|lia].
    injection Hl as <-. apply str_in_elem_of. reflexivity.
  - reflexivity.
  - reflexivity.
  - reflexivity.
  - reflexivity.
Defined.

Lemma X6_witness :
  init' (with_output_type demo_args_decoder "LINEAR") = init' demo_args_decoder /\
  exists net, init' demo_args_decoder = Ok net /\
              last (rnn_layers net) = Some (final_layer net).
Proof.
  destruct (X6_decoder_ignores_output_type demo_param_names demo_ndim
              demo_args_decoder "LSTMD" eq_refl) as [Hsame Hfinal].
  { apply str_in_elem_of. reflexivity. }
  split; [apply Hsame|].
  destruct (init' demo_args_decoder) as [net|msgs e] eqn:Hinit;
    [|vm_compute in Hinit; discriminate Hinit].
  exists net. split; [reflexivity|]. by destruct (Hfinal net eq_refl).
Defined.

Lemma X7_witness : init' (with_output_type demo_args "Linear") = Ok demo_net.
Proof.
  apply (X7_output_type_case_insensitive demo_param_names demo_ndim demo_args
           "Linear" demo_net); [reflexivity|].
  vm_compute. reflexivity.
Defined.

Lemma X9_witness :
  exists net,
    init' demo_args_no_loss = Ok net /\
    build' net ([], []) ([], []) false 0 = Raise [] AttributeError /\
    build_S2S' net ([], [], []) ([], [], []) = Raise [] AttributeError.
Proof.
  destruct (init' demo_args_no_loss) as [net|msgs e] eqn:Hinit;
    [|vm_compute in Hinit; discriminate Hinit].
  exists net. split; [reflexivity|].
  destruct (X9_unknown_loss demo_param_names demo_ndim (list Z) demo_adam demo_rprop
              demo_uses_training
              demo_args_no_loss net ([], []) ([], []) ([], [], []) ([], [], [])
              ([], [], [], []) ([], [], [], []) false 0%nat Hinit)
    as (_ & _ & Hb & Hs & _).
  { intros Hin. apply str_in_elem_of in Hin. vm_compute in Hin. discriminate Hin. }
  auto.
Defined.


Lemma X11_witness :
  exists net train valid,
    init' demo_args_lhuc = Ok net /\
    build' net ([], []) ([], []) true 0 = Ok (train, valid) /\
    (call' train [1; 2]%Z (demo_store (params net))).2 !! SParam (MkParam 0 0 "W")
    = demo_store (params net) !! SParam (MkParam 0 0 "W").
Proof.
  destruct (init' demo_args_lhuc) as [net|msgs e] eqn:Hinit;
    [|vm_compute in Hinit; discriminate Hinit].
  destruct (X11_sgd_leaves_other_parameters demo_param_names demo_ndim Z (list Z)
              Z.add Z.sub Z.mul demo_eval demo_grad demo_adam demo_rprop
              demo_uses_training
              demo_args_lhuc net ([], []) ([], []) true 0%nat Hinit eq_refl)
    as (Hreturns & Hframe & Hlhuc).
  { apply str_in_elem_of. reflexivity. }
  { lia. }
  destruct (Hreturns eq_refl) as (train & valid & Hb).
  exists net, train, valid. split; [reflexivity|]. split; [exact Hb|].
  apply (Hframe train valid Hb). apply (Hlhuc eq_refl). discriminate.
Defined.






Lemma X17_witness :
  exists train valid,
    build_S2SPF' demo_net ([], [], [], []) ([], [], [], []) 1
    = PFDone (Ok (train, valid)) /\
    (call_pf' train [1; 2]%Z (demo_store demo_params)).2 !! SVel (MkParam 0 0 "W_xi")
    = Some 8%Z /\
    (call_pf' train [1; 2]%Z (demo_store demo_params)).2 !! SParam (MkParam 0 0 "W_xi")
    = Some 11%Z /\
    (call_pf' train [1; 2]%Z (demo_store demo_params)).2 !! SVel (MkParam 1 0 "W_xi")
    = Some 9%Z.
Proof.
  destruct (X17_S2SPF_doubled_rate demo_param_names demo_ndim Z (list Z)
              Z.add Z.sub Z.mul demo_eval demo_grad demo_adam demo_rprop
              demo_uses_training
              demo_args demo_net ([], [], [], []) ([], [], [], []) 1%nat)
    as (train & valid & cost & Hb & _ & Hstep);
    [vm_compute; reflexivity | reflexivity | reflexivity
     | apply str_in_elem_of; reflexivity | vm_compute; lia |].
  exists train, valid. split; [exact Hb|].
  assert (Hin : forall p, In p demo_params -> p ∈ params demo_net).
  { intros p Hp. by apply list_elem_of_In. }
  destruct (Hstep demo_of_int (MkParam 0 0 "W_xi") 1%Z 2%Z (demo_store demo_params)
              5%Z 3%Z) as [Hv0 Hw0];
    [apply Hin; vm_compute; tauto | reflexivity | reflexivity |].
  destruct (Hstep demo_of_int (MkParam 1 0 "W_xi") 1%Z 2%Z (demo_store demo_params)
              5%Z 3%Z) as [Hv1 _];
    [apply Hin; vm_compute; tauto | reflexivity | reflexivity |].
  split; [exact Hv0|]. split; [exact Hw0 | exact Hv1].
Defined.

(** X18 at [demo_args] ('sgd') and at [demo_args_adam]. *)
Lemma X18_witness :
  build' demo_net ([], []) ([], []) false 0 = Raise [] MissingInputError /\
  exists net,
    init' demo_args_adam = Ok net /\
    build' net ([], []) ([], []) false 0 = Raise [] MissingInputError.
Proof.
  split.
  - apply (X18_encoding_needs_d_and_f demo_param_names demo_ndim (list Z)
             demo_adam demo_rprop demo_uses_training demo_args demo_net
             ([], []) ([], []) false 0%nat).
    + vm_compute. reflexivity.
    + reflexivity.
    + apply str_in_elem_of. reflexivity.
    + vm_compute. lia.
    + apply str_in_elem_of. reflexivity.
  - destruct (init' demo_args_adam) as [net|msgs e] eqn:Hinit;
      [|vm_compute in Hinit; discriminate Hinit].
    exists net. split; [reflexivity|].
    apply (X18_encoding_needs_d_and_f demo_param_names demo_ndim (list Z)
             demo_adam demo_rprop demo_uses_training demo_args_adam net
             ([], []) ([], []) false 0%nat Hinit).
    + reflexivity.
    + apply str_in_elem_of. reflexivity.
    + vm_compute in Hinit. injection Hinit as <-. vm_compute. lia.
    + apply str_in_elem_of. reflexivity.
Defined.
